(** * banking-backend: the transaction processing core, embedded in Rocq

    A shallow embedding of the Go sources of barannkoca/banking-backend:
    the ledger model ([internal/models]), the GORM store as the services
    use it, [TransactionService] (Credit / Debit / Transfer),
    [BalanceService] with the Redis cache, the atomic
    [TransactionCounters], the [WorkerPool] queue discipline and the
    query handling of the HTTP handlers; further the status transitions
    of a transaction, the in-memory [Balance], the transfer helpers of the
    balance repository, the worker that runs a job, and the handlers that
    submit jobs and show ledger rows.

    Conventions of the embedding.
    - Money.  [Amount] is a Go [float64] bound to a [decimal(15,2)] column.
      The store and the services carry amounts as exact integers in minor
      units (kurus, 1/100 TRY); the limit 1,000,000 TRY is therefore
      [100000000].  This is the program on amounts of at most two
      decimals and balances inside the range of the column; [Numeric]
      carries the store statements for every amount, with the rounding
      and the range check of the column.  Where the code computes on the
      [float64] itself (the in-memory [Balance], the conversion in
      [AddAmountProcessed]) the embedding computes in IEEE 754 binary64.
    - Identifiers.  A [uuid.UUID] is carried by its canonical text, what
      [String()] prints; [==] on identifiers is equality of these texts.
      [uuid.New()] and [time.Now()] are inputs of the operation that calls
      them.
    - Errors.  A Go [error] is carried by its message; [fmt.Errorf] with
      [%w] prefixes the message of the wrapped error.
    - The store.  The tables are finite maps keyed by primary key (ledger,
      balances) or append-only lists (balance history, audit log).  A GORM
      transaction runs a state-passing body and discards the body's writes
      when the body returns an error.  Connection failures of the database
      and the foreign keys into the users table are not part of the state.
    - Control.  Every operation runs to its end before the next starts: the
      per-account locks of [SafeUpdateBalance] and the interleaving of
      goroutines are not represented, a [select] is resolved by an explicit
      choice, and a loop that may spin takes the number of iterations it is
      granted.  Writes to the logger have no effect on the state and are
      left out. *)

From Stdlib Require Import Ascii SpecFloat QArith.
From stdpp Require Import gmap strings list fin_maps numbers pretty.

Open Scope Z_scope.

(** ** Scalars *)

Abbreviation uuid := string (only parsing).

Definition max_int64 : Z := 9223372036854775807.

(** Two's-complement wrap-around of a 64-bit signed integer. *)
Definition wrap64 (x : Z) : Z := (x + 2 ^ 63) mod 2 ^ 64 - 2 ^ 63.

Definition two_digits (r : Z) : string :=
  if r <? 10 then "0" +:+ pretty r else pretty r.

(** [%f] of an amount: six fractional digits. *)
Definition fmt_f (a : Z) : string :=
  let n := Z.abs a in
  (if a <? 0 then "-" else "") +:+ pretty (n / 100) +:+ "." +:+
  two_digits (n mod 100) +:+ "0000".

(** [json.Marshal] of an amount: the shortest decimal. *)
Definition json_number (a : Z) : string :=
  let n := Z.abs a in
  let q := n / 100 in
  let r := n mod 100 in
  (if a <? 0 then "-" else "") +:+ pretty q +:+
  (if r =? 0 then ""
   else if r mod 10 =? 0 then "." +:+ pretty (r / 10)
   else "." +:+ two_digits r).

(** ** float64

    IEEE 754 binary64 with round to nearest even, as Go computes on
    [float64].  A value of this type is an exact binary fraction. *)

Definition float64 : Type := spec_float.

Definition float64_of_Z (z : Z) : float64 := binary_normalize 53 1024 z 0 false.

Definition float64_add (x y : float64) : float64 := SFadd 53 1024 x y.
Definition float64_sub (x y : float64) : float64 := SFsub 53 1024 x y.
Definition float64_mul (x y : float64) : float64 := SFmul 53 1024 x y.
Definition float64_div (x y : float64) : float64 := SFdiv 53 1024 x y.
Definition float64_ltb (x y : float64) : bool := SFltb x y.
Definition float64_leb (x y : float64) : bool := SFleb x y.

(** The [float64] an amount of [a] minor units is held in: the double
    nearest to the decimal [a / 100] (the quotient of two exact doubles is
    rounded once). *)
Definition float64_of_minor (a : Z) : float64 :=
  float64_div (float64_of_Z a) (float64_of_Z 100).

(** The conversion [int64(f)]: truncation toward zero.  What Go leaves to
    the implementation (a value outside [int64], an infinity, a NaN) is the
    smallest [int64], as on amd64. *)
Definition int64_of_float64 (f : float64) : Z :=
  match f with
  | S754_zero _ => 0
  | S754_finite s m e =>
      let v := if 0 <=? e then Z.pos m * 2 ^ e else Z.pos m / 2 ^ (- e) in
      if max_int64 <? v then - 2 ^ 63 else if s then - v else v
  | S754_infinity _ | S754_nan => - 2 ^ 63
  end.

(** ** Errors *)

Inductive error : Type :=
| ErrRecordNotFound
| ErrDuplicatedKey
| Errorf (msg : string).

Definition Error (e : error) : string :=
  match e with
  | ErrRecordNotFound => "record not found"
  | ErrDuplicatedKey => "duplicated key not allowed"
  | Errorf msg => msg
  end.

(** [fmt.Errorf(ctx + ": %w", err)] *)
Definition Errorw (ctx : string) (err : error) : error :=
  Errorf (ctx +:+ ": " +:+ Error err).

(** ** internal/models *)

Definition TransactionTypeTransfer : string := "transfer".
Definition TransactionTypeDeposit : string := "deposit".
Definition TransactionTypeWithdraw : string := "withdraw".
Definition TransactionTypePayment : string := "payment".
Definition TransactionTypeRefund : string := "refund".

Definition TransactionStatusPending : string := "pending".
Definition TransactionStatusCompleted : string := "completed".
Definition TransactionStatusFailed : string := "failed".
Definition TransactionStatusCancelled : string := "cancelled".
Definition TransactionStatusRefund : string := "refund".

Record Transaction : Type := mkTransaction {
  tx_ID : uuid;
  tx_FromUserID : option uuid;
  tx_ToUserID : option uuid;
  tx_Amount : Z;
  tx_Type : string;
  tx_Status : string;
  tx_Reference : string;
  tx_CreatedAt : Z
}.

Definition set_Status (t : Transaction) (s : string) : Transaction :=
  mkTransaction (tx_ID t) (tx_FromUserID t) (tx_ToUserID t) (tx_Amount t)
                (tx_Type t) s (tx_Reference t) (tx_CreatedAt t).

Record BalanceHistory : Type := mkBalanceHistory {
  bh_ID : uuid;
  bh_UserID : uuid;
  bh_PreviousAmount : Z;
  bh_NewAmount : Z;
  bh_ChangeAmount : Z;
  bh_ChangeType : string;
  bh_TransactionID : option uuid;
  bh_CreatedAt : Z
}.

Record AuditLog : Type := mkAuditLog {
  al_ID : uuid;
  al_UserID : option uuid;
  al_Action : string;
  al_EntityType : string;
  al_EntityID : string;
  al_Details : string;
  al_CreatedAt : Z
}.

(** The maximum transaction limit of [Validate], 1,000,000.00. *)
Definition max_transaction_amount : Z := 100000000.

Definition CanTransitionTo (t : Transaction) (targetStatus : string) : bool :=
  if String.eqb (tx_Status t) TransactionStatusPending then
    String.eqb targetStatus TransactionStatusCompleted
    || String.eqb targetStatus TransactionStatusFailed
    || String.eqb targetStatus TransactionStatusCancelled
  else if String.eqb (tx_Status t) TransactionStatusCompleted then
    String.eqb targetStatus TransactionStatusRefund
  else false.

Definition is_nil {A : Type} (o : option A) : bool :=
  match o with None => true | Some _ => false end.

(** [Transaction.Validate]: [None] is the nil error. *)
Definition Validate (t : Transaction) : option error :=
  if tx_Amount t <=? 0 then
    Some (Errorf "işlem tutarı sıfırdan büyük olmalıdır")
  else if max_transaction_amount <? tx_Amount t then
    Some (Errorf "işlem tutarı çok yüksek (maksimum: 1,000,000)")
  else if negb (String.eqb (tx_Type t) TransactionTypeTransfer
             || String.eqb (tx_Type t) TransactionTypeDeposit
             || String.eqb (tx_Type t) TransactionTypeWithdraw
             || String.eqb (tx_Type t) TransactionTypePayment
             || String.eqb (tx_Type t) TransactionTypeRefund) then
    Some (Errorf "geçersiz işlem türü")
  else if negb (String.eqb (tx_Status t) TransactionStatusPending
             || String.eqb (tx_Status t) TransactionStatusCompleted
             || String.eqb (tx_Status t) TransactionStatusFailed
             || String.eqb (tx_Status t) TransactionStatusCancelled) then
    Some (Errorf "geçersiz işlem durumu")
  else if String.eqb (tx_Type t) TransactionTypeTransfer
          && (is_nil (tx_FromUserID t) || is_nil (tx_ToUserID t)) then
    Some (Errorf "transfer işlemi için gönderen ve alıcı kullanıcılar gereklidir")
  else if String.eqb (tx_Type t) TransactionTypeTransfer
          && bool_decide (tx_FromUserID t = tx_ToUserID t) then
    Some (Errorf "kullanıcı kendisine transfer yapamaz")
  else if String.eqb (tx_Type t) TransactionTypeDeposit
          && is_nil (tx_ToUserID t) then
    Some (Errorf "para yatırma işlemi için alıcı kullanıcı gereklidir")
  else if String.eqb (tx_Type t) TransactionTypeDeposit
          && negb (is_nil (tx_FromUserID t)) then
    Some (Errorf "para yatırma işleminde gönderen kullanıcı belirtilmemelidir")
  else if String.eqb (tx_Type t) TransactionTypeWithdraw
          && is_nil (tx_FromUserID t) then
    Some (Errorf "para çekme işlemi için gönderen kullanıcı gereklidir")
  else if String.eqb (tx_Type t) TransactionTypeWithdraw
          && negb (is_nil (tx_ToUserID t)) then
    Some (Errorf "para çekme işleminde alıcı kullanıcı belirtilmemelidir")
  else None.

(** ** The store: tables and GORM transactions *)

Record DB : Type := mkDB {
  balances : gmap string Z;
  transactions : gmap string Transaction;
  balance_history : list BalanceHistory;
  audit_logs : list AuditLog
}.

Definition set_balances (d : DB) (b : gmap string Z) : DB :=
  mkDB b (transactions d) (balance_history d) (audit_logs d).
Definition set_transactions (d : DB) (t : gmap string Transaction) : DB :=
  mkDB (balances d) t (balance_history d) (audit_logs d).
Definition set_balance_history (d : DB) (h : list BalanceHistory) : DB :=
  mkDB (balances d) (transactions d) h (audit_logs d).
Definition set_audit_logs (d : DB) (a : list AuditLog) : DB :=
  mkDB (balances d) (transactions d) (balance_history d) a.

(** A statement run against the store: a result or an error, and the
    store after it. *)
Definition Tx (A : Type) : Type := DB → (error + A) * DB.

#[global] Instance Tx_ret : MRet Tx := λ A a d, (inr a, d).
#[global] Instance Tx_bind : MBind Tx := λ A B k m d,
  match m d with
  | (inl e, d') => (inl e, d')
  | (inr a, d') => k a d'
  end.

Definition throw {A : Type} (e : error) : Tx A := λ d, (inl e, d).

(** [if err := stmt; err != nil { return fmt.Errorf(ctx + ": %w", err) }] *)
Definition wrapping {A : Type} (ctx : string) (stmt : Tx A) : Tx A := λ d,
  match stmt d with
  | (inl e, d') => (inl (Errorw ctx e), d')
  | (inr a, d') => (inr a, d')
  end.

(** [tx.Create(transaction)]: the primary key must be new. *)
Definition Create_transaction (t : Transaction) : Tx unit := λ d,
  match transactions d !! tx_ID t with
  | Some _ => (inl ErrDuplicatedKey, d)
  | None => (inr (), set_transactions d (<[tx_ID t := t]> (transactions d)))
  end.

(** [tx.Where("user_id = ?", id).First(&balance)] *)
Definition First_balance (id : uuid) : Tx Z := λ d,
  match balances d !! id with
  | Some a => (inr a, d)
  | None => (inl ErrRecordNotFound, d)
  end.

(** [tx.Model(&Balance{}).Where("user_id = ?", id).Update("amount", v)];
    no row matched is not an error.  For [v] a whole number of minor units
    that the column can hold; the statement for every value is
    [Numeric.Update_amount]. *)
Definition Update_amount (id : uuid) (v : Z) : Tx unit := λ d,
  (inr (), set_balances d (alter (λ _, v) id (balances d))).

(** [... .Update("amount", gorm.Expr("amount + ?", delta))].  For [delta]
    a whole number of minor units and a sum that the column can hold; the
    statement for every amount is [Numeric.Update_amount_expr]. *)
Definition Update_amount_expr (id : uuid) (delta : Z) : Tx unit := λ d,
  (inr (), set_balances d (alter (λ a, a + delta) id (balances d))).

(** [tx.Model(&Transaction{}).Where("id = ?", id).Update("status", s)] *)
Definition Update_status (id : uuid) (s : string) : Tx unit := λ d,
  (inr (), set_transactions d (alter (λ t, set_Status t s) id (transactions d))).

(** [db.Transaction(func(tx) error {...})]: commit the body's store on a
    nil error, roll back to the store at [begin] otherwise. *)
Definition db_Transaction (body : Tx unit) (d : DB) : option error * DB :=
  match body d with
  | (inl e, _) => (Some e, d)
  | (inr _, d') => (None, d')
  end.

(** ** services.AuditService

    Every logger writes one row with [database.GetDB()], outside any
    transaction of the caller.  [uuid.New()] and [time.Now()] come in
    through [Fresh]. *)

Record Fresh : Type := mkFresh {
  new_uuid : uuid;      (* the uuid.New() of the operation itself *)
  audit_uuid : uuid;    (* the uuid.New() of the audit row *)
  now : Z               (* time.Now() *)
}.

Definition uuid_Nil : uuid := "00000000-0000-0000-0000-000000000000".

Definition LogUserActivity (f : Fresh) (userID : uuid)
    (action entityType entityID details : string) (d : DB) : DB :=
  set_audit_logs d
    (audit_logs d ++
     [mkAuditLog (audit_uuid f) (Some userID) action entityType entityID
                 details (now f)]).

Definition LogTransactionActivity (f : Fresh) (transaction : Transaction)
    (action details : string) (d : DB) : DB :=
  let userID :=
    match tx_FromUserID transaction, tx_ToUserID transaction with
    | Some u, _ => u
    | None, Some u => u
    | None, None => uuid_Nil
    end in
  set_audit_logs d
    (audit_logs d ++
     [mkAuditLog (audit_uuid f) (Some userID) action "transaction"
        (tx_ID transaction)
        ("Transaction " +:+ tx_ID transaction +:+ ": " +:+ details +:+
         " (Amount: " +:+ fmt_f (tx_Amount transaction) +:+
         ", Type: " +:+ tx_Type transaction +:+
         ", Status: " +:+ tx_Status transaction +:+ ")")
        (now f)]).

Definition LogSystemActivity (f : Fresh) (action details : string) (d : DB) : DB :=
  set_audit_logs d
    (audit_logs d ++
     [mkAuditLog (audit_uuid f) None action "system" "system" details (now f)]).

(** Rows in [created_at DESC] order: insertion into a descending list.
    SQL leaves the order of rows with equal [created_at] open; here the
    row written later comes first. *)
Fixpoint insert_desc (a : AuditLog) (l : list AuditLog) : list AuditLog :=
  match l with
  | [] => [a]
  | b :: l' =>
      if al_CreatedAt b <? al_CreatedAt a then a :: b :: l'
      else b :: insert_desc a l'
  end.

Definition order_created_at_desc (l : list AuditLog) : list AuditLog :=
  foldr insert_desc [] l.

(** [Where("entity_id = ?").Order("created_at DESC").Limit(limit).Offset(offset)] *)
Definition GetAuditLogsByEntityID (entityID : string) (limit offset : nat)
    (d : DB) : list AuditLog :=
  take limit (drop offset
    (order_created_at_desc
       (filter (λ a, al_EntityID a = entityID) (audit_logs d)))).

(** ** services.RedisCacheService *)

(** A Go [interface{}] value as the cache sees it. *)
Inductive any : Type :=
| AnyString (s : string)
| AnyFloat64 (a : Z).

Record CacheStats : Type := mkCacheStats {
  Hits : Z; Misses : Z; Sets : Z; Deletes : Z; Errors : Z
}.

(** The Redis keyspace holds strings.  [up = false] is an unreachable
    server: every command fails.  Expiry is not part of the state; an
    expired key is an absent key. *)
Record RedisCacheService : Type := mkRedis {
  up : bool;
  keys : gmap string string;
  stats : CacheStats
}.

Definition with_stats (r : RedisCacheService) (s : CacheStats) : RedisCacheService :=
  mkRedis (up r) (keys r) s.
Definition incrementHits (r : RedisCacheService) : RedisCacheService :=
  let s := stats r in
  with_stats r (mkCacheStats (wrap64 (Hits s + 1)) (Misses s) (Sets s) (Deletes s) (Errors s)).
Definition incrementMisses (r : RedisCacheService) : RedisCacheService :=
  let s := stats r in
  with_stats r (mkCacheStats (Hits s) (wrap64 (Misses s + 1)) (Sets s) (Deletes s) (Errors s)).
Definition incrementSets (r : RedisCacheService) : RedisCacheService :=
  let s := stats r in
  with_stats r (mkCacheStats (Hits s) (Misses s) (wrap64 (Sets s + 1)) (Deletes s) (Errors s)).
Definition incrementDeletes (r : RedisCacheService) : RedisCacheService :=
  let s := stats r in
  with_stats r (mkCacheStats (Hits s) (Misses s) (Sets s) (wrap64 (Deletes s + 1)) (Errors s)).
Definition incrementErrors (r : RedisCacheService) : RedisCacheService :=
  let s := stats r in
  with_stats r (mkCacheStats (Hits s) (Misses s) (Sets s) (Deletes s) (wrap64 (Errors s + 1))).

Definition ErrConnection : error := Errorf "dial tcp: connection refused".

(** [Get]: the value and the error; [(None, None)] is a miss.  A hit
    returns [r.client.Get(...).Result()], a Go [string]. *)
Definition cache_Get (key : string) (r : RedisCacheService)
    : (option any * option error) * RedisCacheService :=
  if up r then
    match keys r !! key with
    | None => ((None, None), incrementMisses r)
    | Some result => ((Some (AnyString result), None), incrementHits r)
    end
  else
    ((None, Some (Errorw ("failed to get key " +:+ key) ErrConnection)),
     incrementErrors r).

Definition cache_Set (key : string) (value : any) (r : RedisCacheService)
    : option error * RedisCacheService :=
  let stringValue :=
    match value with
    | AnyString v => v
    | AnyFloat64 a => json_number a
    end in
  if up r then
    (None, incrementSets (mkRedis (up r) (<[key := stringValue]> (keys r)) (stats r)))
  else
    (Some (Errorw ("failed to set key " +:+ key) ErrConnection), incrementErrors r).

Definition cache_Delete (key : string) (r : RedisCacheService)
    : option error * RedisCacheService :=
  if up r then
    (None, incrementDeletes (mkRedis (up r) (delete key (keys r)) (stats r)))
  else
    (Some (Errorw ("failed to delete key " +:+ key) ErrConnection), incrementErrors r).

(** ** repository.BalanceRepository

    The interface and the two implementations the repository carries. *)

Record BalanceRepository : Type := mkBalanceRepository {
  repo_GetBalance : uuid → Tx Z;
  repo_UpdateBalance : uuid → Z → Tx unit;
  repo_SaveBalanceHistory : uuid → Z → Z → Tx unit
}.

(** The implementation that reports a missing row. *)
Definition BalanceRepository_strict : BalanceRepository :=
  mkBalanceRepository
    First_balance
    Update_amount
    (λ _ _ _, mret ()).

(** The implementation that creates the zero row on first read and writes
    a history row; the store numbers the history rows it creates. *)
Definition BalanceRepository_lazy : BalanceRepository :=
  mkBalanceRepository
    (λ accountID d,
       match balances d !! accountID with
       | Some a => (inr a, d)
       | None => (inr 0, set_balances d (<[accountID := 0]> (balances d)))
       end)
    Update_amount
    (λ accountID amount timestamp d,
       (inr (),
        set_balance_history d
          (balance_history d ++
           [mkBalanceHistory (pretty (length (balance_history d))) accountID
              0 amount 0 "BALANCE_UPDATE" None timestamp]))).

(** ** The process state the services share *)

Record World : Type := mkWorld {
  db : DB;
  redis : RedisCacheService
}.

Definition with_db (w : World) (d : DB) : World := mkWorld d (redis w).
Definition with_redis (w : World) (r : RedisCacheService) : World := mkWorld (db w) r.

(** ** services.TransactionService *)

Module TransactionService.

(** The fields the primitives read: which collaborators are non-nil. *)
Record t : Type := mk {
  auditService : bool;
  cache : bool
}.

(** The tail every primitive shares after [db.Transaction] returns. *)
Definition finish (ts : t) (f : Fresh) (transaction : Transaction)
    (failed completed okDetails : string)
    (r : option error * DB) (w : World) : option error * World :=
  match r with
  | (Some err, d) =>
      let transaction := set_Status transaction TransactionStatusFailed in
      let d := if auditService ts
               then LogTransactionActivity f transaction failed (Error err) d
               else d in
      (Some err, with_db w d)
  | (None, d) =>
      let d := if auditService ts
               then LogTransactionActivity f transaction completed okDetails d
               else d in
      (None, with_db w d)
  end.

Definition Credit (ts : t) (f : Fresh) (accountID : uuid) (amount : Z)
    (w : World) : option error * World :=
  if amount <=? 0 then
    (Some (Errorf "credit amount must be positive"), w)
  else
    let transaction :=
      mkTransaction (new_uuid f) None (Some accountID) amount
        TransactionTypeDeposit TransactionStatusPending
        "Credit transaction" (now f) in
    let r :=
      db_Transaction
        (wrapping "failed to create transaction record"
           (Create_transaction transaction) ≫= λ _,
         balance ← wrapping "failed to get current balance"
                     (First_balance accountID);
         let newBalance := balance + amount in
         wrapping "failed to update balance"
           (Update_amount accountID newBalance) ≫= λ _,
         wrapping "failed to update transaction status"
           (Update_status (tx_ID transaction) TransactionStatusCompleted))
        (db w) in
    finish ts f transaction "CREDIT_FAILED" "CREDIT_COMPLETED"
      "Credit successful" r w.

Definition Debit (ts : t) (f : Fresh) (accountID : uuid) (amount : Z)
    (w : World) : option error * World :=
  if amount <=? 0 then
    (Some (Errorf "debit amount must be positive"), w)
  else
    let transaction :=
      mkTransaction (new_uuid f) (Some accountID) None amount
        TransactionTypeWithdraw TransactionStatusPending
        "Debit transaction" (now f) in
    let r :=
      db_Transaction
        (wrapping "failed to create transaction record"
           (Create_transaction transaction) ≫= λ _,
         balance ← wrapping "failed to get current balance"
                     (First_balance accountID);
         if balance <? amount then
           throw (Errorf ("insufficient balance: current=" +:+ fmt_f balance
                          +:+ ", required=" +:+ fmt_f amount))
         else
           let newBalance := balance - amount in
           wrapping "failed to update balance"
             (Update_amount accountID newBalance) ≫= λ _,
           wrapping "failed to update transaction status"
             (Update_status (tx_ID transaction) TransactionStatusCompleted))
        (db w) in
    finish ts f transaction "DEBIT_FAILED" "DEBIT_COMPLETED"
      "Debit successful" r w.

Definition Transfer (ts : t) (f : Fresh) (fromAccountID toAccountID : uuid)
    (amount : Z) (w : World) : option error * World :=
  if bool_decide (fromAccountID = toAccountID) then
    (Some (Errorf "cannot transfer to same account"), w)
  else if amount <=? 0 then
    (Some (Errorf "transfer amount must be positive"), w)
  else
    let transaction :=
      mkTransaction (new_uuid f) (Some fromAccountID) (Some toAccountID)
        amount TransactionTypeTransfer TransactionStatusPending
        "Transfer transaction" (now f) in
    let r :=
      db_Transaction
        (wrapping "failed to create transaction record"
           (Create_transaction transaction) ≫= λ _,
         fromBalance ← wrapping "failed to get from account balance"
                         (First_balance fromAccountID);
         if fromBalance <? amount then
           throw (Errorf ("insufficient balance in from account: current="
                          +:+ fmt_f fromBalance +:+ ", required="
                          +:+ fmt_f amount))
         else
           wrapping "failed to get to account balance"
             (First_balance toAccountID) ≫= λ _,
           wrapping "failed to subtract from sender balance"
             (Update_amount_expr fromAccountID (- amount)) ≫= λ _,
           wrapping "failed to add to receiver balance"
             (Update_amount_expr toAccountID amount) ≫= λ _,
           wrapping "failed to update transaction status"
             (Update_status (tx_ID transaction) TransactionStatusCompleted))
        (db w) in
    finish ts f transaction "TRANSFER_FAILED" "TRANSFER_COMPLETED"
      "Transfer successful" r w.

(** The key [GetTransactionHistory] caches a page under. *)
Definition history_cacheKey (userID : uuid) (limit offset : Z)
    (transactionType status : string) : string :=
  "transactions:" +:+ userID +:+ ":" +:+ pretty limit +:+ ":" +:+
  pretty offset +:+ ":" +:+ transactionType +:+ ":" +:+ status.

End TransactionService.

(** ** The store at the precision of its columns

    The [amount] columns of [balances] and [transactions] are
    [decimal(15,2)]: a value written to them is rounded to two fractional
    digits and refused when it needs more than thirteen integer digits.
    The services pass [float64] amounts, which the driver sends as the
    decimal that denotes them; here such an amount is a rational number of
    minor units.  On whole minor units and inside the range of the column
    these statements are the statements of the store above
    ([Update_amount_refines], [Update_amount_expr_refines],
    [Transfer_refines]). *)

Module Numeric.

(** The largest value of a [decimal(15,2)] column, 9,999,999,999,999.99,
    in minor units. *)
Definition numeric_max : Z := 10 ^ 15 - 1.

(** Rounding to the scale of the column: to the nearest minor unit, a
    half away from zero. *)
Definition round (q : Q) : Z :=
  let n := Qnum q in
  let d := Z.pos (Qden q) in
  Z.sgn n * ((2 * Z.abs n + d) / (2 * d)).

Definition ErrNumericOverflow : error := Errorf "numeric field overflow".

(** Assignment of a value to the column. *)
Definition assign (q : Q) : error + Z :=
  let v := round q in
  if Z.abs v <=? numeric_max then inr v else inl ErrNumericOverflow.

(** [%f] of an amount given in minor units: the major unit with six
    fractional digits, the amount rounded to them. *)
Definition digit (m k : Z) : string := pretty ((m / 10 ^ k) mod 10).

Definition fmt_f (q : Q) : string :=
  let n := round (q * inject_Z 10000)%Q in
  let m := Z.abs n in
  (if n <? 0 then "-" else "") +:+ pretty (m / 10 ^ 6) +:+ "." +:+
  digit m 5 +:+ digit m 4 +:+ digit m 3 +:+ digit m 2 +:+ digit m 1 +:+
  digit m 0.

Definition Qlt_bool (p q : Q) : bool := negb (Qle_bool q p).

(** [tx.Create(transaction)] for a transaction whose [Amount] is [amount]:
    the row holds the amount as the column takes it. *)
Definition Create_transaction (t : Transaction) (amount : Q) : Tx unit := λ d,
  match assign amount with
  | inl e => (inl e, d)
  | inr v =>
      Create_transaction
        (mkTransaction (tx_ID t) (tx_FromUserID t) (tx_ToUserID t) v (tx_Type t)
           (tx_Status t) (tx_Reference t) (tx_CreatedAt t)) d
  end.

(** [... .Update("amount", v)] *)
Definition Update_amount (id : uuid) (v : Q) : Tx unit := λ d,
  match balances d !! id with
  | None => (inr (), d)
  | Some _ =>
      match assign v with
      | inl e => (inl e, d)
      | inr v => (inr (), set_balances d (<[id := v]> (balances d)))
      end
  end.

(** [... .Update("amount", gorm.Expr("amount + ?", delta))]: the sum is
    exact, the assignment rounds it and checks the range. *)
Definition Update_amount_expr (id : uuid) (delta : Q) : Tx unit := λ d,
  match balances d !! id with
  | None => (inr (), d)
  | Some a =>
      match assign (inject_Z a + delta)%Q with
      | inl e => (inl e, d)
      | inr v => (inr (), set_balances d (<[id := v]> (balances d)))
      end
  end.

(** [AuditService.LogTransactionActivity] for a transaction whose [Amount]
    is [amount]. *)
Definition LogTransactionActivity (f : Fresh) (transaction : Transaction)
    (amount : Q) (action details : string) (d : DB) : DB :=
  let userID :=
    match tx_FromUserID transaction, tx_ToUserID transaction with
    | Some u, _ => u
    | None, Some u => u
    | None, None => uuid_Nil
    end in
  set_audit_logs d
    (audit_logs d ++
     [mkAuditLog (audit_uuid f) (Some userID) action "transaction"
        (tx_ID transaction)
        ("Transaction " +:+ tx_ID transaction +:+ ": " +:+ details +:+
         " (Amount: " +:+ fmt_f amount +:+
         ", Type: " +:+ tx_Type transaction +:+
         ", Status: " +:+ tx_Status transaction +:+ ")")
        (now f)]).

(** The tail of [Transfer] after [db.Transaction] returns. *)
Definition finish (ts : TransactionService.t) (f : Fresh)
    (transaction : Transaction) (amount : Q)
    (failed completed okDetails : string)
    (r : option error * DB) (w : World) : option error * World :=
  match r with
  | (Some err, d) =>
      let transaction := set_Status transaction TransactionStatusFailed in
      let d := if TransactionService.auditService ts
               then LogTransactionActivity f transaction amount failed
                      (Error err) d
               else d in
      (Some err, with_db w d)
  | (None, d) =>
      let d := if TransactionService.auditService ts
               then LogTransactionActivity f transaction amount completed
                      okDetails d
               else d in
      (None, with_db w d)
  end.

(** The function [Transfer] hands to [db.Transaction], for the record
    [transaction] with [Amount] [amount]. *)
Definition Transfer_body (transaction : Transaction)
    (fromAccountID toAccountID : uuid) (amount : Q) : Tx unit :=
  wrapping "failed to create transaction record"
    (Create_transaction transaction amount) ≫= λ _,
  fromBalance ← wrapping "failed to get from account balance"
                  (First_balance fromAccountID);
  if Qlt_bool (inject_Z fromBalance) amount then
    throw (Errorf ("insufficient balance in from account: current="
                   +:+ fmt_f (inject_Z fromBalance) +:+ ", required="
                   +:+ fmt_f amount))
  else
    wrapping "failed to get to account balance"
      (First_balance toAccountID) ≫= λ _,
    wrapping "failed to subtract from sender balance"
      (Update_amount_expr fromAccountID (- amount)%Q) ≫= λ _,
    wrapping "failed to add to receiver balance"
      (Update_amount_expr toAccountID amount) ≫= λ _,
    wrapping "failed to update transaction status"
      (Update_status (tx_ID transaction) TransactionStatusCompleted).

(** [TransactionService.Transfer].  The [Amount] of the record it builds
    is the argument [amount], carried next to the record. *)
Definition Transfer (ts : TransactionService.t) (f : Fresh)
    (fromAccountID toAccountID : uuid) (amount : Q) (w : World)
    : option error * World :=
  if bool_decide (fromAccountID = toAccountID) then
    (Some (Errorf "cannot transfer to same account"), w)
  else if Qle_bool amount 0 then
    (Some (Errorf "transfer amount must be positive"), w)
  else
    let transaction :=
      mkTransaction (new_uuid f) (Some fromAccountID) (Some toAccountID) 0
        TransactionTypeTransfer TransactionStatusPending
        "Transfer transaction" (now f) in
    let r :=
      db_Transaction
        (Transfer_body transaction fromAccountID toAccountID amount) (db w) in
    finish ts f transaction amount "TRANSFER_FAILED" "TRANSFER_COMPLETED"
      "Transfer successful" r w.

End Numeric.

(** ** services.BalanceService *)

Module BalanceService.

Record t : Type := mk {
  balanceRepo : BalanceRepository;
  auditService : bool;
  cache : bool
}.

Definition balance_key (accountID : uuid) : string := "balance:" +:+ accountID.

(** The part of [GetBalance] after the cache lookup. *)
Definition GetBalance_from_repo (bs : t) (accountID : uuid) (w : World)
    : (error + Z) * World :=
  match repo_GetBalance (balanceRepo bs) accountID (db w) with
  | (inl err, d) => (inl (Errorw "bakiye alınamadı" err), with_db w d)
  | (inr balance, d) =>
      let w := with_db w d in
      let w := if cache bs
               then with_redis w
                      (snd (cache_Set (balance_key accountID)
                              (AnyFloat64 balance) (redis w)))
               else w in
      (inr balance, w)
  end.

(** [GetBalance]: the cached value is used only when the lookup returned
    no error and the value asserts to [float64]. *)
Definition GetBalance (bs : t) (accountID : uuid) (w : World)
    : (error + Z) * World :=
  if cache bs then
    let '((cachedBalance, err), r) := cache_Get (balance_key accountID) (redis w) in
    let w := with_redis w r in
    match err, cachedBalance with
    | None, Some (AnyFloat64 balance) => (inr balance, w)
    | _, _ => GetBalance_from_repo bs accountID w
    end
  else GetBalance_from_repo bs accountID w.

(** [SafeUpdateBalance]: read, check, update, history, cache delete and
    audit row, as separate statements under the write lock of the account
    (there is no store transaction around them). *)
Definition SafeUpdateBalance (bs : t) (f : Fresh) (accountID : uuid)
    (amount : Z) (w : World) : option error * World :=
  match repo_GetBalance (balanceRepo bs) accountID (db w) with
  | (inl err, d) => (Some (Errorw "mevcut bakiye alınamadı" err), with_db w d)
  | (inr currentBalance, d) =>
      let newBalance := currentBalance + amount in
      if newBalance <? 0 then
        (Some (Errorf ("yetersiz bakiye: mevcut " +:+ fmt_f currentBalance
                       +:+ ", çıkarılacak " +:+ fmt_f (- amount))),
         with_db w d)
      else
        match repo_UpdateBalance (balanceRepo bs) accountID newBalance d with
        | (inl err, d) => (Some (Errorw "bakiye güncellenemedi" err), with_db w d)
        | (inr _, d) =>
            let d := snd (repo_SaveBalanceHistory (balanceRepo bs)
                            accountID newBalance (now f) d) in
            let r := if cache bs
                     then snd (cache_Delete (balance_key accountID) (redis w))
                     else redis w in
            let d :=
              if auditService bs then
                let action := if amount <? 0 then "BALANCE_DEBIT"
                              else "BALANCE_CREDIT" in
                LogUserActivity f accountID action "balance" accountID
                  ("Bakiye " +:+ fmt_f amount +:+ " değişti (mevcut: " +:+
                   fmt_f currentBalance +:+ ", yeni: " +:+ fmt_f newBalance
                   +:+ ")") d
              else d in
            (None, mkWorld d r)
        end
  end.

(** [GetBalanceHistory]: the balance rows of the audit log of the
    account; the amount fields keep their zero value. *)
Definition GetBalanceHistory (bs : t) (accountID : uuid) (w : World)
    : list BalanceHistory :=
  if auditService bs then
    let auditLogs := GetAuditLogsByEntityID accountID 100 0 (db w) in
    omap (λ log,
            if String.eqb (al_Action log) "BALANCE_UPDATE"
               || String.eqb (al_Action log) "BALANCE_CREDIT"
               || String.eqb (al_Action log) "BALANCE_DEBIT"
            then Some (mkBalanceHistory (al_ID log) accountID 0 0 0
                         (al_Action log) None (al_CreatedAt log))
            else None)
         auditLogs
  else [].

End BalanceService.

(** ** processing.TransactionCounters

    The struct is a block of [int64] cells reached through [sync/atomic];
    a cell is named by its field. *)

Module TransactionCounters.

Inductive field : Type :=
| totalTransactions | successfulTransactions | failedTransactions
| pendingTransactions
| transferCount | depositCount | withdrawCount
| totalAmountProcessed | largestTransaction | smallestTransaction
| averageProcessingTime | fastestTransaction | slowestTransaction
| validationErrors | insufficientBalanceErrors | systemErrors
| retryCount.

#[global] Instance field_eq_dec : EqDecision field.
Proof. solve_decision. Defined.

Definition t : Type := field → Z.

Definition LoadInt64 (addr : field) (tc : t) : Z := tc addr.

Definition StoreInt64 (addr : field) (val : Z) (tc : t) : t :=
  λ a, if bool_decide (a = addr) then val else tc a.

Definition AddInt64 (addr : field) (delta : Z) (tc : t) : t :=
  StoreInt64 addr (wrap64 (tc addr + delta)) tc.

Definition CompareAndSwapInt64 (addr : field) (old new : Z) (tc : t) : bool * t :=
  if tc addr =? old then (true, StoreInt64 addr new tc) else (false, tc).

Definition NewTransactionCounters : t :=
  λ a, match a with
       | smallestTransaction | fastestTransaction => max_int64
       | _ => 0
       end.

Definition IncrementTotalTransactions : t → t := AddInt64 totalTransactions 1.
Definition IncrementSuccessfulTransactions : t → t := AddInt64 successfulTransactions 1.
Definition IncrementFailedTransactions : t → t := AddInt64 failedTransactions 1.
Definition IncrementPendingTransactions : t → t := AddInt64 pendingTransactions 1.
Definition DecrementPendingTransactions : t → t := AddInt64 pendingTransactions (-1).
Definition IncrementRetryCount : t → t := AddInt64 retryCount 1.

Definition IncrementTransactionType (transactionType : string) (tc : t) : t :=
  if String.eqb transactionType TransactionTypeTransfer then AddInt64 transferCount 1 tc
  else if String.eqb transactionType TransactionTypeDeposit then AddInt64 depositCount 1 tc
  else if String.eqb transactionType TransactionTypeWithdraw then AddInt64 withdrawCount 1 tc
  else tc.

Definition IncrementErrorType (errorType : string) (tc : t) : t :=
  if String.eqb errorType "validation" then AddInt64 validationErrors 1 tc
  else if String.eqb errorType "insufficient_balance" then AddInt64 insufficientBalanceErrors 1 tc
  else if String.eqb errorType "system" then AddInt64 systemErrors 1 tc
  else tc.

(** A [for { ... }] loop: the body either breaks ([inr]) or goes round
    again ([inl]); [None] when the iterations granted run out. *)
Fixpoint loop (fuel : nat) (body : t → t + t) (tc : t) : option t :=
  match fuel with
  | O => None
  | S fuel' =>
      match body tc with
      | inr tc' => Some tc'
      | inl tc' => loop fuel' body tc'
      end
  end.

(** The loop that raises [addr] to [v] by compare-and-swap. *)
Definition raise_body (addr : field) (v : Z) (tc : t) : t + t :=
  let current := LoadInt64 addr tc in
  if v <=? current then inr tc
  else let '(swapped, tc') := CompareAndSwapInt64 addr current v tc in
       if swapped then inr tc' else inl tc'.

(** The loop that lowers [addr] to [v] by compare-and-swap. *)
Definition lower_body (addr : field) (v : Z) (tc : t) : t + t :=
  let current := LoadInt64 addr tc in
  if current <=? v then inr tc
  else let '(swapped, tc') := CompareAndSwapInt64 addr current v tc in
       if swapped then inr tc' else inl tc'.

(** [int64(amount * 100)] in [float64]: the product is rounded to the
    nearest double and then truncated, so it can fall one below the
    number of minor units of the amount. *)
Definition amountInCents (amount : Z) : Z :=
  int64_of_float64 (float64_mul (float64_of_minor amount) (float64_of_Z 100)).

#[global] Arguments amountInCents : simpl never.

Definition AddAmountProcessed (fuel : nat) (amount : Z) (tc : t) : option t :=
  let amountInCents := amountInCents amount in
  let tc := AddInt64 totalAmountProcessed amountInCents tc in
  tc ← loop fuel (raise_body largestTransaction amountInCents) tc;
  loop fuel (lower_body smallestTransaction amountInCents) tc.

(** The loop body that updates the rolling average.  [int64] products and
    sums wrap, [/] truncates toward zero; the divisor [total + 1] is zero
    only for a count of -1. *)
Definition average_body (durationNs : Z) (tc : t) : t + t :=
  let current := LoadInt64 averageProcessingTime tc in
  let total := LoadInt64 successfulTransactions tc in
  if total =? 0 then
    let newAverage := durationNs in
    let '(swapped, tc') := CompareAndSwapInt64 averageProcessingTime 0 newAverage tc in
    if swapped then inr tc' else inl tc'
  else
    let newAverage :=
      wrap64 (Z.quot (wrap64 (wrap64 (current * total) + durationNs))
                     (wrap64 (total + 1))) in
    let '(swapped, tc') := CompareAndSwapInt64 averageProcessingTime current newAverage tc in
    if swapped then inr tc' else inl tc'.

Definition RecordProcessingTime (fuel : nat) (duration : Z) (tc : t) : option t :=
  let durationNs := duration in
  tc ← loop fuel (average_body durationNs) tc;
  tc ← loop fuel (lower_body fastestTransaction durationNs) tc;
  loop fuel (raise_body slowestTransaction durationNs) tc.

Definition Reset (tc : t) : t :=
  let tc := StoreInt64 totalTransactions 0 tc in
  let tc := StoreInt64 successfulTransactions 0 tc in
  let tc := StoreInt64 failedTransactions 0 tc in
  let tc := StoreInt64 pendingTransactions 0 tc in
  let tc := StoreInt64 transferCount 0 tc in
  let tc := StoreInt64 depositCount 0 tc in
  let tc := StoreInt64 withdrawCount 0 tc in
  let tc := StoreInt64 totalAmountProcessed 0 tc in
  let tc := StoreInt64 largestTransaction 0 tc in
  let tc := StoreInt64 smallestTransaction max_int64 tc in
  let tc := StoreInt64 averageProcessingTime 0 tc in
  let tc := StoreInt64 fastestTransaction max_int64 tc in
  let tc := StoreInt64 slowestTransaction 0 tc in
  let tc := StoreInt64 validationErrors 0 tc in
  let tc := StoreInt64 insufficientBalanceErrors 0 tc in
  let tc := StoreInt64 systemErrors 0 tc in
  StoreInt64 retryCount 0 tc.

(** How a call ends: it returns, it panics (the counters as the panic
    leaves them), or it is still looping when the fuel is spent. *)
Inductive outcome : Type :=
| Returns (tc : t)
| Panics (msg : string) (tc : t)
| OutOfFuel.

Definition nil_dereference : string :=
  "runtime error: invalid memory address or nil pointer dereference".

(** [transaction] is a pointer: [None] is nil, and reading a field of
    it panics. *)
Definition RecordTransaction (fuel : nat) (transaction : option Transaction)
    (success : bool) (processingTime : Z) (err : option error) (tc : t) : outcome :=
  let tc := IncrementTotalTransactions tc in
  match transaction with
  | None => Panics nil_dereference tc
  | Some transaction =>
      let tc := IncrementTransactionType (tx_Type transaction) tc in
      match AddAmountProcessed fuel (tx_Amount transaction) tc
              ≫= RecordProcessingTime fuel processingTime with
      | None => OutOfFuel
      | Some tc =>
          if success then
            let tc := IncrementSuccessfulTransactions tc in
            Returns (DecrementPendingTransactions tc)
          else
            let tc := IncrementFailedTransactions tc in
            let tc := DecrementPendingTransactions tc in
            match err with
            | None => Returns tc
            | Some err =>
                let errorType :=
                  if String.eqb (Error err) "yetersiz bakiye" then "insufficient_balance"
                  else if String.eqb (Error err) "işlem doğrulama hatası" then "validation"
                  else "system" in
                Returns (IncrementErrorType errorType tc)
            end
      end
  end.

(** The public operations of the component. *)
Inductive op : Type :=
| OpIncrementTotalTransactions
| OpIncrementSuccessfulTransactions
| OpIncrementFailedTransactions
| OpIncrementPendingTransactions
| OpDecrementPendingTransactions
| OpIncrementTransactionType (transactionType : string)
| OpAddAmountProcessed (amount : Z)
| OpRecordProcessingTime (duration : Z)
| OpIncrementErrorType (errorType : string)
| OpIncrementRetryCount
| OpReset
| OpRecordTransaction (transaction : option Transaction) (success : bool)
    (processingTime : Z) (err : option error).

Definition of_option (o : option t) : outcome :=
  match o with Some tc => Returns tc | None => OutOfFuel end.

Definition apply_op (fuel : nat) (o : op) (tc : t) : outcome :=
  match o with
  | OpIncrementTotalTransactions => Returns (IncrementTotalTransactions tc)
  | OpIncrementSuccessfulTransactions => Returns (IncrementSuccessfulTransactions tc)
  | OpIncrementFailedTransactions => Returns (IncrementFailedTransactions tc)
  | OpIncrementPendingTransactions => Returns (IncrementPendingTransactions tc)
  | OpDecrementPendingTransactions => Returns (DecrementPendingTransactions tc)
  | OpIncrementTransactionType ty => Returns (IncrementTransactionType ty tc)
  | OpAddAmountProcessed a => of_option (AddAmountProcessed fuel a tc)
  | OpRecordProcessingTime d => of_option (RecordProcessingTime fuel d tc)
  | OpIncrementErrorType e => Returns (IncrementErrorType e tc)
  | OpIncrementRetryCount => Returns (IncrementRetryCount tc)
  | OpReset => Returns (Reset tc)
  | OpRecordTransaction tx success d err => RecordTransaction fuel tx success d err tc
  end.

(** The counters a call leaves behind, when it leaves: a panic keeps the
    cells written before it. *)
Definition after (r : outcome) : option t :=
  match r with
  | Returns tc => Some tc
  | Panics _ tc => Some tc
  | OutOfFuel => None
  end.

(** A sequence of calls; it ends at the first call that does not return. *)
Fixpoint run (fuel : nat) (ops : list op) (tc : t) : outcome :=
  match ops with
  | [] => Returns tc
  | o :: ops' =>
      match apply_op fuel o tc with
      | Returns tc' => run fuel ops' tc'
      | r => r
      end
  end.

(** The counters that count events. *)
Definition event_counters : list field :=
  [totalTransactions; successfulTransactions; failedTransactions;
   transferCount; depositCount; withdrawCount;
   validationErrors; insufficientBalanceErrors; systemErrors; retryCount].

(** The counters that keep a running maximum. *)
Definition running_maxima : list field :=
  [largestTransaction; slowestTransaction].

(** The counters that keep a running minimum. *)
Definition running_minima : list field :=
  [smallestTransaction; fastestTransaction].

End TransactionCounters.

(** ** processing.WorkerPool

    [jobQueue] and [results] are buffered channels of capacity
    [maxQueueSize], carried by their contents in arrival order; [done] is
    the cancelled pool context.  A send is ready when the buffer has room.
    When several cases of a [select] are ready Go picks one at random:
    [pick] is that choice ([true] takes the first case listed). *)

Module WorkerPool.

Record TransactionJob : Type := mkJob {
  job_ID : uuid;
  TransactionType : string;
  FromAccountID : uuid;
  ToAccountID : uuid;
  Amount : Z;
  RetryCount : Z;
  MaxRetries : Z;
  CreatedAt : Z
}.

Record TransactionResult : Type := mkResult {
  JobID : uuid;
  result_Transaction : option Transaction;
  Success : bool;
  result_Error : option error;
  ProcessedAt : Z;
  ProcessingTime : Z;
  result_RetryCount : Z
}.

Record t : Type := mk {
  jobQueue : list TransactionJob;
  results : list TransactionResult;
  maxQueueSize : nat;
  done : bool;
  counters : TransactionCounters.t
}.

Definition can_send (wp : t) : bool :=
  bool_decide (length (jobQueue wp) < maxQueueSize wp)%nat.

Definition enqueue (job : TransactionJob) (wp : t) : t :=
  mk (jobQueue wp ++ [job]) (results wp) (maxQueueSize wp) (done wp) (counters wp).

Definition with_counters (wp : t) (tc : TransactionCounters.t) : t :=
  mk (jobQueue wp) (results wp) (maxQueueSize wp) (done wp) tc.

Definition ErrPoolClosed : error := Errorf "worker pool kapatılmış".
Definition ErrQueueFull : error := Errorf "iş kuyruğu dolu".

(** [select { case wp.jobQueue <- job: ...; case <-wp.ctx.Done(): ...;
    default: ... }] *)
Definition SubmitJob (pick : bool) (job : TransactionJob) (wp : t)
    : option error * t :=
  let sent :=
    (None, with_counters (enqueue job wp)
             (TransactionCounters.IncrementPendingTransactions (counters wp))) in
  match can_send wp, done wp with
  | true, true => if pick then sent else (Some ErrPoolClosed, wp)
  | true, false => sent
  | false, true => (Some ErrPoolClosed, wp)
  | false, false => (Some ErrQueueFull, wp)
  end.

Definition second : Z := 1000000000.

(** [handleRetry] up to the timer: the job with its retry counted and
    the backoff the timer is set to. *)
Definition handleRetry (job : TransactionJob) : TransactionJob * Z :=
  let job :=
    mkJob (job_ID job) (TransactionType job) (FromAccountID job)
      (ToAccountID job) (Amount job) (wrap64 (RetryCount job + 1))
      (MaxRetries job) (CreatedAt job) in
  let backoffDuration :=
    wrap64 (wrap64 (RetryCount job * RetryCount job) * second) in
  let backoffDuration :=
    if 30 * second <? backoffDuration then 30 * second else backoffDuration in
  (job, backoffDuration).

(** What a [select] without [default] does. *)
Inductive retry_outcome : Type :=
| Requeued (wp : t)      (* the send went through *)
| Abandoned (wp : t)     (* the context was done: a warning, no send *)
| Blocked.               (* no case ready: the goroutine waits *)

(** The function the timer runs:
    [select { case w.pool.jobQueue <- job: ...; case <-w.pool.ctx.Done(): ... }] *)
Definition handleRetry_timer (pick : bool) (job : TransactionJob) (wp : t)
    : retry_outcome :=
  let sent :=
    Requeued (with_counters (enqueue job wp)
                (TransactionCounters.IncrementRetryCount (counters wp))) in
  match can_send wp, done wp with
  | true, true => if pick then sent else Abandoned wp
  | true, false => sent
  | false, true => Abandoned wp
  | false, false => Blocked
  end.

(** One round of [for result := range wp.results]: the call that records
    the result.  The transaction argument is the literal [nil]. *)
Definition processResults_record (fuel : nat) (result : TransactionResult)
    (wp : t) : TransactionCounters.outcome :=
  TransactionCounters.RecordTransaction fuel None (Success result)
    (ProcessingTime result) (result_Error result) (counters wp).

(** [processResults] over the results waiting in the channel: [inl] is
    the pool when the channel is drained, [inr] the round that did not
    return. *)
Fixpoint processResults_loop (fuel : nat) (rs : list TransactionResult)
    (wp : t) : t + TransactionCounters.outcome :=
  match rs with
  | [] => inl (mk (jobQueue wp) [] (maxQueueSize wp) (done wp) (counters wp))
  | result :: rs' =>
      match processResults_record fuel result wp with
      | TransactionCounters.Returns tc =>
          processResults_loop fuel rs' (with_counters wp tc)
      | r => inr r
      end
  end.

Definition processResults (fuel : nat) (wp : t) : t + TransactionCounters.outcome :=
  processResults_loop fuel (results wp) wp.

(** The result [processJob] builds for a job that ended with [err]. *)
Definition processJob_result (job : TransactionJob) (err : option error)
    (processedAt processingTime : Z) : TransactionResult :=
  mkResult (job_ID job) None (is_nil err) err processedAt processingTime
    (RetryCount job).

End WorkerPool.

(** ** api/v1 handlers: query parameters and the balance at a time *)

Module Handlers.

Definition digit_of (c : Ascii.ascii) : option Z :=
  let n := Z.of_nat (Ascii.nat_of_ascii c) in
  if (48 <=? n) && (n <=? 57) then Some (n - 48) else None.

Fixpoint digits (s : string) (acc : Z) : option Z :=
  match s with
  | EmptyString => Some acc
  | String c s' =>
      match digit_of c with
      | Some d => digits s' (10 * acc + d)
      | None => None
      end
  end.

(** [strconv.Atoi]: an optional sign and decimal digits, within the
    range of [int]; [None] is the error. *)
Definition Atoi (s : string) : option Z :=
  let in_range (n : Z) := if (- 2 ^ 63 <=? n) && (n <=? max_int64) then Some n else None in
  match s with
  | EmptyString => None
  | String c s' =>
      if Ascii.eqb c "+"%char then
        match s' with EmptyString => None | _ => digits s' 0 ≫= in_range end
      else if Ascii.eqb c "-"%char then
        match s' with
        | EmptyString => None
        | _ => digits s' 0 ≫= λ n, in_range (- n)
        end
      else digits s 0 ≫= in_range
  end.

(** [c.DefaultQuery(key, defaultValue)] over the query string [q]. *)
Definition DefaultQuery (q : gmap string string) (key defaultValue : string) : string :=
  default defaultValue (q !! key).

(** The [limit] of [GetTransactionHistory]. *)
Definition GetTransactionHistory_limit (q : gmap string string) : Z :=
  let limitStr := DefaultQuery q "limit" "50" in
  match Atoi limitStr with
  | None => 50
  | Some limit => if (limit <=? 0) || (100 <? limit) then 50 else limit
  end.

(** The [offset] of [GetTransactionHistory]. *)
Definition GetTransactionHistory_offset (q : gmap string string) : Z :=
  let offsetStr := DefaultQuery q "offset" "0" in
  match Atoi offsetStr with
  | None => 0
  | Some offset => if offset <? 0 then 0 else offset
  end.

(** The loop of [GetBalanceAtTime] over the history slice, in slice
    order: [(balanceAtTime, found)]. *)
Definition scan_history (history : list BalanceHistory) (timestamp : Z) : Z * bool :=
  fold_left
    (λ '(balanceAtTime, found) entry,
       if bh_CreatedAt entry <=? timestamp
       then (bh_NewAmount entry, true)
       else (balanceAtTime, found))
    history (0, false).

(** [GetBalanceAtTime] from the parsed timestamp on: the balance and the
    [calculated] flag of the response. *)
Definition GetBalanceAtTime (bs : BalanceService.t) (userID : uuid)
    (timestamp : Z) (w : World) : (error + (Z * bool)) * World :=
  let history := BalanceService.GetBalanceHistory bs userID w in
  let '(balanceAtTime, found) := scan_history history timestamp in
  if found then (inr (balanceAtTime, found), w)
  else
    match BalanceService.GetBalance bs userID w with
    | (inl err, w) => (inl (Errorf "Failed to get current balance"), w)
    | (inr currentBalance, w) => (inr (currentBalance, found), w)
    end.

End Handlers.

(** ** Sample states

    Three accounts, alice with 100.00, bob with 5.00 and carol with
    5,000,000.00, an empty ledger, and a reachable Redis that holds a
    balance and a history page of bob. *)

Definition sample_db : DB :=
  mkDB (<["alice" := 10000]> (<["bob" := 500]> (<["carol" := 500000000]> ∅)))
       ∅ [] [].

(** bob holds the largest amount the column takes. *)
Definition sample_db_full : DB :=
  mkDB (<["alice" := 10000]> (<["bob" := Numeric.numeric_max]> ∅)) ∅ [] [].

(** 1,000,000.01: one minor unit above the limit of [Validate]. *)
Definition over_limit : Z := 100000001.

Definition sample_redis : RedisCacheService :=
  mkRedis true
    (<[BalanceService.balance_key "bob" := json_number 500]>
       (<[TransactionService.history_cacheKey "bob" 50 0 "" "" := "[]"]> ∅))
    (mkCacheStats 0 0 0 0 0).

Definition sample_world : World := mkWorld sample_db sample_redis.

Definition sample_ts : TransactionService.t := TransactionService.mk true true.

Definition sample_bs : BalanceService.t :=
  BalanceService.mk BalanceRepository_lazy true true.

Definition sample_fresh : Fresh := mkFresh "tx-1" "au-1" 1000.
Definition sample_fresh2 : Fresh := mkFresh "tx-2" "au-2" 2000.

(** bob after two calls of [SafeUpdateBalance]: +100.00 at time 1000 and
    +50.00 at time 2000. *)
Definition sample_history_world : World :=
  (BalanceService.SafeUpdateBalance sample_bs sample_fresh2 "bob" 5000
     (BalanceService.SafeUpdateBalance sample_bs sample_fresh "bob" 10000
        sample_world).2).2.

Definition sample_job : WorkerPool.TransactionJob :=
  WorkerPool.mkJob "job-1" "credit" uuid_Nil "bob" 1000 0 3 1000.

(** A running pool whose queue of capacity one is full. *)
Definition sample_pool_full : WorkerPool.t :=
  WorkerPool.mk [sample_job] [] 1 false
    TransactionCounters.NewTransactionCounters.

Definition sample_deposit : Transaction :=
  mkTransaction "tx-1" None (Some "bob") 1000 TransactionTypeDeposit
    TransactionStatusCompleted "Credit transaction" 1000.

(** A successful deposit, a retry, a failed deposit, a bare decrement. *)
Definition sample_ops : list TransactionCounters.op :=
  [TransactionCounters.OpRecordTransaction (Some sample_deposit) true 5 None;
   TransactionCounters.OpIncrementRetryCount;
   TransactionCounters.OpRecordTransaction (Some sample_deposit) false 7
     (Some (Errorf "yetersiz bakiye"));
   TransactionCounters.OpDecrementPendingTransactions].

Definition sample_counters : TransactionCounters.t :=
  default TransactionCounters.NewTransactionCounters
    (TransactionCounters.after
       (TransactionCounters.run 1 sample_ops
          TransactionCounters.NewTransactionCounters)).

(** ** internal/models: status transitions *)

(** [Transaction.TransitionTo]: the error, or the transaction with its new
    status. *)
Definition TransitionTo (t : Transaction) (targetStatus : string)
    : error + Transaction :=
  if CanTransitionTo t targetStatus then inr (set_Status t targetStatus)
  else inl (Errorf ("işlem durumu " +:+ tx_Status t +:+ "'den " +:+
                    targetStatus +:+ "'e geçiş yapılamaz")).

Definition MarkAsCompleted (t : Transaction) : error + Transaction :=
  TransitionTo t TransactionStatusCompleted.
Definition MarkAsFailed (t : Transaction) : error + Transaction :=
  TransitionTo t TransactionStatusFailed.
Definition MarkAsCancelled (t : Transaction) : error + Transaction :=
  TransitionTo t TransactionStatusCancelled.

Definition IsFinalized (t : Transaction) : bool :=
  String.eqb (tx_Status t) TransactionStatusCompleted
  || String.eqb (tx_Status t) TransactionStatusFailed
  || String.eqb (tx_Status t) TransactionStatusCancelled.

(** A series of [TransitionTo] calls on one transaction, a refused call
    leaving it as it is: the transaction at the end and the number of
    calls that went through. *)
Fixpoint TransitionTo_each (t : Transaction) (targets : list string)
    : Transaction * nat :=
  match targets with
  | [] => (t, 0%nat)
  | targetStatus :: rest =>
      match TransitionTo t targetStatus with
      | inr t' => let '(t'', n) := TransitionTo_each t' rest in (t'', S n)
      | inl _ => TransitionTo_each t rest
      end
  end.

(** ** internal/models: the in-memory Balance

    The struct keeps its amount in a [float64] and computes on it in
    memory; nothing here goes through the store. *)

Record Balance : Type := mkBalance {
  bal_UserID : uuid;
  bal_Amount : float64;
  bal_LastUpdatedAt : Z
}.

(** [Balance.AddAmount] at time [t]. *)
Definition AddAmount (t : Z) (amount : float64) (b : Balance) : error + Balance :=
  if float64_leb amount (float64_of_Z 0) then
    inl (Errorf "eklenen tutar sıfırdan büyük olmalıdır")
  else if float64_ltb (float64_add (bal_Amount b) amount) (bal_Amount b) then
    inl (Errorf "bakiye taşması hatası")
  else inr (mkBalance (bal_UserID b) (float64_add (bal_Amount b) amount) t).

(** [Balance.SubtractAmount] at time [t]. *)
Definition SubtractAmount (t : Z) (amount : float64) (b : Balance)
    : error + Balance :=
  if float64_leb amount (float64_of_Z 0) then
    inl (Errorf "çıkarılan tutar sıfırdan büyük olmalıdır")
  else if float64_ltb (bal_Amount b) amount then inl (Errorf "yetersiz bakiye")
  else inr (mkBalance (bal_UserID b) (float64_sub (bal_Amount b) amount) t).

(** The order in which [TransferTo] takes the two mutexes: the owner of
    the first lock and the owner of the second. *)
Definition lock_order (b targetBalance : Balance) : uuid * uuid :=
  if String.ltb (bal_UserID b) (bal_UserID targetBalance)
  then (bal_UserID b, bal_UserID targetBalance)
  else (bal_UserID targetBalance, bal_UserID b).

(** [Balance.TransferTo]; [t1] and [t2] are the two readings of the clock.
    The result is the source and the target after the transfer. *)
Definition TransferTo (t1 t2 : Z) (amount : float64) (b targetBalance : Balance)
    : error + (Balance * Balance) :=
  if float64_leb amount (float64_of_Z 0) then
    inl (Errorf "transfer tutarı sıfırdan büyük olmalıdır")
  else if bool_decide (bal_UserID b = bal_UserID targetBalance) then
    inl (Errorf "aynı hesaba transfer yapılamaz")
  else if float64_ltb (bal_Amount b) amount then inl (Errorf "yetersiz bakiye")
  else if float64_ltb (float64_add (bal_Amount targetBalance) amount)
            (bal_Amount targetBalance) then
    inl (Errorf "hedef bakiye taşması hatası")
  else
    inr (mkBalance (bal_UserID b) (float64_sub (bal_Amount b) amount) t1,
         mkBalance (bal_UserID targetBalance)
                   (float64_add (bal_Amount targetBalance) amount) t2).

(** ** repository.BalanceRepository: the transfer helpers *)

(** A single statement outside a transaction: it commits on its own. *)
Definition autocommit (stmt : Tx unit) (d : DB) : option error * DB :=
  match stmt d with
  | (inl e, _) => (Some e, d)
  | (inr _, d') => (None, d')
  end.

Definition TransferBetweenUsers (fromUserID toUserID : uuid) (amount : Z)
    (d : DB) : option error * DB :=
  db_Transaction
    (fromBalance ← wrapping "sender balance not found"
                     (First_balance fromUserID);
     if fromBalance <? amount then throw (Errorf "insufficient balance")
     else
       wrapping "failed to subtract from sender"
         (Update_amount_expr fromUserID (- amount)) ≫= λ _,
       wrapping "failed to add to receiver"
         (Update_amount_expr toUserID amount))
    d.

Definition AddToBalance (userID : uuid) (amount : Z) (d : DB)
    : option error * DB :=
  autocommit (Update_amount_expr userID amount) d.

Definition SubtractFromBalance (userID : uuid) (amount : Z) (d : DB)
    : option error * DB :=
  db_Transaction
    (balance ← wrapping "balance not found" (First_balance userID);
     if balance <? amount then throw (Errorf "insufficient balance")
     else Update_amount_expr userID (- amount))
    d.

(** [SELECT COALESCE(SUM(amount), 0)] over the balances. *)
Definition GetTotalBalance (d : DB) : Z :=
  map_fold (λ _ amount total, amount + total) 0 (balances d).

(** ** services: the remaining balance operations *)

(** [TransactionService.CanPerformTransaction] over its balance
    repository. *)
Definition CanPerformTransaction (balanceRepo : BalanceRepository)
    (accountID : uuid) (amount : Z) (d : DB) : (error + bool) * DB :=
  match repo_GetBalance balanceRepo accountID d with
  | (inl err, d') => (inl err, d')
  | (inr balance, d') => (inr (amount <=? balance), d')
  end.

(** [BalanceService.UpdateBalance] *)
Definition UpdateBalance (bs : BalanceService.t) (f : Fresh) (accountID : uuid)
    (amount : Z) (w : World) : option error * World :=
  if amount <? 0 then (Some (Errorf "bakiye negatif olamaz"), w)
  else
    match repo_UpdateBalance (BalanceService.balanceRepo bs) accountID amount (db w) with
    | (inl err, d) => (Some (Errorw "bakiye güncellenemedi" err), with_db w d)
    | (inr _, d) =>
        let r := if BalanceService.cache bs
                 then snd (cache_Delete (BalanceService.balance_key accountID) (redis w))
                 else redis w in
        let d :=
          if BalanceService.auditService bs then
            LogUserActivity f accountID "BALANCE_UPDATE" "balance" accountID
              ("Bakiye " +:+ fmt_f amount +:+ " olarak güncellendi") d
          else d in
        (None, mkWorld d r)
    end.

(** ** services.RedisCacheService: the cached pages of a user

    The page is carried by its JSON text, what [json.Marshal] produced and
    what [json.Unmarshal] is given. *)

Definition SetUserTransactions (userID : string) (json : string)
    (r : RedisCacheService) : option error * RedisCacheService :=
  let key := "user_transactions:" +:+ userID in
  cache_Set key (AnyString json) r.

(** [GetUserTransactions] up to the unmarshalling: the text found, [None]
    on a miss, and the error. *)
Definition GetUserTransactions (userID : string) (limit offset : Z)
    (r : RedisCacheService)
    : (option string * option error) * RedisCacheService :=
  let key := "user_transactions:" +:+ userID +:+ ":" +:+ pretty limit +:+
             ":" +:+ pretty offset in
  match cache_Get key r with
  | ((_, Some err), r') => ((None, Some err), r')
  | ((None, None), r') => ((None, None), r')
  | ((Some (AnyString result), None), r') => ((Some result, None), r')
  | ((Some (AnyFloat64 _), None), r') => ((None, None), r')
  end.

(** ** processing.WorkerPool: batches and the worker *)

(** [SubmitBatch]: the jobs in turn, stopping at the first refusal;
    [pick i] resolves the [select] of the job at position [i]. *)
Fixpoint SubmitBatch (pick : nat → bool) (jobs : list WorkerPool.TransactionJob)
    (wp : WorkerPool.t) : option error * WorkerPool.t :=
  match jobs with
  | [] => (None, wp)
  | job :: rest =>
      match WorkerPool.SubmitJob (pick 0%nat) job wp with
      | (Some err, wp') => (Some (Errorw "iş gönderilirken hata" err), wp')
      | (None, wp') => SubmitBatch (λ i, pick (S i)) rest wp'
      end
  end.

(** [processCredit]: [f] serves the service call, [fa] the audit row of
    the worker.  The job carries the services of the handler that built
    it. *)
Definition processCredit (ts : TransactionService.t) (f fa : Fresh)
    (job : WorkerPool.TransactionJob) (w : World) : option error * World :=
  let '(err, w) :=
    TransactionService.Credit ts f (WorkerPool.ToAccountID job)
      (WorkerPool.Amount job) w in
  match err with
  | Some err =>
      (Some (Errorw "credit işlemi başarısız" err),
       with_db w
         (LogSystemActivity fa "CREDIT_FAILED"
            ("Credit failed for account " +:+ WorkerPool.ToAccountID job +:+
             ": " +:+ Error err) (db w)))
  | None =>
      (None,
       with_db w
         (LogSystemActivity fa "CREDIT_SUCCESS"
            ("Credit successful for account " +:+ WorkerPool.ToAccountID job
             +:+ ": " +:+ fmt_f (WorkerPool.Amount job)) (db w)))
  end.

Definition processDebit (ts : TransactionService.t) (f fa : Fresh)
    (job : WorkerPool.TransactionJob) (w : World) : option error * World :=
  let '(err, w) :=
    TransactionService.Debit ts f (WorkerPool.FromAccountID job)
      (WorkerPool.Amount job) w in
  match err with
  | Some err =>
      (Some (Errorw "debit işlemi başarısız" err),
       with_db w
         (LogSystemActivity fa "DEBIT_FAILED"
            ("Debit failed for account " +:+ WorkerPool.FromAccountID job +:+
             ": " +:+ Error err) (db w)))
  | None =>
      (None,
       with_db w
         (LogSystemActivity fa "DEBIT_SUCCESS"
            ("Debit successful for account " +:+ WorkerPool.FromAccountID job
             +:+ ": " +:+ fmt_f (WorkerPool.Amount job)) (db w)))
  end.

Definition processTransfer (ts : TransactionService.t) (f fa : Fresh)
    (job : WorkerPool.TransactionJob) (w : World) : option error * World :=
  let '(err, w) :=
    TransactionService.Transfer ts f (WorkerPool.FromAccountID job)
      (WorkerPool.ToAccountID job) (WorkerPool.Amount job) w in
  match err with
  | Some err =>
      (Some (Errorw "transfer işlemi başarısız" err),
       with_db w
         (LogSystemActivity fa "TRANSFER_FAILED"
            ("Transfer failed from " +:+ WorkerPool.FromAccountID job +:+
             " to " +:+ WorkerPool.ToAccountID job +:+ ": " +:+ Error err)
            (db w)))
  | None =>
      (None,
       with_db w
         (LogSystemActivity fa "TRANSFER_SUCCESS"
            ("Transfer successful from " +:+ WorkerPool.FromAccountID job +:+
             " to " +:+ WorkerPool.ToAccountID job +:+ ": " +:+
             fmt_f (WorkerPool.Amount job)) (db w)))
  end.

(** The [switch job.TransactionType] of [processJob]. *)
Definition processJob_dispatch (ts : TransactionService.t) (f fa : Fresh)
    (job : WorkerPool.TransactionJob) (w : World) : option error * World :=
  if String.eqb (WorkerPool.TransactionType job) "credit" then
    processCredit ts f fa job w
  else if String.eqb (WorkerPool.TransactionType job) "debit" then
    processDebit ts f fa job w
  else if String.eqb (WorkerPool.TransactionType job) "transfer" then
    processTransfer ts f fa job w
  else
    (Some (Errorf ("desteklenmeyen işlem türü: " +:+
                   WorkerPool.TransactionType job)), w).

(** The non-blocking send of a result: dropped when the channel is full. *)
Definition publish (result : WorkerPool.TransactionResult) (wp : WorkerPool.t)
    : WorkerPool.t :=
  if bool_decide (length (WorkerPool.results wp) < WorkerPool.maxQueueSize wp)%nat
  then WorkerPool.mk (WorkerPool.jobQueue wp) (WorkerPool.results wp ++ [result])
         (WorkerPool.maxQueueSize wp) (WorkerPool.done wp) (WorkerPool.counters wp)
  else wp.

(** [processJob]: the state after the attempt, the pool after the result
    is published, and the retry handed to the timer, if any. *)
Definition processJob (ts : TransactionService.t) (f fa : Fresh)
    (processedAt processingTime : Z) (job : WorkerPool.TransactionJob)
    (w : World) (wp : WorkerPool.t)
    : World * WorkerPool.t * option (WorkerPool.TransactionJob * Z) :=
  let '(err, w) := processJob_dispatch ts f fa job w in
  let result := WorkerPool.processJob_result job err processedAt processingTime in
  let wp := publish result wp in
  let retry :=
    if negb (is_nil err)
       && (WorkerPool.RetryCount job <? WorkerPool.MaxRetries job)
    then Some (WorkerPool.handleRetry job)
    else None in
  (w, wp, retry).

(** ** api/v1 handlers: submission, pages, access *)

(** What the handler finds under [user_id]: nothing, a text that is not an
    identifier, or the identifier of the caller. *)
Inductive principal : Type :=
| Anonymous
| Malformed
| Principal (userID : uuid).

Definition StatusOK : Z := 200.
Definition StatusAccepted : Z := 202.
Definition StatusBadRequest : Z := 400.
Definition StatusUnauthorized : Z := 401.
Definition StatusForbidden : Z := 403.
Definition StatusNotFound : Z := 404.
Definition StatusInternalServerError : Z := 500.

(** [CreditTransaction]; [req] is the bound body, [None] when
    [ShouldBindJSON] fails.  The status of the response and the pool. *)
Definition CreditTransaction (p : principal) (req : option Z) (jobID : uuid)
    (createdAt : Z) (pick : bool) (wp : WorkerPool.t) : Z * WorkerPool.t :=
  match p, req with
  | Anonymous, _ => (StatusUnauthorized, wp)
  | _, None => (StatusBadRequest, wp)
  | p, Some amount =>
      if amount <=? 0 then (StatusBadRequest, wp)
      else
        match p with
        | Principal userID =>
            let job := WorkerPool.mkJob jobID "credit" uuid_Nil userID amount
                         0 3 createdAt in
            match WorkerPool.SubmitJob pick job wp with
            | (Some _, wp) => (StatusInternalServerError, wp)
            | (None, wp) => (StatusAccepted, wp)
            end
        | _ => (StatusBadRequest, wp)
        end
  end.

(** [DebitTransaction]: the advisory balance check reads the repository of
    the transaction service. *)
Definition DebitTransaction (balanceRepo : BalanceRepository) (p : principal)
    (req : option Z) (jobID : uuid) (createdAt : Z) (pick : bool)
    (d : DB) (wp : WorkerPool.t) : Z * DB * WorkerPool.t :=
  match p, req with
  | Anonymous, _ => (StatusUnauthorized, d, wp)
  | _, None => (StatusBadRequest, d, wp)
  | p, Some amount =>
      if amount <=? 0 then (StatusBadRequest, d, wp)
      else
        match p with
        | Principal userID =>
            match CanPerformTransaction balanceRepo userID amount d with
            | (inl _, d) => (StatusInternalServerError, d, wp)
            | (inr false, d) => (StatusBadRequest, d, wp)
            | (inr true, d) =>
                let job := WorkerPool.mkJob jobID "debit" userID uuid_Nil amount
                             0 3 createdAt in
                match WorkerPool.SubmitJob pick job wp with
                | (Some _, wp) => (StatusInternalServerError, d, wp)
                | (None, wp) => (StatusAccepted, d, wp)
                end
            end
        | _ => (StatusBadRequest, d, wp)
        end
  end.

(** [TransferTransaction]: the bound body is the receiver and the amount. *)
Definition TransferTransaction (balanceRepo : BalanceRepository) (p : principal)
    (req : option (uuid * Z)) (jobID : uuid) (createdAt : Z) (pick : bool)
    (d : DB) (wp : WorkerPool.t) : Z * DB * WorkerPool.t :=
  match p, req with
  | Anonymous, _ => (StatusUnauthorized, d, wp)
  | _, None => (StatusBadRequest, d, wp)
  | p, Some (toUserID, amount) =>
      if amount <=? 0 then (StatusBadRequest, d, wp)
      else
        match p with
        | Principal fromUserID =>
            if bool_decide (fromUserID = toUserID) then (StatusBadRequest, d, wp)
            else
              match CanPerformTransaction balanceRepo fromUserID amount d with
              | (inl _, d) => (StatusInternalServerError, d, wp)
              | (inr false, d) => (StatusBadRequest, d, wp)
              | (inr true, d) =>
                  let job := WorkerPool.mkJob jobID "transfer" fromUserID toUserID
                               amount 0 3 createdAt in
                  match WorkerPool.SubmitJob pick job wp with
                  | (Some _, wp) => (StatusInternalServerError, d, wp)
                  | (None, wp) => (StatusAccepted, d, wp)
                  end
              end
        | _ => (StatusBadRequest, d, wp)
        end
  end.

(** The access test of [GetTransaction]. *)
Definition GetTransaction_denied (transaction : Transaction) (userID : uuid) : bool :=
  match tx_FromUserID transaction with
  | Some fromUserID => negb (String.eqb fromUserID userID)
  | None => false
  end
  &&
  match tx_ToUserID transaction with
  | Some toUserID => negb (String.eqb toUserID userID)
  | None => false
  end.

(** [GetTransaction]: [transactionID] is the parsed path parameter, [None]
    when it does not parse; [GetTransactionByID] is the call into the
    service.  The status and the transaction shown. *)
Definition GetTransaction (GetTransactionByID : uuid → error + Transaction)
    (p : principal) (transactionID : option uuid) : Z * option Transaction :=
  match p, transactionID with
  | Anonymous, _ => (StatusUnauthorized, None)
  | _, None => (StatusBadRequest, None)
  | Malformed, _ => (StatusBadRequest, None)
  | Principal userID, Some transactionID =>
      match GetTransactionByID transactionID with
      | inl _ => (StatusNotFound, None)
      | inr transaction =>
          if GetTransaction_denied transaction userID
          then (StatusForbidden, None)
          else (StatusOK, Some transaction)
      end
  end.

(** A Go slice expression [l[lo:hi]]: [None] is the panic on bounds out of
    range. *)
Definition slice {A : Type} (l : list A) (lo hi : Z) : option (list A) :=
  if (0 <=? lo) && (lo <=? hi) && (hi <=? Z.of_nat (length l))
  then Some (take (Z.to_nat (hi - lo)) (drop (Z.to_nat lo) l))
  else None.

(** The date filter of [GetHistoricalBalance]; a date that did not parse
    is [None]. *)
Definition GetHistoricalBalance_filter (startDate endDate : option Z)
    (history : list BalanceHistory) : list BalanceHistory :=
  filter
    (λ entry,
       match startDate with
       | Some s => negb (bh_CreatedAt entry <? s)
       | None => true
       end
       && match endDate with
          | Some e => negb (e <? bh_CreatedAt entry)
          | None => true
          end)
    history.

(** The pagination of [GetHistoricalBalance]. *)
Definition GetHistoricalBalance_page {A : Type} (filteredHistory : list A)
    (limit offset : Z) : option (list A) :=
  let start := offset in
  let end_ := wrap64 (start + limit) in
  let len := Z.of_nat (length filteredHistory) in
  if len <=? start then Some []
  else if len <? end_ then slice filteredHistory start len
  else slice filteredHistory start end_.

(** [GetHistoricalBalance] from the query and the history read: the page,
    with the limit and the offset as parsed. *)
Definition GetHistoricalBalance (q : gmap string string)
    (startDate endDate : option Z) (history : list BalanceHistory)
    : option (list BalanceHistory) :=
  let limitStr := Handlers.DefaultQuery q "limit" "50" in
  let offsetStr := Handlers.DefaultQuery q "offset" "0" in
  let limit :=
    match Handlers.Atoi limitStr with
    | None => 50
    | Some limit => if (limit <=? 0) || (100 <? limit) then 50 else limit
    end in
  let offset :=
    match Handlers.Atoi offsetStr with
    | None => 0
    | Some offset => if offset <? 0 then 0 else offset
    end in
  GetHistoricalBalance_page
    (GetHistoricalBalance_filter startDate endDate history) limit offset.

(** [TransactionService.GetTransactionByID] of a service without cache:
    the row with that id, or the wrapped error of [First]. *)
Definition GetTransactionByID (d : DB) (transactionID : uuid)
    : error + Transaction :=
  match transactions d !! transactionID with
  | Some transaction => inr transaction
  | None => inl (Errorw "failed to get transaction" ErrRecordNotFound)
  end.

(** * Properties *)

(** ** The store under a transaction *)

Lemma db_Transaction_rollback (body : Tx unit) (d d' : DB) (e : error) :
  db_Transaction body d = (Some e, d') → d' = d.
Proof.
  unfold db_Transaction. destruct (body d) as [[e'|[]] d'']; congruence.
Qed.

Lemma LogTransactionActivity_tables f t a s d :
  balances (LogTransactionActivity f t a s d) = balances d
  ∧ transactions (LogTransactionActivity f t a s d) = transactions d
  ∧ balance_history (LogTransactionActivity f t a s d) = balance_history d.
Proof. done. Qed.

(** The audit tail of a primitive leaves the ledger tables as the
    transaction left them. *)
Lemma finish_tables ts f t failed completed ok r w :
  let r' := TransactionService.finish ts f t failed completed ok r w in
  r'.1 = r.1
  ∧ balances (db r'.2) = balances r.2
  ∧ transactions (db r'.2) = transactions r.2
  ∧ balance_history (db r'.2) = balance_history r.2
  ∧ redis r'.2 = redis w.
Proof.
  destruct r as [[e|] d]; simpl; destruct (TransactionService.auditService ts); done.
Qed.

Ltac tx_unfold :=
  unfold db_Transaction, mbind, Tx_bind, wrapping, throw,
    Create_transaction, First_balance, Update_amount, Update_amount_expr,
    Update_status; simpl.

(** What [Transfer] leaves in the ledger tables, case by case. *)
Lemma Transfer_cases ts f A B x w :
  A ≠ B → 0 < x →
  let r := TransactionService.Transfer ts f A B x w in
  (is_Some r.1
   ∧ balances (db r.2) = balances (db w)
   ∧ transactions (db r.2) = transactions (db w)
   ∧ balance_history (db r.2) = balance_history (db w))
  ∨ (∃ a b,
       r.1 = None
       ∧ transactions (db w) !! new_uuid f = None
       ∧ balances (db w) !! A = Some a
       ∧ balances (db w) !! B = Some b
       ∧ x ≤ a
       ∧ balances (db r.2)
         = alter (λ v, v + x) B (alter (λ v, v + - x) A (balances (db w)))
       ∧ transactions (db r.2)
         = alter (λ t, set_Status t TransactionStatusCompleted) (new_uuid f)
             (<[new_uuid f :=
                  mkTransaction (new_uuid f) (Some A) (Some B) x
                    TransactionTypeTransfer TransactionStatusPending
                    "Transfer transaction" (now f)]> (transactions (db w)))
       ∧ balance_history (db r.2) = balance_history (db w)).
Proof.
  intros HAB Hx r. subst r. unfold TransactionService.Transfer.
  rewrite bool_decide_eq_false_2 by done.
  destruct (x <=? 0) eqn:Hx0; [lia|].
  match goal with
  | |- context [TransactionService.finish ?ts ?f ?t ?a ?b ?c ?r ?w] =>
      destruct (finish_tables ts f t a b c r w) as (E1 & E2 & E3 & E4 & _);
      rewrite E1, E2, E3, E4; clear E1 E2 E3 E4
  end.
  tx_unfold.
  destruct (transactions (db w) !! new_uuid f) eqn:Hid; simpl.
  { left. eauto. }
  destruct (balances (db w) !! A) as [a|] eqn:HA; simpl.
  2:{ left. eauto. }
  destruct (a <? x) eqn:Hax; simpl.
  { left. eauto. }
  destruct (balances (db w) !! B) as [b|] eqn:HB; simpl.
  2:{ left. eauto. }
  right. exists a, b. repeat split; try done. lia.
Qed.

(** [Transfer] goes through whenever its preconditions hold: the two
    accounts differ, the amount is positive, the ledger id is new, both
    balance rows exist and the sender covers the amount. *)
Lemma Transfer_succeeds ts f A B x w a b :
  A ≠ B → 0 < x →
  transactions (db w) !! new_uuid f = None →
  balances (db w) !! A = Some a →
  balances (db w) !! B = Some b →
  x ≤ a →
  (TransactionService.Transfer ts f A B x w).1 = None.
Proof.
  intros HAB Hx Hid HA HB Hle.
  destruct (Transfer_cases ts f A B x w HAB Hx) as [(Hs & _)|(a' & b' & H & _)];
    [|done].
  exfalso. revert Hs. unfold TransactionService.Transfer.
  rewrite bool_decide_eq_false_2 by done.
  destruct (x <=? 0) eqn:Hx0; [lia|].
  match goal with
  | |- context [TransactionService.finish ?ts ?f ?t ?a ?b ?c ?r ?w] =>
      destruct (finish_tables ts f t a b c r w) as (E1 & _); rewrite E1
  end.
  tx_unfold. rewrite Hid; simpl. rewrite HA; simpl.
  destruct (a <? x) eqn:Hax; [lia|]. simpl. rewrite HB; simpl.
  intros [? ?]; done.
Qed.

(** ** Transfer at the precision of the column *)

Lemma round_whole n : Numeric.round (n # 1) = n.
Proof.
  unfold Numeric.round. simpl. change (2 * 1) with 2.
  assert ((2 * Z.abs n + 1) / 2 = Z.abs n) as ->
    by (symmetry; apply (Z.div_unique _ _ _ 1); lia).
  lia.
Qed.

Lemma assign_whole n :
  Numeric.assign (inject_Z n)
  = if Z.abs n <=? Numeric.numeric_max then inr n
    else inl Numeric.ErrNumericOverflow.
Proof. unfold Numeric.assign, inject_Z. by rewrite round_whole. Qed.

Lemma assign_sum a delta :
  Numeric.assign (inject_Z a + inject_Z delta)
  = if Z.abs (a + delta) <=? Numeric.numeric_max then inr (a + delta)
    else inl Numeric.ErrNumericOverflow.
Proof.
  change (inject_Z a + inject_Z delta)%Q with ((a * 1 + delta * 1) # 1).
  rewrite !Z.mul_1_r. apply assign_whole.
Qed.

Lemma Qle_bool_whole a b : Qle_bool (inject_Z a) (inject_Z b) = (a <=? b).
Proof. unfold Qle_bool. simpl. by rewrite !Z.mul_1_r. Qed.

(** On whole minor units and inside the range of the column, the store
    statements of the services are the statements at full precision. *)
Lemma Update_amount_expr_refines id delta d :
  (∀ a, balances d !! id = Some a → Z.abs (a + delta) ≤ Numeric.numeric_max) →
  Numeric.Update_amount_expr id (inject_Z delta) d = Update_amount_expr id delta d.
Proof.
  intros Hr. unfold Numeric.Update_amount_expr, Update_amount_expr.
  destruct (balances d !! id) as [a|] eqn:Ha.
  - rewrite assign_sum. specialize (Hr a eq_refl).
    destruct (Z.abs (a + delta) <=? Numeric.numeric_max) eqn:E; [|lia].
    by rewrite (alter_alt_Some _ _ _ _ Ha).
  - rewrite alter_id' by done. by destruct d.
Qed.

Lemma Update_amount_refines id v d :
  Z.abs v ≤ Numeric.numeric_max →
  Numeric.Update_amount id (inject_Z v) d = Update_amount id v d.
Proof.
  intros Hr. unfold Numeric.Update_amount, Update_amount.
  destruct (balances d !! id) as [a|] eqn:Ha.
  - rewrite assign_whole.
    destruct (Z.abs v <=? Numeric.numeric_max) eqn:E; [|lia].
    by rewrite (alter_alt_Some _ _ _ _ Ha).
  - rewrite alter_id' by done. by destruct d.
Qed.

Lemma append_assoc (s1 s2 s3 : string) :
  (s1 +:+ s2) +:+ s3 = s1 +:+ s2 +:+ s3.
Proof.
  induction s1 as [|c s1 IH]; [done|].
  change (String c ((s1 +:+ s2) +:+ s3) = String c (s1 +:+ s2 +:+ s3)).
  by rewrite IH.
Qed.

Lemma two_digits_digits r :
  0 ≤ r < 100 → two_digits r = pretty (r / 10) +:+ pretty (r mod 10).
Proof.
  intros Hr.
  assert (Hin : r ∈ seqZ 0 100) by (apply elem_of_seqZ; lia).
  revert Hin. generalize r. apply Forall_forall.
  apply (bool_decide_unpack _). vm_compute. exact I.
Qed.

(** On whole minor units the two renderings of [%f] agree. *)
Lemma fmt_f_whole a : Numeric.fmt_f (inject_Z a) = fmt_f a.
Proof.
  unfold Numeric.fmt_f, fmt_f, Numeric.digit.
  change (inject_Z a * inject_Z 10000)%Q with ((a * 10000) # 1).
  rewrite round_whole.
  replace (a * 10000 <? 0) with (a <? 0) by lia.
  replace (Z.abs (a * 10000)) with (Z.abs a * 10000) by lia.
  set (n := Z.abs a). assert (Hn : 0 ≤ n) by lia. clearbody n.
  change (10 ^ 6) with 1000000. change (10 ^ 5) with 100000.
  change (10 ^ 4) with 10000. change (10 ^ 3) with 1000.
  change (10 ^ 2) with 100. change (10 ^ 1) with 10. change (10 ^ 0) with 1.
  replace (n * 10000 / 1000000) with (n / 100)
    by (Z.to_euclidean_division_equations; lia).
  replace ((n * 10000 / 100000) mod 10) with ((n mod 100) / 10)
    by (Z.to_euclidean_division_equations; lia).
  replace ((n * 10000 / 10000) mod 10) with ((n mod 100) mod 10)
    by (Z.to_euclidean_division_equations; lia).
  replace ((n * 10000 / 1000) mod 10) with 0
    by (Z.to_euclidean_division_equations; lia).
  replace ((n * 10000 / 100) mod 10) with 0
    by (Z.to_euclidean_division_equations; lia).
  replace ((n * 10000 / 10) mod 10) with 0
    by (Z.to_euclidean_division_equations; lia).
  replace ((n * 10000 / 1) mod 10) with 0
    by (Z.to_euclidean_division_equations; lia).
  rewrite (two_digits_digits (n mod 100)) by (apply Z.mod_pos_bound; lia).
  change (pretty 0) with "0".
  rewrite (append_assoc (pretty ((n `mod` 100) `div` 10))). reflexivity.
Qed.

(** What the store transaction of [Transfer] commits, for an amount of
    whole minor units. *)
Lemma Transfer_store_outcome f A B x d :
  A ≠ B → 0 < x →
  let transaction :=
    mkTransaction (new_uuid f) (Some A) (Some B) 0 TransactionTypeTransfer
      TransactionStatusPending "Transfer transaction" (now f) in
  let body := Numeric.Transfer_body transaction A B (inject_Z x) in
  let r := db_Transaction body d in
  let row :=
    mkTransaction (new_uuid f) (Some A) (Some B) x TransactionTypeTransfer
      TransactionStatusCompleted "Transfer transaction" (now f) in
  (r.1 = None
   ↔ x ≤ Numeric.numeric_max ∧ transactions d !! new_uuid f = None
     ∧ ∃ a b, balances d !! A = Some a ∧ balances d !! B = Some b
              ∧ x ≤ a ∧ a - x ≤ Numeric.numeric_max
              ∧ Z.abs (b + x) ≤ Numeric.numeric_max)
  ∧ match r.1 with
    | None =>
        ∃ a b, balances d !! A = Some a ∧ balances d !! B = Some b
               ∧ balances r.2 = <[B := b + x]> (<[A := a - x]> (balances d))
               ∧ transactions r.2 = <[new_uuid f := row]> (transactions d)
               ∧ balance_history r.2 = balance_history d
               ∧ audit_logs r.2 = audit_logs d
    | Some _ => r.2 = d
    end
  ∧ ∀ a b,
      x ≤ Numeric.numeric_max → transactions d !! new_uuid f = None →
      balances d !! A = Some a → balances d !! B = Some b →
      x ≤ a → a - x ≤ Numeric.numeric_max →
      Numeric.numeric_max < Z.abs (b + x) →
      balances (body d).2 !! A = Some (a - x)
      ∧ r.1 = Some (Errorw "failed to add to receiver balance"
                      Numeric.ErrNumericOverflow).
Proof.
  intros HAB Hx. cbv zeta.
  unfold db_Transaction, Numeric.Transfer_body, Numeric.Create_transaction,
    Numeric.Qlt_bool.
  unfold mbind, Tx_bind, wrapping, throw, Create_transaction, First_balance,
    Update_status. simpl.
  rewrite assign_whole.
  destruct (Z.abs x <=? Numeric.numeric_max) eqn:Hxm; simpl.
  2:{ split; [|split; [done|]].
      - split; [done|]. intros (? & _). lia.
      - intros; lia. }
  destruct (transactions d !! new_uuid f) as [t0|] eqn:Hid; simpl.
  { split; [|split; [done|]].
    - split; [done|]. intros (_ & ? & _). done.
    - intros; done. }
  destruct (balances d !! A) as [a|] eqn:HA; simpl.
  2:{ split; [|split; [done|]].
      - split; [done|]. intros (_ & _ & ? & ? & ? & _). done.
      - intros; done. }
  rewrite Qle_bool_whole.
  destruct (x <=? a) eqn:Hxa; simpl.
  2:{ split; [|split; [done|]].
      - split; [done|]. intros (_ & _ & a' & ? & [= <-] & _ & ? & _). lia.
      - intros a' b' _ _ [= <-] _ ?. lia. }
  destruct (balances d !! B) as [b|] eqn:HB; simpl.
  2:{ split; [|split; [done|]].
      - split; [done|]. intros (_ & _ & ? & ? & _ & ? & _). done.
      - intros; done. }
  unfold Numeric.Update_amount_expr. simpl. rewrite HA.
  change (- inject_Z x)%Q with (inject_Z (- x)). rewrite assign_sum.
  destruct (Z.abs (a + - x) <=? Numeric.numeric_max) eqn:Hax; simpl.
  2:{ split; [|split; [done|]].
      - split; [done|]. intros (_ & _ & a' & ? & [= <-] & _ & ? & ? & _). lia.
      - intros a' b' _ _ [= <-] _ ? ?. lia. }
  rewrite lookup_insert_ne, HB by done. rewrite assign_sum.
  destruct (Z.abs (b + x) <=? Numeric.numeric_max) eqn:Hbx; simpl.
  - split; [|split].
    + split; [|done]. intros _. split; [lia|]. split; [done|].
      exists a, b. repeat split; try done; lia.
    + exists a, b. split; [done|]. split; [done|]. split.
      * by replace (a + - x) with (a - x) by lia.
      * by rewrite alter_insert_eq.
    + intros a' b' _ _ [= <-] [= <-] _ _ ?. lia.
  - split; [|split; [done|]].
    + split; [done|]. intros (_ & _ & a' & b' & [= <-] & [= <-] & _ & _ & ?). lia.
    + intros a' b' _ _ [= <-] [= <-] _ _ _. split; [|done].
      by rewrite lookup_insert_eq.
Qed.

(** C1 (as amended). For distinct accounts A and B and an amount x > 0 that
    is a whole number of minor units, [Transfer] returns nil exactly when
    the amount fits the column, the ledger id is new, both accounts have a
    balance row, the sender covers the amount and both new balances fit
    the column; then the store it commits has the balance of A lower by
    exactly x, the balance of B higher by exactly x, every other balance
    untouched and the completed ledger row of the transfer.  Both updates
    belong to one store transaction: on every error balances, ledger and
    balance history are the ones before the call, also when the failure
    comes after the sender's row was written (the receiver's new balance
    does not fit the column: the body of the transaction has lowered the
    sender, and the rollback gives the amount back). *)
Theorem Transfer_conserves_atomically ts f A B x w :
  A ≠ B → 0 < x →
  let r := Numeric.Transfer ts f A B (inject_Z x) w in
  let row :=
    mkTransaction (new_uuid f) (Some A) (Some B) x TransactionTypeTransfer
      TransactionStatusCompleted "Transfer transaction" (now f) in
  (r.1 = None
   ↔ x ≤ Numeric.numeric_max ∧ transactions (db w) !! new_uuid f = None
     ∧ ∃ a b, balances (db w) !! A = Some a ∧ balances (db w) !! B = Some b
              ∧ x ≤ a ∧ a - x ≤ Numeric.numeric_max
              ∧ Z.abs (b + x) ≤ Numeric.numeric_max)
  ∧ match r.1 with
    | None =>
        ∃ a b, balances (db w) !! A = Some a ∧ balances (db w) !! B = Some b
               ∧ balances (db r.2)
                 = <[B := b + x]> (<[A := a - x]> (balances (db w)))
               ∧ transactions (db r.2)
                 = <[new_uuid f := row]> (transactions (db w))
               ∧ balance_history (db r.2) = balance_history (db w)
    | Some _ =>
        balances (db r.2) = balances (db w)
        ∧ transactions (db r.2) = transactions (db w)
        ∧ balance_history (db r.2) = balance_history (db w)
    end
  ∧ ∀ a b,
      x ≤ Numeric.numeric_max → transactions (db w) !! new_uuid f = None →
      balances (db w) !! A = Some a → balances (db w) !! B = Some b →
      x ≤ a → a - x ≤ Numeric.numeric_max →
      Numeric.numeric_max < Z.abs (b + x) →
      let transaction :=
        mkTransaction (new_uuid f) (Some A) (Some B) 0 TransactionTypeTransfer
          TransactionStatusPending "Transfer transaction" (now f) in
      balances (Numeric.Transfer_body transaction A B (inject_Z x) (db w)).2 !! A
      = Some (a - x)
      ∧ r.1 = Some (Errorw "failed to add to receiver balance"
                      Numeric.ErrNumericOverflow)
      ∧ balances (db r.2) !! A = Some a
      ∧ balances (db r.2) !! B = Some b.
Proof.
  intros HAB Hx. cbv zeta.
  pose proof (Transfer_store_outcome f A B x (db w) HAB Hx) as H.
  cbv zeta in H. destruct H as (Hiff & Hm & Hov).
  unfold Numeric.Transfer. rewrite bool_decide_eq_false_2 by done.
  change 0%Q with (inject_Z 0). rewrite Qle_bool_whole.
  destruct (x <=? 0) eqn:Hx0; [lia|].
  destruct (db_Transaction _ (db w)) as [[e|] d'] eqn:E; simpl in Hiff, Hm |- *.
  - subst d'. split; [|split].
    + rewrite <- Hiff. split; intros; done.
    + by destruct (TransactionService.auditService ts).
    + intros a b H1 H2 H3 H4 H5 H6 H7.
      destruct (Hov a b H1 H2 H3 H4 H5 H6 H7) as (Hb & He).
      split; [exact Hb|]. split; [by rewrite <- He|].
      by destruct (TransactionService.auditService ts).
  - split; [|split].
    + rewrite <- Hiff. split; intros; done.
    + destruct Hm as (a & b & HA & HB & Eb & Et & Eh & _).
      exists a, b. by destruct (TransactionService.auditService ts).
    + intros a b H1 H2 H3 H4 H5 H6 H7.
      destruct (Hov a b H1 H2 H3 H4 H5 H6 H7) as (_ & He). done.
Qed.

Lemma Transfer_conserves_atomically_witness :
  (let r := Numeric.Transfer sample_ts sample_fresh "alice" "bob"
              (inject_Z 2500) sample_world in
   r.1 = None
   ∧ ∃ a b, balances (db sample_world) !! "alice" = Some a
            ∧ balances (db sample_world) !! "bob" = Some b
            ∧ balances (db r.2)
              = <["bob" := b + 2500]>
                  (<["alice" := a - 2500]> (balances (db sample_world)))
            ∧ transactions (db r.2)
              = <[new_uuid sample_fresh :=
                    mkTransaction (new_uuid sample_fresh) (Some "alice")
                      (Some "bob") 2500 TransactionTypeTransfer
                      TransactionStatusCompleted "Transfer transaction"
                      (now sample_fresh)]> (transactions (db sample_world))
            ∧ balance_history (db r.2) = balance_history (db sample_world))
  ∧ (let w := mkWorld sample_db_full sample_redis in
     let r := Numeric.Transfer sample_ts sample_fresh "alice" "bob"
                (inject_Z 2500) w in
     let transaction :=
       mkTransaction (new_uuid sample_fresh) (Some "alice") (Some "bob") 0
         TransactionTypeTransfer TransactionStatusPending
         "Transfer transaction" (now sample_fresh) in
     balances (Numeric.Transfer_body transaction "alice" "bob" (inject_Z 2500)
                 (db w)).2 !! "alice" = Some (10000 - 2500)
     ∧ r.1 = Some (Errorw "failed to add to receiver balance"
                     Numeric.ErrNumericOverflow)
     ∧ balances (db r.2) !! "alice" = Some 10000
     ∧ balances (db r.2) !! "bob" = Some Numeric.numeric_max).
Proof.
  split.
  - destruct (Transfer_conserves_atomically sample_ts sample_fresh "alice"
                "bob" 2500 sample_world ltac:(discriminate) ltac:(lia))
      as (Hiff & Hm & _).
    cbv zeta in *.
    assert (Hn : (Numeric.Transfer sample_ts sample_fresh "alice" "bob"
                    (inject_Z 2500) sample_world).1 = None).
    { apply Hiff. split; [by vm_compute|]. split; [reflexivity|].
      exists 10000, 500. repeat split; try reflexivity; by vm_compute. }
    rewrite Hn in Hm. split; [exact Hn|exact Hm].
  - destruct (Transfer_conserves_atomically sample_ts sample_fresh "alice"
                "bob" 2500 (mkWorld sample_db_full sample_redis)
                ltac:(discriminate) ltac:(lia)) as (_ & _ & Hov).
    apply (Hov 10000 Numeric.numeric_max);
      first [reflexivity | by vm_compute].
Defined.

(** C1 (as stated) fails for an amount with more than two decimals: a
    transfer of 10.005 from alice (100.00) to bob (5.00) returns nil, and
    the column rounds each new balance on its own, 89.995 to 90.00 and
    15.005 to 15.01: alice is lower by 10.00 and bob higher by 10.01,
    neither by the amount. *)
Lemma transfer_of_a_sub_minor_amount_is_inexact :
  let r := Numeric.Transfer sample_ts sample_fresh "alice" "bob" (2001 # 2)
             sample_world in
  (0 < 2001 # 2)%Q ∧ "alice" ≠ "bob"
  ∧ r.1 = None
  ∧ balances (db sample_world) !! "alice" = Some 10000
  ∧ balances (db sample_world) !! "bob" = Some 500
  ∧ balances (db r.2) !! "alice" = Some 9000
  ∧ balances (db r.2) !! "bob" = Some 1501
  ∧ ¬ (inject_Z (10000 - 9000) == 2001 # 2)%Q
  ∧ ¬ (inject_Z (1501 - 500) == 2001 # 2)%Q.
Proof.
  cbv zeta. split; [done|]. split; [done|].
  split; [by vm_compute|]. split; [done|]. split; [done|].
  split; [by vm_compute|]. split; [by vm_compute|].
  split; intros H; vm_compute in H; discriminate.
Qed.

(** On whole minor units inside the range of the column, [Transfer] above
    is [TransactionService.Transfer]. *)
Lemma Transfer_refines ts f A B x w :
  x ≤ Numeric.numeric_max →
  (∀ a, balances (db w) !! A = Some a → Z.abs (a - x) ≤ Numeric.numeric_max) →
  (∀ b, balances (db w) !! B = Some b → Z.abs (b + x) ≤ Numeric.numeric_max) →
  Numeric.Transfer ts f A B (inject_Z x) w
  = TransactionService.Transfer ts f A B x w.
Proof.
  intros Hxm HA HB.
  unfold Numeric.Transfer, TransactionService.Transfer.
  case_bool_decide as HAB; [done|].
  change 0%Q with (inject_Z 0). rewrite Qle_bool_whole.
  destruct (x <=? 0) eqn:Hx0; [done|].
  unfold TransactionService.finish, Numeric.finish,
    Numeric.LogTransactionActivity, LogTransactionActivity.
  unfold db_Transaction, Numeric.Transfer_body, Numeric.Create_transaction,
    Numeric.Qlt_bool.
  unfold mbind, Tx_bind, wrapping, throw, Create_transaction, First_balance,
    Update_status, Update_amount_expr, Numeric.Update_amount_expr. simpl.
  rewrite !fmt_f_whole, assign_whole.
  destruct (Z.abs x <=? Numeric.numeric_max) eqn:E; [|lia]. simpl.
  destruct (transactions (db w) !! new_uuid f); simpl; [done|].
  destruct (balances (db w) !! A) as [a|] eqn:Ha; simpl; [|done].
  rewrite Qle_bool_whole.
  replace (a <? x) with (negb (x <=? a)) by lia.
  destruct (x <=? a) eqn:Hxa; simpl; [|by rewrite !fmt_f_whole].
  destruct (balances (db w) !! B) as [b|] eqn:Hb; simpl; [|done].
  rewrite Ha. change (- inject_Z x)%Q with (inject_Z (- x)). rewrite assign_sum.
  specialize (HA a eq_refl). specialize (HB b eq_refl).
  destruct (Z.abs (a + - x) <=? Numeric.numeric_max) eqn:E1; [|lia]. simpl.
  rewrite lookup_insert_ne, Hb by done. rewrite assign_sum.
  destruct (Z.abs (b + x) <=? Numeric.numeric_max) eqn:E2; [|lia]. simpl.
  rewrite (alter_alt_Some _ _ _ _ Ha).
  rewrite (alter_alt_Some _ (<[A:=a + - x]> (balances (db w))) B b)
    by (by rewrite lookup_insert_ne).
  done.
Qed.

(** The sample transfer is a successful one. *)
Example Transfer_sample_succeeds :
  (TransactionService.Transfer sample_ts sample_fresh "alice" "bob" 2500
     sample_world).1 = None.
Proof. vm_compute. reflexivity. Qed.

(** C2. For an account U and an amount x > 0, when the balance read inside
    the [Debit] store transaction is below x, [Debit] returns the
    insufficient-balance error and the transaction rolls back: the
    balances and the balance history are unchanged and the ledger is
    unchanged, so it holds no row, completed or otherwise, for the debit.
    The failure is only written to the audit log, with status failed. *)
Theorem Debit_insufficient_rolls_back ts f U x w b :
  0 < x →
  transactions (db w) !! new_uuid f = None →
  balances (db w) !! U = Some b →
  b < x →
  let r := TransactionService.Debit ts f U x w in
  r.1 = Some (Errorf ("insufficient balance: current=" +:+ fmt_f b +:+
                      ", required=" +:+ fmt_f x))
  ∧ balances (db r.2) = balances (db w)
  ∧ balance_history (db r.2) = balance_history (db w)
  ∧ transactions (db r.2) = transactions (db w)
  ∧ transactions (db r.2) !! new_uuid f = None
  ∧ Forall (λ a, al_Action a ≠ "DEBIT_COMPLETED")
      (drop (length (audit_logs (db w))) (audit_logs (db r.2))).
Proof.
  intros Hx Hid HU Hb r. subst r. unfold TransactionService.Debit.
  destruct (x <=? 0) eqn:Hx0; [lia|].
  unfold TransactionService.finish. tx_unfold.
  rewrite Hid; simpl. rewrite HU; simpl.
  destruct (b <? x) eqn:Hbx; [|lia]. simpl.
  destruct (TransactionService.auditService ts); simpl;
    repeat split; try done.
  - rewrite drop_app_length. by repeat constructor.
  - rewrite drop_all. constructor.
Qed.

Lemma Debit_insufficient_rolls_back_witness :
  let r := TransactionService.Debit sample_ts sample_fresh "bob" 2500 sample_world in
  r.1 = Some (Errorf ("insufficient balance: current=" +:+ fmt_f 500 +:+
                      ", required=" +:+ fmt_f 2500))
  ∧ balances (db r.2) = balances (db sample_world)
  ∧ balance_history (db r.2) = balance_history (db sample_world)
  ∧ transactions (db r.2) = transactions (db sample_world)
  ∧ transactions (db r.2) !! new_uuid sample_fresh = None
  ∧ Forall (λ a, al_Action a ≠ "DEBIT_COMPLETED")
      (drop (length (audit_logs (db sample_world))) (audit_logs (db r.2))).
Proof.
  apply (Debit_insufficient_rolls_back sample_ts sample_fresh "bob" 2500
           sample_world 500); [lia | reflexivity | reflexivity | lia].
Defined.

(** The failed debit of the sample leaves one audit row and nothing else. *)
Example Debit_sample_audit_row :
  audit_logs (db (TransactionService.Debit sample_ts sample_fresh "bob" 2500
                    sample_world).2)
  = [mkAuditLog "au-1" (Some "bob") "DEBIT_FAILED" "transaction" "tx-1"
       "Transaction tx-1: insufficient balance: current=5.000000, required=25.000000 (Amount: 25.000000, Type: withdraw, Status: failed)"
       1000].
Proof. vm_compute. reflexivity. Qed.

(** A debit the balance covers commits. *)
Lemma Debit_succeeds ts f U x w b :
  0 < x →
  transactions (db w) !! new_uuid f = None →
  balances (db w) !! U = Some b →
  x ≤ b →
  let r := TransactionService.Debit ts f U x w in
  r.1 = None ∧ balances (db r.2) !! U = Some (b - x).
Proof.
  intros Hx Hid HU Hb r. subst r. unfold TransactionService.Debit.
  destruct (x <=? 0) eqn:Hx0; [lia|].
  unfold TransactionService.finish. tx_unfold.
  rewrite Hid; simpl. rewrite HU; simpl.
  destruct (b <? x) eqn:Hbx; [lia|]. simpl.
  destruct (TransactionService.auditService ts); simpl;
    rewrite lookup_alter_eq, HU; done.
Qed.

(** ** The amount limit *)

(** [Credit] tests the sign of the amount and nothing else: any positive
    amount is booked. *)
Lemma Credit_succeeds ts f U x w b :
  0 < x →
  transactions (db w) !! new_uuid f = None →
  balances (db w) !! U = Some b →
  let r := TransactionService.Credit ts f U x w in
  r.1 = None
  ∧ balances (db r.2) !! U = Some (b + x)
  ∧ transactions (db r.2) !! new_uuid f
    = Some (mkTransaction (new_uuid f) None (Some U) x TransactionTypeDeposit
              TransactionStatusCompleted "Credit transaction" (now f)).
Proof.
  intros Hx Hid HU r. subst r. unfold TransactionService.Credit.
  destruct (x <=? 0) eqn:Hx0; [lia|].
  unfold TransactionService.finish. tx_unfold.
  rewrite Hid; simpl. rewrite HU; simpl.
  destruct (TransactionService.auditService ts); simpl;
    rewrite !lookup_alter_eq, HU, lookup_insert_eq; done.
Qed.

(** C3. An amount above 1,000,000 is not rejected: at 1,000,000.01 each of
    [Credit], [Debit] and [Transfer] returns nil, moves the balances by
    the full amount and commits a completed ledger row, a row that
    [Validate] of the same model rejects as above the maximum. *)
Theorem over_limit_amount_is_committed :
  let c := TransactionService.Credit sample_ts sample_fresh "bob" over_limit sample_world in
  let d := TransactionService.Debit sample_ts sample_fresh "carol" over_limit sample_world in
  let t := TransactionService.Transfer sample_ts sample_fresh "carol" "bob" over_limit sample_world in
  let too_high := Some (Errorf "işlem tutarı çok yüksek (maksimum: 1,000,000)") in
  max_transaction_amount < over_limit
  ∧ (c.1 = None
     ∧ balances (db c.2) !! "bob" = Some (500 + over_limit)
     ∧ (tx_Status <$> transactions (db c.2) !! "tx-1") = Some TransactionStatusCompleted
     ∧ (Validate <$> transactions (db c.2) !! "tx-1") = Some too_high)
  ∧ (d.1 = None
     ∧ balances (db d.2) !! "carol" = Some (500000000 - over_limit)
     ∧ (tx_Status <$> transactions (db d.2) !! "tx-1") = Some TransactionStatusCompleted
     ∧ (Validate <$> transactions (db d.2) !! "tx-1") = Some too_high)
  ∧ (t.1 = None
     ∧ balances (db t.2) !! "carol" = Some (500000000 - over_limit)
     ∧ balances (db t.2) !! "bob" = Some (500 + over_limit)
     ∧ (tx_Status <$> transactions (db t.2) !! "tx-1") = Some TransactionStatusCompleted
     ∧ (Validate <$> transactions (db t.2) !! "tx-1") = Some too_high).
Proof. vm_compute. repeat split; reflexivity. Qed.

(** [Validate] itself enforces the interval (0, 1,000,000]. *)
Lemma Validate_amount_bounds t :
  Validate t = None → 0 < tx_Amount t ≤ max_transaction_amount.
Proof.
  unfold Validate.
  destruct (tx_Amount t <=? 0) eqn:H0; [done|].
  destruct (max_transaction_amount <? tx_Amount t) eqn:H1; [done|].
  intros _. lia.
Qed.

(** ** The cache *)

(** No mutation primitive reads or writes the cache. *)
Lemma primitives_keep_redis ts f A B x w :
  redis (TransactionService.Credit ts f A x w).2 = redis w
  ∧ redis (TransactionService.Debit ts f A x w).2 = redis w
  ∧ redis (TransactionService.Transfer ts f A B x w).2 = redis w.
Proof.
  unfold TransactionService.Credit, TransactionService.Debit,
    TransactionService.Transfer.
  repeat split.
  - destruct (x <=? 0); [done|].
    match goal with
    | |- context [TransactionService.finish ?ts ?f ?t ?a ?b ?c ?r ?w] =>
        apply (finish_tables ts f t a b c r w)
    end.
  - destruct (x <=? 0); [done|].
    match goal with
    | |- context [TransactionService.finish ?ts ?f ?t ?a ?b ?c ?r ?w] =>
        apply (finish_tables ts f t a b c r w)
    end.
  - destruct (bool_decide (A = B)); [done|]. destruct (x <=? 0); [done|].
    match goal with
    | |- context [TransactionService.finish ?ts ?f ?t ?a ?b ?c ?r ?w] =>
        apply (finish_tables ts f t a b c r w)
    end.
Qed.

(** C4. A committed balance mutation does not invalidate the cache: after
    [Credit] of 10.00 to bob, and after [Transfer] of 10.00 from alice to
    bob, the store holds the new balance while [balance:bob] and the
    cached history page of bob are still in Redis with their old
    contents; [SafeUpdateBalance] deletes [balance:bob] and keeps the
    history page. *)
Theorem committed_mutation_leaves_cache_keys :
  let page := TransactionService.history_cacheKey "bob" 50 0 "" "" in
  let c := TransactionService.Credit sample_ts sample_fresh "bob" 1000 sample_world in
  let t := TransactionService.Transfer sample_ts sample_fresh "alice" "bob" 1000 sample_world in
  let s := BalanceService.SafeUpdateBalance sample_bs sample_fresh "bob" 1000 sample_world in
  (c.1 = None
   ∧ balances (db c.2) !! "bob" = Some 1500
   ∧ keys (redis c.2) !! "balance:bob" = Some "5"
   ∧ keys (redis c.2) !! page = Some "[]")
  ∧ (t.1 = None
     ∧ balances (db t.2) !! "bob" = Some 1500
     ∧ keys (redis t.2) !! "balance:bob" = Some "5"
     ∧ keys (redis t.2) !! page = Some "[]")
  ∧ (s.1 = None
     ∧ balances (db s.2) !! "bob" = Some 1500
     ∧ keys (redis s.2) !! "balance:bob" = None
     ∧ keys (redis s.2) !! page = Some "[]").
Proof. vm_compute. repeat split; reflexivity. Qed.

(** [GetBalance] with a cache continues with the repository after the
    lookup, hit or miss. *)
Lemma GetBalance_falls_through bs accountID w :
  BalanceService.GetBalance bs accountID w
  = BalanceService.GetBalance_from_repo bs accountID
      (if BalanceService.cache bs
       then with_redis w
              (cache_Get (BalanceService.balance_key accountID) (redis w)).2
       else w).
Proof.
  unfold BalanceService.GetBalance.
  destruct (BalanceService.cache bs); [|done].
  unfold cache_Get. destruct (up (redis w)); [|done].
  destruct (keys (redis w) !! BalanceService.balance_key accountID); done.
Qed.

(** C10. With the Redis cache, [GetBalance] never answers from the cache:
    whatever the key [balance:<id>] holds, also what an earlier
    [GetBalance] stored there, the lookup yields a string (or nothing),
    the assertion to [float64] fails, and the call continues with the
    repository exactly as on a miss; the balance returned is the one the
    repository reads from the store. *)
Theorem GetBalance_never_serves_cache bs accountID w :
  BalanceService.GetBalance bs accountID w
  = BalanceService.GetBalance_from_repo bs accountID
      (if BalanceService.cache bs
       then with_redis w
              (cache_Get (BalanceService.balance_key accountID) (redis w)).2
       else w)
  ∧ (BalanceService.GetBalance bs accountID w).1
    = match (repo_GetBalance (BalanceService.balanceRepo bs) accountID (db w)).1 with
      | inl err => inl (Errorw "bakiye alınamadı" err)
      | inr balance => inr balance
      end.
Proof.
  split; [apply GetBalance_falls_through|].
  rewrite GetBalance_falls_through.
  unfold BalanceService.GetBalance_from_repo.
  destruct (BalanceService.cache bs); simpl;
    destruct (repo_GetBalance _ accountID (db w)) as [[e|b] d]; done.
Qed.

(** A first [GetBalance] of alice stores "100" under [balance:alice]; a
    credit of 25.00 follows; the second [GetBalance] counts a cache hit
    and still returns the 125.00 of the store. *)
Example GetBalance_after_store_reads_store :
  let w1 := (BalanceService.GetBalance sample_bs "alice" sample_world).2 in
  let w2 := (TransactionService.Credit sample_ts sample_fresh "alice" 2500 w1).2 in
  let r := BalanceService.GetBalance sample_bs "alice" w2 in
  keys (redis w1) !! "balance:alice" = Some "100"
  ∧ keys (redis w2) !! "balance:alice" = Some "100"
  ∧ r.1 = inr 12500
  ∧ Hits (stats (redis r.2)) = 1
  ∧ keys (redis r.2) !! "balance:alice" = Some "125".
Proof. vm_compute. repeat split; reflexivity. Qed.

(** ** The counters *)

Lemma wrap64_small x : - 2 ^ 63 ≤ x ≤ max_int64 → wrap64 x = x.
Proof.
  unfold wrap64, max_int64. intros H.
  rewrite Z.mod_small; lia.
Qed.

Import TransactionCounters.

Lemma StoreInt64_same addr v tc : StoreInt64 addr v tc addr = v.
Proof. unfold StoreInt64. by rewrite bool_decide_eq_true_2. Qed.

Lemma StoreInt64_other addr v tc c : c ≠ addr → StoreInt64 addr v tc c = tc c.
Proof. intros H. unfold StoreInt64. by rewrite bool_decide_eq_false_2. Qed.

Lemma AddInt64_same addr d tc : AddInt64 addr d tc addr = wrap64 (tc addr + d).
Proof. apply StoreInt64_same. Qed.

Lemma AddInt64_other addr d tc c : c ≠ addr → AddInt64 addr d tc c = tc c.
Proof. apply StoreInt64_other. Qed.

(** A loop whose body leaves a cell alone leaves it alone. *)
Lemma loop_keeps c fuel body tc tc' :
  (∀ s s', body s = inl s' ∨ body s = inr s' → s' c = s c) →
  loop fuel body tc = Some tc' → tc' c = tc c.
Proof.
  intros Hbody. revert tc. induction fuel as [|fuel IH]; intros tc; simpl; [done|].
  destruct (body tc) as [s|s] eqn:Hb.
  - intros H. rewrite (IH _ H). apply Hbody. by left.
  - intros [= <-]. apply Hbody. by right.
Qed.

Lemma CompareAndSwapInt64_keeps addr old new tc c :
  c ≠ addr → (CompareAndSwapInt64 addr old new tc).2 c = tc c.
Proof.
  intros H. unfold CompareAndSwapInt64.
  destruct (tc addr =? old); simpl; [by apply StoreInt64_other|done].
Qed.

Lemma raise_body_keeps addr v c s s' :
  c ≠ addr → raise_body addr v s = inl s' ∨ raise_body addr v s = inr s' →
  s' c = s c.
Proof.
  intros Hc. unfold raise_body.
  destruct (v <=? LoadInt64 addr s); [intros [[=]|[= <-]]; done|].
  pose proof (CompareAndSwapInt64_keeps addr (LoadInt64 addr s) v s c Hc) as Hk.
  destruct (CompareAndSwapInt64 addr (LoadInt64 addr s) v s) as [[] s0];
    simpl in Hk; intros [[= <-]|[= <-]]; done.
Qed.

Lemma lower_body_keeps addr v c s s' :
  c ≠ addr → lower_body addr v s = inl s' ∨ lower_body addr v s = inr s' →
  s' c = s c.
Proof.
  intros Hc. unfold lower_body.
  destruct (LoadInt64 addr s <=? v); [intros [[=]|[= <-]]; done|].
  pose proof (CompareAndSwapInt64_keeps addr (LoadInt64 addr s) v s c Hc) as Hk.
  destruct (CompareAndSwapInt64 addr (LoadInt64 addr s) v s) as [[] s0];
    simpl in Hk; intros [[= <-]|[= <-]]; done.
Qed.

Lemma average_body_keeps d c s s' :
  c ≠ averageProcessingTime →
  average_body d s = inl s' ∨ average_body d s = inr s' → s' c = s c.
Proof.
  intros Hc. unfold average_body.
  destruct (LoadInt64 successfulTransactions s =? 0).
  - pose proof (CompareAndSwapInt64_keeps averageProcessingTime 0 d s c Hc) as Hk.
    destruct (CompareAndSwapInt64 averageProcessingTime 0 d s) as [[] s0];
      simpl in Hk; intros [[= <-]|[= <-]]; done.
  - match goal with
    | |- context [CompareAndSwapInt64 ?a ?o ?n s] =>
        pose proof (CompareAndSwapInt64_keeps a o n s c Hc) as Hk;
        destruct (CompareAndSwapInt64 a o n s) as [[] s0]
    end; simpl in Hk; intros [[= <-]|[= <-]]; done.
Qed.

Lemma event_counter_cases c :
  c ∈ event_counters →
  c ≠ totalAmountProcessed ∧ c ≠ largestTransaction ∧ c ≠ smallestTransaction
  ∧ c ≠ averageProcessingTime ∧ c ≠ fastestTransaction ∧ c ≠ slowestTransaction
  ∧ c ≠ pendingTransactions.
Proof.
  unfold event_counters. intros H.
  repeat (apply elem_of_cons in H as [->|H]); [..|by apply elem_of_nil in H];
    repeat split; discriminate.
Qed.

Lemma AddAmountProcessed_keeps fuel a tc tc' c :
  c ∈ event_counters → AddAmountProcessed fuel a tc = Some tc' → tc' c = tc c.
Proof.
  intros Hc. apply event_counter_cases in Hc as (H1 & H2 & H3 & _).
  unfold AddAmountProcessed.
  destruct (loop fuel (raise_body largestTransaction _) _) as [s|] eqn:E1; simpl; [|done].
  intros E2.
  apply (loop_keeps c) in E2;
    [|intros ?? Hb; exact (lower_body_keeps _ _ _ _ _ H3 Hb)].
  apply (loop_keeps c) in E1;
    [|intros ?? Hb; exact (raise_body_keeps _ _ _ _ _ H2 Hb)].
  rewrite E2, E1. by apply AddInt64_other.
Qed.

Lemma RecordProcessingTime_keeps fuel d tc tc' c :
  c ∈ event_counters → RecordProcessingTime fuel d tc = Some tc' → tc' c = tc c.
Proof.
  intros Hc. apply event_counter_cases in Hc as (_ & _ & _ & H4 & H5 & H6 & _).
  unfold RecordProcessingTime.
  destruct (loop fuel (average_body d) tc) as [s1|] eqn:E1; simpl; [|done].
  destruct (loop fuel (lower_body fastestTransaction d) s1) as [s2|] eqn:E2; simpl; [|done].
  intros E3.
  apply (loop_keeps c) in E3;
    [|intros ?? Hb; exact (raise_body_keeps _ _ _ _ _ H6 Hb)].
  apply (loop_keeps c) in E2;
    [|intros ?? Hb; exact (lower_body_keeps _ _ _ _ _ H5 Hb)].
  apply (loop_keeps c) in E1;
    [|intros ?? Hb; exact (average_body_keeps _ _ _ _ H4 Hb)].
  by rewrite E3, E2, E1.
Qed.

Ltac add_case :=
  match goal with
  | |- context [AddInt64 ?a ?d ?s ?a] => rewrite (AddInt64_same a d s)
  | |- context [AddInt64 ?a ?d ?s ?c] =>
      first
        [ rewrite (AddInt64_other a d s c)
            by first [assumption | discriminate]
        | destruct (decide (c = a));
          [subst c; rewrite (AddInt64_same a d s)
          |rewrite (AddInt64_other a d s c) by assumption] ]
  end.

Lemma IncrementErrorType_cases tc :
  IncrementErrorType "insufficient_balance" tc = AddInt64 insufficientBalanceErrors 1 tc
  ∧ IncrementErrorType "validation" tc = AddInt64 validationErrors 1 tc
  ∧ IncrementErrorType "system" tc = AddInt64 systemErrors 1 tc.
Proof. done. Qed.

Ltac in_list :=
  solve [unfold event_counters;
         repeat first [apply list_elem_of_here | apply list_elem_of_further]].

Ltac not_in_list :=
  let H := fresh in
  unfold running_maxima; intros H;
  repeat (apply elem_of_cons in H as [H|H]; [discriminate|]);
  by apply elem_of_nil in H.

Ltac unfold_increments :=
  unfold IncrementTotalTransactions, IncrementSuccessfulTransactions,
    IncrementFailedTransactions, IncrementPendingTransactions,
    DecrementPendingTransactions, IncrementRetryCount,
    IncrementTransactionType, IncrementErrorType in *.

(** One operation other than [Reset] moves an event counter up by one or
    not at all, as long as the cell is below the largest [int64]. *)
Lemma apply_event_step fuel o tc tc' c :
  o ≠ OpReset → c ∈ event_counters →
  after (apply_op fuel o tc) = Some tc' →
  0 ≤ tc c < max_int64 →
  tc c ≤ tc' c ≤ tc c + 1.
Proof.
  intros Ho Hc Ha Hb.
  pose proof (event_counter_cases c Hc) as (_ & _ & _ & _ & _ & _ & Hp).
  assert (Hw : wrap64 (tc c + 1) = tc c + 1)
    by (apply wrap64_small; unfold max_int64 in *; lia).
  destruct o; simpl in Ha; try done.
  1-6,9-10: injection Ha as <-; unfold_increments;
    repeat match goal with |- context [if ?b then _ else _] => destruct b end;
    repeat add_case; rewrite ?Hw; try done; lia.
  - destruct (AddAmountProcessed fuel amount tc) as [s|] eqn:E; [|done].
    injection Ha as <-. rewrite (AddAmountProcessed_keeps _ _ _ _ _ Hc E). lia.
  - destruct (RecordProcessingTime fuel duration tc) as [s|] eqn:E; [|done].
    injection Ha as <-. rewrite (RecordProcessingTime_keeps _ _ _ _ _ Hc E). lia.
  - unfold RecordTransaction in Ha.
    destruct transaction as [tx|].
    2:{ injection Ha as <-. unfold_increments. repeat add_case; rewrite ?Hw; lia. }
    destruct (AddAmountProcessed fuel (tx_Amount tx) _) as [s1|] eqn:E1; simpl in Ha; [|done].
    destruct (RecordProcessingTime fuel processingTime s1) as [s2|] eqn:E2; simpl in Ha; [|done].
    assert (Hs2 : ∀ a, a ∈ event_counters →
              s2 a = IncrementTransactionType (tx_Type tx)
                       (IncrementTotalTransactions tc) a).
    { intros a Ha'. rewrite (RecordProcessingTime_keeps _ _ _ _ _ Ha' E2).
      by rewrite (AddAmountProcessed_keeps _ _ _ _ _ Ha' E1). }
    assert (He : ∀ e s, ∃ a, a ∈ [insufficientBalanceErrors; validationErrors; systemErrors]
              ∧ IncrementErrorType
                  (if String.eqb e "yetersiz bakiye" then "insufficient_balance"
                   else if String.eqb e "işlem doğrulama hatası" then "validation"
                   else "system") s = AddInt64 a 1 s).
    { intros e s.
      destruct (String.eqb e "yetersiz bakiye");
        [|destruct (String.eqb e "işlem doğrulama hatası")];
        eexists; (split; [|apply IncrementErrorType_cases]);
        repeat first [apply list_elem_of_here | apply list_elem_of_further]. }
    destruct success; [|destruct err as [err|]]; injection Ha as <-.
    2:{ destruct (He (Error err)
                    (DecrementPendingTransactions (IncrementFailedTransactions s2)))
          as (a & Ha & ->).
        unfold_increments. clear He.
        repeat (apply elem_of_cons in Ha as [->|Ha]); [..|by apply elem_of_nil in Ha].
        all: repeat add_case; try done.
        all: rewrite Hs2 by first [done | in_list].
        all: unfold_increments.
        all: repeat match goal with
                    | |- context [if String.eqb ?x ?y then _ else _] =>
                        destruct (String.eqb x y)
                    end.
        all: repeat add_case; rewrite ?Hw; try done; lia. }
    all: unfold_increments; clear He.
    all: repeat add_case; try done.
    all: rewrite Hs2 by first [done | in_list].
    all: unfold_increments.
    all: repeat match goal with
                | |- context [if String.eqb ?x ?y then _ else _] =>
                    destruct (String.eqb x y)
                end.
    all: repeat add_case; rewrite ?Hw; try done; lia.
Qed.

(** Over a sequence without [Reset], an event counter grows, by at most
    the number of operations. *)
Lemma run_event_bounds fuel ops :
  ∀ tc tc',
    Forall (λ o, o ≠ OpReset) ops →
    (∀ c, c ∈ event_counters →
          0 ≤ tc c ∧ tc c + Z.of_nat (length ops) ≤ max_int64) →
    after (run fuel ops tc) = Some tc' →
    ∀ c, c ∈ event_counters → tc c ≤ tc' c ≤ tc c + Z.of_nat (length ops).
Proof.
  induction ops as [|o ops IH]; intros tc tc' Hops Hb Hr c Hc.
  - simpl in Hr. injection Hr as <-. simpl. lia.
  - apply Forall_cons in Hops as [Ho Hops].
    assert (Hstep : ∀ s, after (apply_op fuel o tc) = Some s →
              ∀ a, a ∈ event_counters → tc a ≤ s a ≤ tc a + 1).
    { intros s Hs a Ha. apply (apply_event_step fuel o tc s a Ho Ha Hs).
      specialize (Hb a Ha). rewrite length_cons in Hb. lia. }
    simpl in Hr. rewrite length_cons.
    destruct (apply_op fuel o tc) as [s|msg s|] eqn:E.
    + specialize (Hstep s eq_refl).
      assert (Hb' : ∀ a, a ∈ event_counters →
                0 ≤ s a ∧ s a + Z.of_nat (length ops) ≤ max_int64).
      { intros a Ha. specialize (Hb a Ha). specialize (Hstep a Ha).
        rewrite length_cons in Hb. lia. }
      specialize (IH s tc' Hops Hb' Hr c Hc). specialize (Hstep c Hc). lia.
    + simpl in Hr. injection Hr as <-. specialize (Hstep s eq_refl c Hc). lia.
    + done.
Qed.

Lemma Reset_outcome_cells tc :
  Reset tc totalTransactions = 0
  ∧ Reset tc successfulTransactions = 0
  ∧ Reset tc failedTransactions = 0.
Proof. done. Qed.

(** One operation that is not a bare increment of the successful or the
    failed counter keeps [successful + failed ≤ total]. *)
Lemma apply_outcome_step fuel o tc tc' :
  o ≠ OpIncrementSuccessfulTransactions →
  o ≠ OpIncrementFailedTransactions →
  after (apply_op fuel o tc) = Some tc' →
  0 ≤ tc successfulTransactions → 0 ≤ tc failedTransactions →
  tc successfulTransactions + tc failedTransactions ≤ tc totalTransactions →
  tc totalTransactions < max_int64 →
  0 ≤ tc' successfulTransactions ∧ 0 ≤ tc' failedTransactions
  ∧ tc' successfulTransactions + tc' failedTransactions ≤ tc' totalTransactions
  ∧ tc' totalTransactions ≤ tc totalTransactions + 1.
Proof.
  intros Ho1 Ho2 Ha Hs Hf Hinv Hmax.
  assert (Hw : ∀ x, 0 ≤ x ≤ tc totalTransactions → wrap64 (x + 1) = x + 1)
    by (intros x Hx; apply wrap64_small; unfold max_int64 in *; lia).
  pose proof (Hw (tc totalTransactions)) as Hwt.
  pose proof (Hw (tc successfulTransactions)) as Hws.
  pose proof (Hw (tc failedTransactions)) as Hwf.
  assert (Hin : totalTransactions ∈ event_counters
                ∧ successfulTransactions ∈ event_counters
                ∧ failedTransactions ∈ event_counters)
    by (repeat split; in_list).
  destruct Hin as (Ht & Hsu & Hfa).
  destruct o; simpl in Ha; try done.
  1-4,7-8: injection Ha as <-; unfold_increments;
    repeat match goal with |- context [if ?b then _ else _] => destruct b end;
    repeat add_case; rewrite ?Hwt by lia; lia.
  - destruct (AddAmountProcessed fuel amount tc) as [s|] eqn:E; [|done].
    injection Ha as <-.
    rewrite (AddAmountProcessed_keeps _ _ _ _ _ Ht E),
      (AddAmountProcessed_keeps _ _ _ _ _ Hsu E),
      (AddAmountProcessed_keeps _ _ _ _ _ Hfa E). lia.
  - destruct (RecordProcessingTime fuel duration tc) as [s|] eqn:E; [|done].
    injection Ha as <-.
    rewrite (RecordProcessingTime_keeps _ _ _ _ _ Ht E),
      (RecordProcessingTime_keeps _ _ _ _ _ Hsu E),
      (RecordProcessingTime_keeps _ _ _ _ _ Hfa E). lia.
  - injection Ha as <-.
    destruct (Reset_outcome_cells tc) as (-> & -> & ->). lia.
  - unfold RecordTransaction in Ha.
    destruct transaction as [tx|].
    2:{ injection Ha as <-. unfold_increments.
        repeat add_case; rewrite ?Hwt by lia; lia. }
    destruct (AddAmountProcessed fuel (tx_Amount tx) _) as [s1|] eqn:E1; simpl in Ha; [|done].
    destruct (RecordProcessingTime fuel processingTime s1) as [s2|] eqn:E2; simpl in Ha; [|done].
    assert (Hs2 : ∀ a, a ∈ [totalTransactions; successfulTransactions; failedTransactions] →
              s2 a = if bool_decide (a = totalTransactions) then tc a + 1 else tc a).
    { intros a Ha'.
      assert (a ∈ event_counters) as Hae.
      { repeat (apply elem_of_cons in Ha' as [->|Ha']); [..|by apply elem_of_nil in Ha'];
          in_list. }
      rewrite (RecordProcessingTime_keeps _ _ _ _ _ Hae E2).
      rewrite (AddAmountProcessed_keeps _ _ _ _ _ Hae E1).
      unfold_increments.
      repeat (apply elem_of_cons in Ha' as [->|Ha']); [..|by apply elem_of_nil in Ha'];
        repeat match goal with
               | |- context [if String.eqb ?x ?y then _ else _] =>
                   destruct (String.eqb x y)
               end;
        repeat add_case; rewrite ?Hwt by lia; done. }
    pose proof (Hs2 totalTransactions ltac:(in_list)) as Et.
    pose proof (Hs2 successfulTransactions ltac:(in_list)) as Es.
    pose proof (Hs2 failedTransactions ltac:(in_list)) as Ef.
    simpl in Et, Es, Ef. clear Hs2.
    assert (He : ∀ e s, ∃ a, a ∈ [insufficientBalanceErrors; validationErrors; systemErrors]
              ∧ IncrementErrorType
                  (if String.eqb e "yetersiz bakiye" then "insufficient_balance"
                   else if String.eqb e "işlem doğrulama hatası" then "validation"
                   else "system") s = AddInt64 a 1 s).
    { intros e s.
      destruct (String.eqb e "yetersiz bakiye");
        [|destruct (String.eqb e "işlem doğrulama hatası")];
        eexists; (split; [|apply IncrementErrorType_cases]);
        repeat first [apply list_elem_of_here | apply list_elem_of_further]. }
    destruct success; [|destruct err as [err|]]; injection Ha as <-.
    2:{ destruct (He (Error err)
                    (DecrementPendingTransactions (IncrementFailedTransactions s2)))
          as (a & Ha & ->).
        unfold_increments. clear He.
        repeat (apply elem_of_cons in Ha as [->|Ha]); [..|by apply elem_of_nil in Ha].
        all: repeat add_case; rewrite Et, ?Es, ?Ef;
          rewrite ?Hwf by lia; lia. }
    all: unfold_increments; clear He.
    all: repeat add_case; rewrite Et, ?Es, ?Ef; rewrite ?Hws, ?Hwf by lia; lia.
Qed.

(** The raising loop never lowers its cell. *)
Lemma loop_raise_ge fuel addr v tc tc' :
  loop fuel (raise_body addr v) tc = Some tc' → tc addr ≤ tc' addr.
Proof.
  revert tc. induction fuel as [|fuel IH]; intros tc; simpl; [done|].
  unfold raise_body at 1, LoadInt64, CompareAndSwapInt64.
  destruct (v <=? tc addr) eqn:Hv; [by intros [= <-]|].
  rewrite Z.eqb_refl. intros [= <-]. rewrite StoreInt64_same. lia.
Qed.

Lemma AddAmountProcessed_maxima fuel a tc tc' c :
  c ∈ running_maxima → AddAmountProcessed fuel a tc = Some tc' → tc c ≤ tc' c.
Proof.
  intros Hc. unfold AddAmountProcessed.
  destruct (loop fuel (raise_body largestTransaction _) _) as [s|] eqn:E1; simpl; [|done].
  intros E2. unfold running_maxima in Hc.
  repeat (apply elem_of_cons in Hc as [->|Hc]); [..|by apply elem_of_nil in Hc].
  - apply (loop_keeps largestTransaction) in E2;
      [|intros ?? Hb; refine (lower_body_keeps _ _ _ _ _ _ Hb); discriminate].
    apply loop_raise_ge in E1. rewrite AddInt64_other in E1 by discriminate.
    rewrite E2. done.
  - apply (loop_keeps slowestTransaction) in E2;
      [|intros ?? Hb; refine (lower_body_keeps _ _ _ _ _ _ Hb); discriminate].
    apply (loop_keeps slowestTransaction) in E1;
      [|intros ?? Hb; refine (raise_body_keeps _ _ _ _ _ _ Hb); discriminate].
    rewrite E2, E1, AddInt64_other by discriminate. done.
Qed.

Lemma RecordProcessingTime_maxima fuel d tc tc' c :
  c ∈ running_maxima → RecordProcessingTime fuel d tc = Some tc' → tc c ≤ tc' c.
Proof.
  intros Hc. unfold RecordProcessingTime.
  destruct (loop fuel (average_body d) tc) as [s1|] eqn:E1; simpl; [|done].
  destruct (loop fuel (lower_body fastestTransaction d) s1) as [s2|] eqn:E2; simpl; [|done].
  intros E3. unfold running_maxima in Hc.
  repeat (apply elem_of_cons in Hc as [->|Hc]); [..|by apply elem_of_nil in Hc].
  - apply (loop_keeps largestTransaction) in E3;
      [|intros ?? Hb; refine (raise_body_keeps _ _ _ _ _ _ Hb); discriminate].
    apply (loop_keeps largestTransaction) in E2;
      [|intros ?? Hb; refine (lower_body_keeps _ _ _ _ _ _ Hb); discriminate].
    apply (loop_keeps largestTransaction) in E1;
      [|intros ?? Hb; refine (average_body_keeps _ _ _ _ _ Hb); discriminate].
    rewrite E3, E2, E1. done.
  - apply loop_raise_ge in E3.
    apply (loop_keeps slowestTransaction) in E2;
      [|intros ?? Hb; refine (lower_body_keeps _ _ _ _ _ _ Hb); discriminate].
    apply (loop_keeps slowestTransaction) in E1;
      [|intros ?? Hb; refine (average_body_keeps _ _ _ _ _ Hb); discriminate].
    rewrite E2, E1 in E3. done.
Qed.

(** One operation other than [Reset] never lowers a running maximum. *)
Lemma apply_maxima_step fuel o tc tc' c :
  o ≠ OpReset → c ∈ running_maxima →
  after (apply_op fuel o tc) = Some tc' → tc c ≤ tc' c.
Proof.
  intros Ho Hc Ha.
  assert (Hadd : ∀ a d s, a ∉ running_maxima → AddInt64 a d s c = s c).
  { intros a d s Hn. apply AddInt64_other. by intros ->. }
  assert (Hty : ∀ ty s, IncrementTransactionType ty s c = s c).
  { intros ty s. unfold IncrementTransactionType.
    repeat match goal with |- context [if ?b then _ else _] => destruct b end;
      try done; apply Hadd; not_in_list. }
  assert (Her : ∀ e s, IncrementErrorType e s c = s c).
  { intros e s. unfold IncrementErrorType.
    repeat match goal with |- context [if ?b then _ else _] => destruct b end;
      try done; apply Hadd; not_in_list. }
  destruct o; simpl in Ha; try done.
  1-5,10: injection Ha as <-;
    unfold IncrementTotalTransactions, IncrementSuccessfulTransactions,
      IncrementFailedTransactions, IncrementPendingTransactions,
      DecrementPendingTransactions, IncrementRetryCount;
    rewrite Hadd; [done|not_in_list].
  - injection Ha as <-. by rewrite Hty.
  - destruct (AddAmountProcessed fuel amount tc) as [s|] eqn:E; [|done].
    injection Ha as <-. by apply (AddAmountProcessed_maxima fuel amount).
  - destruct (RecordProcessingTime fuel duration tc) as [s|] eqn:E; [|done].
    injection Ha as <-. by apply (RecordProcessingTime_maxima fuel duration).
  - injection Ha as <-. by rewrite Her.
  - unfold RecordTransaction in Ha.
    destruct transaction as [tx|].
    2:{ injection Ha as <-. unfold IncrementTotalTransactions.
        rewrite Hadd; [done|not_in_list]. }
    destruct (AddAmountProcessed fuel (tx_Amount tx) _) as [s1|] eqn:E1; simpl in Ha; [|done].
    destruct (RecordProcessingTime fuel processingTime s1) as [s2|] eqn:E2; simpl in Ha; [|done].
    pose proof (AddAmountProcessed_maxima _ _ _ _ c Hc E1) as H1.
    pose proof (RecordProcessingTime_maxima _ _ _ _ c Hc E2) as H2.
    rewrite Hty in H1. unfold IncrementTotalTransactions in H1.
    rewrite Hadd in H1 by (not_in_list).
    assert (tc c ≤ s2 c) as H3 by lia.
    destruct success; [|destruct err as [err|]]; injection Ha as <-;
      rewrite ?Her;
      unfold IncrementSuccessfulTransactions, IncrementFailedTransactions,
        DecrementPendingTransactions;
      rewrite !Hadd by (not_in_list); done.
Qed.

(** Over a sequence without [Reset], a running maximum never falls. *)
Lemma run_maxima_monotone fuel ops :
  ∀ tc tc',
    Forall (λ o, o ≠ OpReset) ops →
    after (run fuel ops tc) = Some tc' →
    ∀ c, c ∈ running_maxima → tc c ≤ tc' c.
Proof.
  induction ops as [|o ops IH]; intros tc tc' Hops Hr c Hc.
  - simpl in Hr. by injection Hr as <-.
  - apply Forall_cons in Hops as [Ho Hops]. simpl in Hr.
    destruct (apply_op fuel o tc) as [s|msg s|] eqn:E.
    + assert (tc c ≤ s c) by (apply (apply_maxima_step fuel o); [done..|by rewrite E]).
      specialize (IH s tc' Hops Hr c Hc). lia.
    + simpl in Hr. injection Hr as <-.
      apply (apply_maxima_step fuel o); [done..|by rewrite E].
    + done.
Qed.

(** The lowering loop never raises its cell. *)
Lemma loop_lower_le fuel addr v tc tc' :
  loop fuel (lower_body addr v) tc = Some tc' → tc' addr ≤ tc addr.
Proof.
  revert tc. induction fuel as [|fuel IH]; intros tc; simpl; [done|].
  unfold lower_body at 1, LoadInt64, CompareAndSwapInt64.
  destruct (tc addr <=? v) eqn:Hv; [by intros [= <-]|].
  rewrite Z.eqb_refl. intros [= <-]. rewrite StoreInt64_same. lia.
Qed.

Ltac not_a_minimum :=
  let H := fresh in
  unfold running_minima; intros H;
  repeat (apply elem_of_cons in H as [H|H]; [discriminate|]);
  by apply elem_of_nil in H.

Lemma AddAmountProcessed_minima fuel a tc tc' c :
  c ∈ running_minima → AddAmountProcessed fuel a tc = Some tc' → tc' c ≤ tc c.
Proof.
  intros Hc. unfold AddAmountProcessed.
  destruct (loop fuel (raise_body largestTransaction _) _) as [s|] eqn:E1;
    simpl; [|done].
  intros E2. unfold running_minima in Hc.
  repeat (apply elem_of_cons in Hc as [->|Hc]); [..|by apply elem_of_nil in Hc].
  - apply loop_lower_le in E2.
    apply (loop_keeps smallestTransaction) in E1;
      [|intros ?? Hb; refine (raise_body_keeps _ _ _ _ _ _ Hb); discriminate].
    rewrite E1, AddInt64_other in E2 by discriminate. done.
  - apply (loop_keeps fastestTransaction) in E2;
      [|intros ?? Hb; refine (lower_body_keeps _ _ _ _ _ _ Hb); discriminate].
    apply (loop_keeps fastestTransaction) in E1;
      [|intros ?? Hb; refine (raise_body_keeps _ _ _ _ _ _ Hb); discriminate].
    rewrite E2, E1, AddInt64_other by discriminate. done.
Qed.

Lemma RecordProcessingTime_minima fuel d tc tc' c :
  c ∈ running_minima → RecordProcessingTime fuel d tc = Some tc' → tc' c ≤ tc c.
Proof.
  intros Hc. unfold RecordProcessingTime.
  destruct (loop fuel (average_body d) tc) as [s1|] eqn:E1; simpl; [|done].
  destruct (loop fuel (lower_body fastestTransaction d) s1) as [s2|] eqn:E2;
    simpl; [|done].
  intros E3. unfold running_minima in Hc.
  repeat (apply elem_of_cons in Hc as [->|Hc]); [..|by apply elem_of_nil in Hc].
  - apply (loop_keeps smallestTransaction) in E3;
      [|intros ?? Hb; refine (raise_body_keeps _ _ _ _ _ _ Hb); discriminate].
    apply (loop_keeps smallestTransaction) in E2;
      [|intros ?? Hb; refine (lower_body_keeps _ _ _ _ _ _ Hb); discriminate].
    apply (loop_keeps smallestTransaction) in E1;
      [|intros ?? Hb; refine (average_body_keeps _ _ _ _ _ Hb); discriminate].
    rewrite E3, E2, E1. done.
  - apply (loop_keeps fastestTransaction) in E3;
      [|intros ?? Hb; refine (raise_body_keeps _ _ _ _ _ _ Hb); discriminate].
    apply loop_lower_le in E2.
    apply (loop_keeps fastestTransaction) in E1;
      [|intros ?? Hb; refine (average_body_keeps _ _ _ _ _ Hb); discriminate].
    rewrite E3. rewrite E1 in E2. done.
Qed.

(** One operation other than [Reset] never raises a running minimum. *)
Lemma apply_minima_step fuel o tc tc' c :
  o ≠ OpReset → c ∈ running_minima →
  after (apply_op fuel o tc) = Some tc' → tc' c ≤ tc c.
Proof.
  intros Ho Hc Ha.
  assert (Hadd : ∀ a d s, a ∉ running_minima → AddInt64 a d s c = s c).
  { intros a d s Hn. apply AddInt64_other. by intros ->. }
  assert (Hty : ∀ ty s, IncrementTransactionType ty s c = s c).
  { intros ty s. unfold IncrementTransactionType.
    repeat match goal with |- context [if ?b then _ else _] => destruct b end;
      try done; apply Hadd; not_a_minimum. }
  assert (Her : ∀ e s, IncrementErrorType e s c = s c).
  { intros e s. unfold IncrementErrorType.
    repeat match goal with |- context [if ?b then _ else _] => destruct b end;
      try done; apply Hadd; not_a_minimum. }
  destruct o; simpl in Ha; try done.
  1-5,10: injection Ha as <-;
    unfold IncrementTotalTransactions, IncrementSuccessfulTransactions,
      IncrementFailedTransactions, IncrementPendingTransactions,
      DecrementPendingTransactions, IncrementRetryCount;
    rewrite Hadd; [done|not_a_minimum].
  - injection Ha as <-. by rewrite Hty.
  - destruct (AddAmountProcessed fuel amount tc) as [s|] eqn:E; [|done].
    injection Ha as <-. by apply (AddAmountProcessed_minima fuel amount).
  - destruct (RecordProcessingTime fuel duration tc) as [s|] eqn:E; [|done].
    injection Ha as <-. by apply (RecordProcessingTime_minima fuel duration).
  - injection Ha as <-. by rewrite Her.
  - unfold RecordTransaction in Ha.
    destruct transaction as [tx|].
    2:{ injection Ha as <-. unfold IncrementTotalTransactions.
        rewrite Hadd; [done|not_a_minimum]. }
    destruct (AddAmountProcessed fuel (tx_Amount tx) _) as [s1|] eqn:E1;
      simpl in Ha; [|done].
    destruct (RecordProcessingTime fuel processingTime s1) as [s2|] eqn:E2;
      simpl in Ha; [|done].
    pose proof (AddAmountProcessed_minima _ _ _ _ c Hc E1) as H1.
    pose proof (RecordProcessingTime_minima _ _ _ _ c Hc E2) as H2.
    rewrite Hty in H1. unfold IncrementTotalTransactions in H1.
    rewrite Hadd in H1 by (not_a_minimum).
    assert (s2 c ≤ tc c) as H3 by lia.
    destruct success; [|destruct err as [err|]]; injection Ha as <-;
      rewrite ?Her;
      unfold IncrementSuccessfulTransactions, IncrementFailedTransactions,
        DecrementPendingTransactions;
      rewrite !Hadd by (not_a_minimum); done.
Qed.

(** Over a sequence without [Reset], a running minimum never rises. *)
Lemma run_minima_antitone fuel ops :
  ∀ tc tc',
    Forall (λ o, o ≠ OpReset) ops →
    after (run fuel ops tc) = Some tc' →
    ∀ c, c ∈ running_minima → tc' c ≤ tc c.
Proof.
  induction ops as [|o ops IH]; intros tc tc' Hops Hr c Hc.
  - simpl in Hr. by injection Hr as <-.
  - apply Forall_cons in Hops as [Ho Hops]. simpl in Hr.
    destruct (apply_op fuel o tc) as [s|msg s|] eqn:E.
    + assert (s c ≤ tc c)
        by (apply (apply_minima_step fuel o); [done..|by rewrite E]).
      specialize (IH s tc' Hops Hr c Hc). lia.
    + simpl in Hr. injection Hr as <-.
      apply (apply_minima_step fuel o); [done..|by rewrite E].
    + done.
Qed.

(** [Reset] stores the initial value in every cell. *)
Lemma Reset_initial tc c : Reset tc c = NewTransactionCounters c.
Proof. by destruct c. Qed.

Lemma run_outcome_invariant fuel ops :
  ∀ tc tc',
    Forall (λ o, o ≠ OpIncrementSuccessfulTransactions
                 ∧ o ≠ OpIncrementFailedTransactions) ops →
    0 ≤ tc successfulTransactions → 0 ≤ tc failedTransactions →
    tc successfulTransactions + tc failedTransactions ≤ tc totalTransactions →
    tc totalTransactions + Z.of_nat (length ops) ≤ max_int64 →
    after (run fuel ops tc) = Some tc' →
    tc' successfulTransactions + tc' failedTransactions ≤ tc' totalTransactions.
Proof.
  induction ops as [|o ops IH]; intros tc tc' Hops Hs Hf Hinv Hmax Hr.
  - simpl in Hr. by injection Hr as <-.
  - apply Forall_cons in Hops as [[Ho1 Ho2] Hops]. rewrite length_cons in Hmax.
    assert (Hstep : ∀ s, after (apply_op fuel o tc) = Some s →
              0 ≤ s successfulTransactions ∧ 0 ≤ s failedTransactions
              ∧ s successfulTransactions + s failedTransactions ≤ s totalTransactions
              ∧ s totalTransactions ≤ tc totalTransactions + 1).
    { intros s Hs'. apply (apply_outcome_step fuel o tc s); try done. lia. }
    simpl in Hr.
    destruct (apply_op fuel o tc) as [s|msg s|] eqn:E.
    + destruct (Hstep s eq_refl) as (H1 & H2 & H3 & H4).
      apply (IH s tc'); try done. lia.
    + simpl in Hr. injection Hr as <-. by destruct (Hstep s eq_refl) as (_ & _ & ? & _).
    + done.
Qed.

(** C8 (as amended). Over any sequence of counter operations that leaves a
    state and stays below the largest [int64]: provided the sequence holds
    no [Reset], every event counter (total, successful, failed, the three
    per-type counts, the three error-class counts, the retry count) and
    every running maximum (largest amount, slowest time) ends no lower
    than it started, and every running minimum (smallest amount, fastest
    time) ends no higher than it started; [Reset] puts every counter back
    to the value a new set of counters has; and [successful + failed ≤
    total] is kept, provided the successful and failed counters are
    advanced through [RecordTransaction] only.  The pending counter, the
    total amount and the average time are not monotone (see
    [counters_not_all_monotone]). *)
Theorem counters_monotone_and_bounded fuel ops tc tc' :
  (∀ c, c ∈ event_counters →
        0 ≤ tc c ∧ tc c + Z.of_nat (length ops) ≤ max_int64) →
  after (run fuel ops tc) = Some tc' →
  (Forall (λ o, o ≠ OpReset) ops →
   (∀ c, c ∈ event_counters ++ running_maxima → tc c ≤ tc' c)
   ∧ (∀ c, c ∈ running_minima → tc' c ≤ tc c))
  ∧ (∃ tc'', after (apply_op fuel OpReset tc') = Some tc''
             ∧ ∀ c, tc'' c = NewTransactionCounters c)
  ∧ (Forall (λ o, o ≠ OpIncrementSuccessfulTransactions
                  ∧ o ≠ OpIncrementFailedTransactions) ops →
     tc successfulTransactions + tc failedTransactions ≤ tc totalTransactions →
     tc' successfulTransactions + tc' failedTransactions ≤ tc' totalTransactions).
Proof.
  intros Hb Hr. split; [|split].
  - intros Hops. split.
    + intros c Hc. apply elem_of_app in Hc as [Hc|Hc].
      * by destruct (run_event_bounds fuel ops tc tc' Hops Hb Hr c Hc).
      * by apply (run_maxima_monotone fuel ops tc tc' Hops Hr c Hc).
    + intros c Hc. by apply (run_minima_antitone fuel ops tc tc' Hops Hr c Hc).
  - exists (Reset tc'). split; [done|]. apply Reset_initial.
  - intros Hops Hinv.
    apply (run_outcome_invariant fuel ops tc tc'); try done.
    + apply (Hb successfulTransactions). in_list.
    + apply (Hb failedTransactions). in_list.
    + apply (Hb totalTransactions). in_list.
Qed.

Lemma counters_monotone_and_bounded_witness :
  ((∀ c, c ∈ event_counters ++ running_maxima →
         NewTransactionCounters c ≤ sample_counters c)
   ∧ (∀ c, c ∈ running_minima →
           sample_counters c ≤ NewTransactionCounters c))
  ∧ sample_counters successfulTransactions + sample_counters failedTransactions
    ≤ sample_counters totalTransactions.
Proof.
  assert (Hb : ∀ c, c ∈ event_counters →
            0 ≤ NewTransactionCounters c
            ∧ NewTransactionCounters c + Z.of_nat (length sample_ops) ≤ max_int64).
  { intros c Hc. unfold event_counters in Hc.
    repeat (apply elem_of_cons in Hc as [->|Hc]); [..|by apply elem_of_nil in Hc];
      vm_compute; split; discriminate. }
  assert (Hr : after (run 1 sample_ops NewTransactionCounters) = Some sample_counters)
    by reflexivity.
  destruct (counters_monotone_and_bounded 1 sample_ops NewTransactionCounters
              sample_counters Hb Hr) as (Hmono & _ & Hinv).
  split.
  - apply Hmono. unfold sample_ops. repeat constructor; discriminate.
  - apply Hinv.
    + unfold sample_ops. repeat constructor; discriminate.
    + vm_compute. discriminate.
Defined.

(** The sample sequence counts two transactions, one successful, one
    failed for insufficient balance, one retry; its pending counter ends
    below zero. *)
Example sample_counters_values :
  sample_counters totalTransactions = 2
  ∧ sample_counters successfulTransactions = 1
  ∧ sample_counters failedTransactions = 1
  ∧ sample_counters depositCount = 2
  ∧ sample_counters insufficientBalanceErrors = 1
  ∧ sample_counters retryCount = 1
  ∧ sample_counters pendingTransactions = -3.
Proof. vm_compute. repeat split; reflexivity. Qed.

(** C8 (as stated) fails: after one submission, the decrement lowers the
    pending counter from 1 to 0; the first amount recorded lowers the
    smallest-transaction counter from its initial value; [Reset] takes a
    total of 1 back to 0; a bare [IncrementSuccessfulTransactions] leaves
    successful + failed = 1 above total = 0; an amount below zero lowers
    the total amount processed; and a second successful transaction that
    took 2 ns after a first that took 10 ns lowers the average processing
    time from 10 to 6. *)
Lemma counters_not_all_monotone :
  let tc1 := IncrementPendingTransactions NewTransactionCounters in
  let tc2 := IncrementTotalTransactions NewTransactionCounters in
  (∃ tc', after (run 0 [OpDecrementPendingTransactions] tc1) = Some tc'
          ∧ tc' pendingTransactions < tc1 pendingTransactions)
  ∧ (∃ tc', after (run 1 [OpAddAmountProcessed 1000] NewTransactionCounters)
            = Some tc'
            ∧ tc' smallestTransaction < NewTransactionCounters smallestTransaction)
  ∧ (∃ tc', after (run 0 [OpReset] tc2) = Some tc'
            ∧ tc' totalTransactions < tc2 totalTransactions)
  ∧ (∃ tc', after (run 0 [OpIncrementSuccessfulTransactions] NewTransactionCounters)
            = Some tc'
            ∧ ¬ (tc' successfulTransactions + tc' failedTransactions
                 ≤ tc' totalTransactions))
  ∧ (∃ tc', after (run 1 [OpAddAmountProcessed (-500)] NewTransactionCounters)
            = Some tc'
            ∧ tc' totalAmountProcessed
              < NewTransactionCounters totalAmountProcessed)
  ∧ (∃ tc' tc'',
       after (run 1 [OpRecordTransaction (Some sample_deposit) true 10 None]
                NewTransactionCounters) = Some tc'
       ∧ after (run 1 [OpRecordTransaction (Some sample_deposit) true 2 None] tc')
         = Some tc''
       ∧ tc' averageProcessingTime = 10 ∧ tc'' averageProcessingTime = 6
       ∧ tc'' averageProcessingTime < tc' averageProcessingTime).
Proof.
  split; [|split; [|split; [|split; [|split]]]].
  1-5: eexists; (split; [reflexivity|]); vm_compute; congruence.
  eexists _, _. split; [reflexivity|]. split; [reflexivity|].
  vm_compute. repeat split; congruence.
Qed.

(** When the average is set while no transaction has succeeded, the loop
    that updates it never breaks: however many iterations are granted,
    [RecordProcessingTime] does not return. *)
Lemma RecordProcessingTime_spins fuel d tc :
  tc successfulTransactions = 0 → tc averageProcessingTime ≠ 0 →
  RecordProcessingTime fuel d tc = None.
Proof.
  intros Hs Ha. unfold RecordProcessingTime.
  assert (loop fuel (average_body d) tc = None) as ->; [|done].
  induction fuel as [|fuel IH]; simpl; [done|].
  unfold average_body at 1, LoadInt64, CompareAndSwapInt64. rewrite Hs. simpl.
  destruct (tc averageProcessingTime =? 0) eqn:E; [lia|]. exact IH.
Qed.

(** With one iteration granted to each loop, [AddAmountProcessed] returns. *)
Lemma AddAmountProcessed_returns fuel a tc :
  is_Some (AddAmountProcessed (S fuel) a tc).
Proof.
  unfold AddAmountProcessed. generalize (amountInCents a). clear a. intros a.
  simpl.
  unfold raise_body at 1, LoadInt64, CompareAndSwapInt64.
  match goal with |- context [a <=? ?x] => destruct (a <=? x) end; simpl.
  - unfold lower_body at 1, LoadInt64, CompareAndSwapInt64.
    match goal with |- context [?x <=? a] => destruct (x <=? a) end; simpl; [eauto|].
    rewrite Z.eqb_refl. eauto.
  - rewrite Z.eqb_refl. simpl.
    unfold lower_body at 1, LoadInt64, CompareAndSwapInt64.
    match goal with |- context [?x <=? a] => destruct (x <=? a) end; simpl; [eauto|].
    rewrite Z.eqb_refl. eauto.
Qed.

(** ** The worker pool *)

(** C5. The counter-recording step of [processResults] is not total: for
    every result taken from the results channel it calls
    [RecordTransaction] with a nil transaction, which counts the total and
    then panics with a nil-pointer dereference on reading the type of the
    transaction; no result is ever recorded to the end. *)
Theorem processResults_record_panics fuel result rest wp :
  WorkerPool.processResults_record fuel result wp
  = Panics nil_dereference (IncrementTotalTransactions (WorkerPool.counters wp))
  ∧ WorkerPool.processResults_loop fuel (result :: rest) wp
    = inr (Panics nil_dereference
             (IncrementTotalTransactions (WorkerPool.counters wp))).
Proof. done. Qed.

(** The result [processJob] publishes for the sample job, and what
    recording it does. *)
Example processResults_sample_panics :
  let result := WorkerPool.processJob_result sample_job None 1010 10 in
  let wp := WorkerPool.mk [] [result] 1 false NewTransactionCounters in
  WorkerPool.Success result = true
  ∧ WorkerPool.processResults 1 wp
    = inr (Panics nil_dereference (IncrementTotalTransactions NewTransactionCounters)).
Proof. done. Qed.

Lemma can_send_room wp :
  WorkerPool.can_send wp = true
  ↔ (length (WorkerPool.jobQueue wp) < WorkerPool.maxQueueSize wp)%nat.
Proof. unfold WorkerPool.can_send. apply bool_decide_eq_true. Qed.

(** C6 (as amended). When the backoff timer fires, the re-enqueue respects
    the capacity of the queue but has no queue-full failure: it sends, and
    counts the retry, only when the queue has room; it is abandoned only
    when the pool context is done; and with a full queue and a running
    pool it does neither: it blocks until one of the two happens. *)
Theorem handleRetry_timer_blocks_when_full pick job wp :
  match WorkerPool.handleRetry_timer pick job wp with
  | WorkerPool.Requeued wp' =>
      (length (WorkerPool.jobQueue wp) < WorkerPool.maxQueueSize wp)%nat
      ∧ WorkerPool.jobQueue wp' = WorkerPool.jobQueue wp ++ [job]
      ∧ (length (WorkerPool.jobQueue wp') ≤ WorkerPool.maxQueueSize wp')%nat
      ∧ WorkerPool.counters wp' = IncrementRetryCount (WorkerPool.counters wp)
  | WorkerPool.Abandoned wp' => WorkerPool.done wp = true ∧ wp' = wp
  | WorkerPool.Blocked =>
      (WorkerPool.maxQueueSize wp ≤ length (WorkerPool.jobQueue wp))%nat
      ∧ WorkerPool.done wp = false
  end
  ∧ ((WorkerPool.maxQueueSize wp ≤ length (WorkerPool.jobQueue wp))%nat →
     WorkerPool.done wp = false →
     WorkerPool.handleRetry_timer pick job wp = WorkerPool.Blocked
     ∧ WorkerPool.SubmitJob pick job wp = (Some WorkerPool.ErrQueueFull, wp)).
Proof.
  unfold WorkerPool.handleRetry_timer, WorkerPool.SubmitJob.
  pose proof (can_send_room wp) as Hroom.
  destruct (WorkerPool.can_send wp) eqn:Hc.
  - assert (length (WorkerPool.jobQueue wp) < WorkerPool.maxQueueSize wp)%nat as Hlt
      by by apply Hroom.
    split; [|lia].
    destruct (WorkerPool.done wp), pick; simpl; rewrite ?length_app; simpl;
      repeat split; try done; lia.
  - assert (¬ (length (WorkerPool.jobQueue wp) < WorkerPool.maxQueueSize wp)%nat) as Hge.
    { intros H. apply Hroom in H. done. }
    destruct (WorkerPool.done wp); simpl; repeat split; try done; lia.
Qed.

Lemma handleRetry_timer_blocks_when_full_witness :
  WorkerPool.handleRetry_timer true sample_job sample_pool_full = WorkerPool.Blocked
  ∧ WorkerPool.SubmitJob true sample_job sample_pool_full
    = (Some WorkerPool.ErrQueueFull, sample_pool_full).
Proof.
  apply (handleRetry_timer_blocks_when_full true sample_job sample_pool_full);
    [vm_compute; lia | reflexivity].
Defined.

(** C6 (as stated) fails: with the queue of capacity one full and the pool
    running, first-time submission fails at once with the queue-full
    error, while the retry neither fails nor sends: it blocks. *)
Lemma retry_blocks_on_full_queue :
  WorkerPool.SubmitJob true sample_job sample_pool_full
  = (Some WorkerPool.ErrQueueFull, sample_pool_full)
  ∧ WorkerPool.handleRetry_timer true (WorkerPool.handleRetry sample_job).1
      sample_pool_full = WorkerPool.Blocked
  ∧ WorkerPool.handleRetry_timer false (WorkerPool.handleRetry sample_job).1
      sample_pool_full = WorkerPool.Blocked.
Proof. done. Qed.

(** The backoff of the first retries: 1 s, 4 s, 9 s, and the cap of 30 s. *)
Example handleRetry_backoff :
  let retried n := WorkerPool.mkJob "job-1" "credit" uuid_Nil "bob" 1000 n 3 1000 in
  (WorkerPool.handleRetry (retried 0)).2 = 1 * WorkerPool.second
  ∧ (WorkerPool.handleRetry (retried 1)).2 = 4 * WorkerPool.second
  ∧ (WorkerPool.handleRetry (retried 2)).2 = 9 * WorkerPool.second
  ∧ (WorkerPool.handleRetry (retried 5)).2 = 30 * WorkerPool.second.
Proof. vm_compute. repeat split; reflexivity. Qed.

(** ** The handlers *)

(** Every row [GetBalanceHistory] builds carries the amount 0. *)
Lemma GetBalanceHistory_amounts_zero bs accountID w :
  Forall (λ entry, bh_NewAmount entry = 0)
    (BalanceService.GetBalanceHistory bs accountID w).
Proof.
  unfold BalanceService.GetBalanceHistory.
  destruct (BalanceService.auditService bs); [|constructor].
  apply Forall_forall. intros entry Hin.
  apply list_elem_of_omap in Hin as (log & _ & Hlog).
  destruct (_ || _) in Hlog; [|done]. by injection Hlog as <-.
Qed.

Lemma scan_history_zero history timestamp :
  Forall (λ entry, bh_NewAmount entry = 0) history →
  (Handlers.scan_history history timestamp).1 = 0.
Proof.
  unfold Handlers.scan_history.
  assert (∀ acc : Z * bool, acc.1 = 0 →
            Forall (λ entry, bh_NewAmount entry = 0) history →
            (fold_left
               (λ '(balanceAtTime, found) entry,
                  if bh_CreatedAt entry <=? timestamp
                  then (bh_NewAmount entry, true)
                  else (balanceAtTime, found)) history acc).1 = 0) as H.
  { induction history as [|e l IH]; intros [b fnd] Hacc Hall; simpl; [done|].
    apply Forall_cons in Hall as [He Hl].
    apply IH; [|done]. destruct (bh_CreatedAt e <=? timestamp); done. }
  intros Hall. by apply H.
Qed.

(** C7. [GetBalanceAtTime] does not return the new amount of the latest
    history row at or before the timestamp.  bob starts at 5.00 and is
    credited 100.00 at time 1000 and 50.00 at time 2000, so the balance
    history table holds the new amounts 105.00 and 155.00.  The handler
    reads the audit log instead, whose rows carry no amount, and answers 0
    (calculated) at time 1500 and at time 2500; on the rows of the table
    in the [created_at DESC] order of the repository its loop would stop
    on the oldest row, 105.00, not the latest.  Only the fallback holds:
    before the first row, at time 500, it returns the current balance. *)
Theorem GetBalanceAtTime_ignores_amounts :
  let w := sample_history_world in
  map (λ h, (bh_CreatedAt h, bh_NewAmount h)) (balance_history (db w))
  = [(1000, 10500); (2000, 15500)]
  ∧ balances (db w) !! "bob" = Some 15500
  ∧ (Handlers.GetBalanceAtTime sample_bs "bob" 1500 w).1 = inr (0, true)
  ∧ (Handlers.GetBalanceAtTime sample_bs "bob" 2500 w).1 = inr (0, true)
  ∧ Handlers.scan_history (reverse (balance_history (db w))) 2500 = (10500, true)
  ∧ (Handlers.GetBalanceAtTime sample_bs "bob" 500 w).1 = inr (15500, false).
Proof. vm_compute. repeat split; reflexivity. Qed.

(** Whenever the handler finds a row it answers 0, whatever the account
    held at that time. *)
Lemma GetBalanceAtTime_found_is_zero bs userID timestamp w balance :
  (Handlers.GetBalanceAtTime bs userID timestamp w).1 = inr (balance, true) →
  balance = 0.
Proof.
  unfold Handlers.GetBalanceAtTime.
  pose proof (scan_history_zero _ timestamp
                (GetBalanceHistory_amounts_zero bs userID w)) as Hz.
  destruct (Handlers.scan_history _ timestamp) as [b fnd]. simpl in Hz. subst b.
  destruct fnd; simpl; [by intros [= <-]|].
  destruct (BalanceService.GetBalance bs userID w) as [[e|b] w']; simpl; congruence.
Qed.

(** C9 (as amended). The effective limit of the transaction-history read
    path is the requested value when it parses to an integer in [1, 100]
    and the default 50 otherwise: absent, not a number, at most 0, or
    above 100 (there is no clamping); the effective offset is the
    requested value when it parses to an integer ≥ 0 and 0 otherwise. *)
Theorem GetTransactionHistory_pagination q :
  Handlers.GetTransactionHistory_limit q
  = match q !! "limit" ≫= Handlers.Atoi with
    | Some n => if bool_decide (1 ≤ n ≤ 100) then n else 50
    | None => 50
    end
  ∧ Handlers.GetTransactionHistory_offset q
    = match q !! "offset" ≫= Handlers.Atoi with
      | Some n => if bool_decide (0 ≤ n) then n else 0
      | None => 0
      end
  ∧ 1 ≤ Handlers.GetTransactionHistory_limit q ≤ 100
  ∧ 0 ≤ Handlers.GetTransactionHistory_offset q.
Proof.
  assert (Hl : Handlers.GetTransactionHistory_limit q
               = match q !! "limit" ≫= Handlers.Atoi with
                 | Some n => if bool_decide (1 ≤ n ≤ 100) then n else 50
                 | None => 50
                 end).
  { unfold Handlers.GetTransactionHistory_limit, Handlers.DefaultQuery.
    destruct (q !! "limit") as [s|]; simpl; [|done].
    destruct (Handlers.Atoi s) as [n|]; [|done].
    destruct (n <=? 0) eqn:E1; simpl.
    - rewrite bool_decide_eq_false_2; [done|lia].
    - destruct (100 <? n) eqn:E2.
      + rewrite bool_decide_eq_false_2; [done|lia].
      + rewrite bool_decide_eq_true_2; [done|lia]. }
  assert (Ho : Handlers.GetTransactionHistory_offset q
               = match q !! "offset" ≫= Handlers.Atoi with
                 | Some n => if bool_decide (0 ≤ n) then n else 0
                 | None => 0
                 end).
  { unfold Handlers.GetTransactionHistory_offset, Handlers.DefaultQuery.
    destruct (q !! "offset") as [s|]; simpl; [|done].
    destruct (Handlers.Atoi s) as [n|]; [|done].
    destruct (n <? 0) eqn:E1.
    - rewrite bool_decide_eq_false_2; [done|lia].
    - rewrite bool_decide_eq_true_2; [done|lia]. }
  split; [done|]. split; [done|]. rewrite Hl, Ho.
  split.
  - destruct (q !! "limit" ≫= Handlers.Atoi) as [n|]; [|lia].
    case_bool_decide; lia.
  - destruct (q !! "offset" ≫= Handlers.Atoi) as [n|]; [|lia].
    case_bool_decide; lia.
Qed.

(** C9 (as stated) fails: a requested limit of 200 gives 50, not 100, and
    a requested limit of 0 gives 50, not 1. *)
Lemma limit_is_not_clamped :
  Handlers.GetTransactionHistory_limit {["limit" := "200"]} = 50
  ∧ Handlers.GetTransactionHistory_limit {["limit" := "200"]} ≠ 100
  ∧ Handlers.GetTransactionHistory_limit {["limit" := "0"]} = 50
  ∧ Handlers.GetTransactionHistory_limit {["limit" := "0"]} ≠ 1.
Proof. vm_compute. repeat split; congruence. Qed.

(** Requests inside the interval, the defaults, and refused requests. *)
Example pagination_samples :
  Handlers.GetTransactionHistory_limit {["limit" := "100"]} = 100
  ∧ Handlers.GetTransactionHistory_limit {["limit" := "1"]} = 1
  ∧ Handlers.GetTransactionHistory_limit ∅ = 50
  ∧ Handlers.GetTransactionHistory_limit {["limit" := "-5"]} = 50
  ∧ Handlers.GetTransactionHistory_limit {["limit" := "ten"]} = 50
  ∧ Handlers.GetTransactionHistory_offset {["offset" := "20"]} = 20
  ∧ Handlers.GetTransactionHistory_offset {["offset" := "-1"]} = 0
  ∧ Handlers.GetTransactionHistory_offset ∅ = 0.
Proof. vm_compute. repeat split; reflexivity. Qed.

(** * Further properties *)

(** ** The mutation primitives, outcome by outcome *)

Lemma Credit_outcome ts f U x w :
  let r := TransactionService.Credit ts f U x w in
  balance_history (db r.2) = balance_history (db w)
  ∧ ((is_Some r.1
      ∧ balances (db r.2) = balances (db w)
      ∧ transactions (db r.2) = transactions (db w))
     ∨ (∃ b,
          r.1 = None ∧ 0 < x
          ∧ transactions (db w) !! new_uuid f = None
          ∧ balances (db w) !! U = Some b
          ∧ balances (db r.2) = <[U := b + x]> (balances (db w))
          ∧ transactions (db r.2)
            = <[new_uuid f :=
                  mkTransaction (new_uuid f) None (Some U) x
                    TransactionTypeDeposit TransactionStatusCompleted
                    "Credit transaction" (now f)]> (transactions (db w)))).
Proof.
  intros r. subst r. unfold TransactionService.Credit.
  destruct (x <=? 0) eqn:Hx0; [simpl; split; [done|left; eauto]|].
  match goal with
  | |- context [TransactionService.finish ?ts ?f ?t ?a ?b ?c ?r ?w] =>
      destruct (finish_tables ts f t a b c r w) as (E1 & E2 & E3 & E4 & _);
      rewrite E1, E2, E3, E4; clear E1 E2 E3 E4
  end.
  tx_unfold.
  destruct (transactions (db w) !! new_uuid f) eqn:Hid; simpl.
  { split; [done|left; eauto]. }
  destruct (balances (db w) !! U) as [b|] eqn:HU; simpl.
  2:{ split; [done|left; eauto]. }
  split; [done|]. right. exists b.
  rewrite (alter_alt_Some _ _ _ _ HU), alter_insert_eq.
  repeat split; try done. lia.
Qed.

Lemma Debit_outcome ts f U x w :
  let r := TransactionService.Debit ts f U x w in
  balance_history (db r.2) = balance_history (db w)
  ∧ ((is_Some r.1
      ∧ balances (db r.2) = balances (db w)
      ∧ transactions (db r.2) = transactions (db w))
     ∨ (∃ b,
          r.1 = None ∧ 0 < x ∧ x ≤ b
          ∧ transactions (db w) !! new_uuid f = None
          ∧ balances (db w) !! U = Some b
          ∧ balances (db r.2) = <[U := b - x]> (balances (db w))
          ∧ transactions (db r.2)
            = <[new_uuid f :=
                  mkTransaction (new_uuid f) (Some U) None x
                    TransactionTypeWithdraw TransactionStatusCompleted
                    "Debit transaction" (now f)]> (transactions (db w)))).
Proof.
  intros r. subst r. unfold TransactionService.Debit.
  destruct (x <=? 0) eqn:Hx0; [simpl; split; [done|left; eauto]|].
  match goal with
  | |- context [TransactionService.finish ?ts ?f ?t ?a ?b ?c ?r ?w] =>
      destruct (finish_tables ts f t a b c r w) as (E1 & E2 & E3 & E4 & _);
      rewrite E1, E2, E3, E4; clear E1 E2 E3 E4
  end.
  tx_unfold.
  destruct (transactions (db w) !! new_uuid f) eqn:Hid; simpl.
  { split; [done|left; eauto]. }
  destruct (balances (db w) !! U) as [b|] eqn:HU; simpl.
  2:{ split; [done|left; eauto]. }
  destruct (b <? x) eqn:Hbx; simpl.
  { split; [done|left; eauto]. }
  split; [done|]. right. exists b.
  rewrite (alter_alt_Some _ _ _ _ HU), alter_insert_eq.
  repeat split; try done; lia.
Qed.

Lemma Transfer_outcome ts f A B x w :
  let r := TransactionService.Transfer ts f A B x w in
  balance_history (db r.2) = balance_history (db w)
  ∧ ((is_Some r.1
      ∧ balances (db r.2) = balances (db w)
      ∧ transactions (db r.2) = transactions (db w))
     ∨ (∃ a b,
          r.1 = None ∧ A ≠ B ∧ 0 < x ∧ x ≤ a
          ∧ transactions (db w) !! new_uuid f = None
          ∧ balances (db w) !! A = Some a
          ∧ balances (db w) !! B = Some b
          ∧ balances (db r.2) = <[B := b + x]> (<[A := a - x]> (balances (db w)))
          ∧ transactions (db r.2)
            = <[new_uuid f :=
                  mkTransaction (new_uuid f) (Some A) (Some B) x
                    TransactionTypeTransfer TransactionStatusCompleted
                    "Transfer transaction" (now f)]> (transactions (db w)))).
Proof.
  intros r. subst r.
  destruct (decide (A = B)) as [->|HAB].
  { unfold TransactionService.Transfer. rewrite bool_decide_eq_true_2 by done.
    simpl. split; [done|left; eauto]. }
  destruct (decide (0 < x)) as [Hx|Hx].
  2:{ unfold TransactionService.Transfer. rewrite bool_decide_eq_false_2 by done.
      destruct (x <=? 0) eqn:Hx0; [|lia]. simpl. split; [done|left; eauto]. }
  destruct (Transfer_cases ts f A B x w HAB Hx)
    as [(Hs & Eb & Et & Eh)|(a & b & Hn & Hid & HA & HB & Hle & Eb & Et & Eh)].
  - split; [done|left; eauto].
  - split; [done|]. right. exists a, b.
    rewrite Eb, Et, alter_insert_eq.
    rewrite (alter_alt_Some _ _ _ _ HA).
    rewrite (alter_alt_Some _ (<[A:=a + - x]> (balances (db w))) B b)
      by (by rewrite lookup_insert_ne).
    repeat split; done.
Qed.

(** X1. In a serial execution (a call runs to its end before the next one
    starts), on amounts of whole minor units and balances inside the range
    of the column, non-negative balances are an invariant of the three
    primitives: when no stored balance is negative before [Credit],
    [Debit] or [Transfer], none is negative after it, whether the call
    succeeded or failed. *)
Theorem primitives_keep_balances_nonnegative ts f A B x w :
  map_Forall (λ _ b, 0 ≤ b) (balances (db w)) →
  map_Forall (λ _ b, 0 ≤ b)
    (balances (db (TransactionService.Credit ts f A x w).2))
  ∧ map_Forall (λ _ b, 0 ≤ b)
      (balances (db (TransactionService.Debit ts f A x w).2))
  ∧ map_Forall (λ _ b, 0 ≤ b)
      (balances (db (TransactionService.Transfer ts f A B x w).2)).
Proof.
  intros Hnn. repeat split.
  - destruct (Credit_outcome ts f A x w) as (_ & [(_ & -> & _)|(b & _ & Hx & _ & Hb & -> & _)]);
      [done|].
    apply map_Forall_insert_2; [|done].
    pose proof (map_Forall_lookup_1 _ _ _ _ Hnn Hb). simpl in *. lia.
  - destruct (Debit_outcome ts f A x w) as (_ & [(_ & -> & _)|(b & _ & Hx & Hle & _ & Hb & -> & _)]);
      [done|].
    apply map_Forall_insert_2; [lia|done].
  - destruct (Transfer_outcome ts f A B x w)
      as (_ & [(_ & -> & _)|(a & b & _ & _ & Hx & Hle & _ & Ha & Hb & -> & _)]);
      [done|].
    apply map_Forall_insert_2.
    + pose proof (map_Forall_lookup_1 _ _ _ _ Hnn Hb). simpl in *. lia.
    + apply map_Forall_insert_2; [lia|done].
Qed.

Lemma sample_balances_nonnegative :
  map_Forall (λ (_ : string) b, 0 ≤ b) (balances (db sample_world)).
Proof.
  unfold sample_world, sample_db. simpl.
  repeat (apply map_Forall_insert_2; [lia|]). apply map_Forall_empty.
Qed.

Lemma primitives_keep_balances_nonnegative_witness :
  map_Forall (λ _ b, 0 ≤ b)
    (balances (db (TransactionService.Credit sample_ts sample_fresh "alice" 1000
                     sample_world).2))
  ∧ map_Forall (λ _ b, 0 ≤ b)
      (balances (db (TransactionService.Debit sample_ts sample_fresh "alice" 1000
                       sample_world).2))
  ∧ map_Forall (λ _ b, 0 ≤ b)
      (balances (db (TransactionService.Transfer sample_ts sample_fresh "alice"
                       "bob" 1000 sample_world).2)).
Proof.
  apply (primitives_keep_balances_nonnegative sample_ts sample_fresh "alice"
           "bob" 1000 sample_world).
  apply sample_balances_nonnegative.
Defined.



(** X4. A credit followed by a debit of the same amount gives the balances
    back, when the amount is a whole number of minor units (at most two
    decimals) and amount and balances stay inside the range of the column:
    for a positive amount, two new and distinct ledger ids and an account
    whose balance is not negative, both calls return nil and the balance
    table ends equal to the one at the start, while the ledger keeps both
    completed rows. *)
Theorem Credit_then_Debit_restores ts f1 f2 U x w b :
  0 < x → 0 ≤ b →
  balances (db w) !! U = Some b →
  transactions (db w) !! new_uuid f1 = None →
  transactions (db w) !! new_uuid f2 = None →
  new_uuid f1 ≠ new_uuid f2 →
  let c := TransactionService.Credit ts f1 U x w in
  let d := TransactionService.Debit ts f2 U x c.2 in
  c.1 = None ∧ d.1 = None
  ∧ balances (db d.2) = balances (db w)
  ∧ (tx_Status <$> transactions (db d.2) !! new_uuid f1) = Some TransactionStatusCompleted
  ∧ (tx_Status <$> transactions (db d.2) !! new_uuid f2) = Some TransactionStatusCompleted.
Proof.
  intros Hx Hb HU Hid1 Hid2 Hne c d. subst c d.
  destruct (Credit_outcome ts f1 U x w)
    as (_ & [(Hs & _)|(b' & Hn & _ & _ & Hb' & Eb & Et)]).
  { destruct (Credit_succeeds ts f1 U x w b Hx Hid1 HU) as (Hn & _).
    rewrite Hn in Hs. by destruct Hs. }
  assert (b' = b) as -> by congruence.
  set (w1 := (TransactionService.Credit ts f1 U x w).2) in *.
  assert (Hid2' : transactions (db w1) !! new_uuid f2 = None)
    by (by rewrite Et, lookup_insert_ne).
  assert (HU' : balances (db w1) !! U = Some (b + x))
    by (by rewrite Eb, lookup_insert_eq).
  destruct (Debit_outcome ts f2 U x w1)
    as (_ & [(Hs & _)|(b2 & Hn2 & _ & _ & _ & Hb2 & Eb2 & Et2)]).
  { destruct (Debit_succeeds ts f2 U x w1 (b + x) Hx Hid2' HU' ltac:(lia)) as (Hn2 & _).
    rewrite Hn2 in Hs. by destruct Hs. }
  assert (b2 = b + x) as -> by congruence.
  split; [done|]. split; [done|]. split.
  - rewrite Eb2, Eb, insert_insert_eq.
    replace (b + x - x) with b by lia. by apply insert_id.
  - rewrite Et2, Et. split.
    + rewrite lookup_insert_ne by done. by rewrite lookup_insert_eq.
    + by rewrite lookup_insert_eq.
Qed.

Lemma Credit_then_Debit_restores_witness :
  let c := TransactionService.Credit sample_ts sample_fresh "bob" 2500 sample_world in
  let d := TransactionService.Debit sample_ts sample_fresh2 "bob" 2500 c.2 in
  c.1 = None ∧ d.1 = None
  ∧ balances (db d.2) = balances (db sample_world)
  ∧ (tx_Status <$> transactions (db d.2) !! new_uuid sample_fresh)
    = Some TransactionStatusCompleted
  ∧ (tx_Status <$> transactions (db d.2) !! new_uuid sample_fresh2)
    = Some TransactionStatusCompleted.
Proof.
  apply (Credit_then_Debit_restores sample_ts sample_fresh sample_fresh2 "bob"
           2500 sample_world 500);
    [lia | lia | reflexivity | reflexivity | reflexivity | discriminate].
Defined.

(** X5. A transfer from A to B followed by a transfer of the same amount
    from B to A gives the balances back, when the amount is a whole number
    of minor units (at most two decimals) and amount and balances stay
    inside the range of the column: for distinct accounts, a positive
    amount the sender covers, a receiver whose balance is not negative and
    two new and distinct ledger ids, both calls return nil and the balance
    table ends equal to the one at the start. *)
Theorem Transfer_there_and_back ts f1 f2 A B x w a b :
  A ≠ B → 0 < x → x ≤ a → 0 ≤ b →
  balances (db w) !! A = Some a →
  balances (db w) !! B = Some b →
  transactions (db w) !! new_uuid f1 = None →
  transactions (db w) !! new_uuid f2 = None →
  new_uuid f1 ≠ new_uuid f2 →
  let t1 := TransactionService.Transfer ts f1 A B x w in
  let t2 := TransactionService.Transfer ts f2 B A x t1.2 in
  t1.1 = None ∧ t2.1 = None ∧ balances (db t2.2) = balances (db w).
Proof.
  intros HAB Hx Hle Hb HA HB Hid1 Hid2 Hne t1 t2. subst t1 t2.
  pose proof (Transfer_succeeds ts f1 A B x w a b HAB Hx Hid1 HA HB Hle) as Hn1.
  destruct (Transfer_outcome ts f1 A B x w)
    as (_ & [(Hs & _)|(a' & b' & _ & _ & _ & _ & _ & HA' & HB' & Eb & Et)]).
  { rewrite Hn1 in Hs. by destruct Hs. }
  assert (a' = a) as -> by congruence. assert (b' = b) as -> by congruence.
  set (w1 := (TransactionService.Transfer ts f1 A B x w).2) in *.
  assert (Hid2' : transactions (db w1) !! new_uuid f2 = None)
    by (by rewrite Et, lookup_insert_ne).
  assert (HB1 : balances (db w1) !! B = Some (b + x))
    by (by rewrite Eb, lookup_insert_eq).
  assert (HA1 : balances (db w1) !! A = Some (a - x)).
  { rewrite Eb, lookup_insert_ne by done. by rewrite lookup_insert_eq. }
  pose proof (Transfer_succeeds ts f2 B A x w1 (b + x) (a - x)
                (not_eq_sym HAB) Hx Hid2' HB1 HA1 ltac:(lia)) as Hn2.
  destruct (Transfer_outcome ts f2 B A x w1)
    as (_ & [(Hs & _)|(b2 & a2 & _ & _ & _ & _ & _ & HB2 & HA2 & Eb2 & _)]).
  { rewrite Hn2 in Hs. by destruct Hs. }
  assert (b2 = b + x) as -> by congruence.
  assert (a2 = a - x) as -> by congruence.
  split; [done|]. split; [done|].
  rewrite Eb2, Eb. apply map_eq. intros u.
  destruct (decide (u = A)) as [->|HuA].
  - rewrite lookup_insert_eq, HA. f_equal. lia.
  - rewrite lookup_insert_ne by done.
    destruct (decide (u = B)) as [->|HuB].
    + rewrite lookup_insert_eq, HB. f_equal. lia.
    + by rewrite !lookup_insert_ne by done.
Qed.

Lemma Transfer_there_and_back_witness :
  let t1 := TransactionService.Transfer sample_ts sample_fresh "alice" "bob" 2500
              sample_world in
  let t2 := TransactionService.Transfer sample_ts sample_fresh2 "bob" "alice" 2500
              t1.2 in
  t1.1 = None ∧ t2.1 = None ∧ balances (db t2.2) = balances (db sample_world).
Proof.
  apply (Transfer_there_and_back sample_ts sample_fresh sample_fresh2 "alice"
           "bob" 2500 sample_world 10000 500);
    [discriminate | lia | lia | lia | reflexivity | reflexivity | reflexivity
    | reflexivity | discriminate].
Defined.

(** X6. No mutation primitive writes a balance-history row or touches the
    cache: after [Credit], [Debit] and [Transfer], in every outcome, the
    balance history table and the Redis state are what they were. *)
Theorem primitives_write_no_history ts f A B x w :
  (balance_history (db (TransactionService.Credit ts f A x w).2)
   = balance_history (db w)
   ∧ redis (TransactionService.Credit ts f A x w).2 = redis w)
  ∧ (balance_history (db (TransactionService.Debit ts f A x w).2)
     = balance_history (db w)
     ∧ redis (TransactionService.Debit ts f A x w).2 = redis w)
  ∧ (balance_history (db (TransactionService.Transfer ts f A B x w).2)
     = balance_history (db w)
     ∧ redis (TransactionService.Transfer ts f A B x w).2 = redis w).
Proof.
  destruct (primitives_keep_redis ts f A B x w) as (R1 & R2 & R3).
  repeat split; try done.
  - apply Credit_outcome.
  - apply Debit_outcome.
  - apply Transfer_outcome.
Qed.

(** ** The audit trail of the primitives *)

Ltac audit_cases :=
  unfold TransactionService.finish; tx_unfold;
  repeat match goal with
         | |- context [match ?m !! ?k with _ => _ end] =>
             destruct (m !! k) eqn:?; simpl
         | |- context [if ?a <? ?b then _ else _] =>
             destruct (a <? b) eqn:?; simpl
         end;
  eexists; repeat split; try reflexivity; try discriminate.

(** X7. With an audit service, every call of a primitive that passes the
    argument checks leaves exactly one audit row, whatever the outcome: the
    row is appended outside the transaction, so it survives the rollback.
    Its entity is the ledger id and its action tells the outcome.  On
    success the row describes the transaction as pending, although the
    ledger row was committed as completed: the status update inside the
    transaction does not reach the value that is logged. *)
Theorem primitives_leave_one_audit_row ts f A B x w :
  0 < x → A ≠ B → TransactionService.auditService ts = true →
  (let r := TransactionService.Credit ts f A x w in
   ∃ row, audit_logs (db r.2) = audit_logs (db w) ++ [row]
     ∧ al_EntityID row = new_uuid f ∧ al_UserID row = Some A
     ∧ al_Action row = (if is_nil r.1 then "CREDIT_COMPLETED" else "CREDIT_FAILED")
     ∧ (r.1 = None →
        al_Details row
        = "Transaction " +:+ new_uuid f +:+ ": Credit successful (Amount: "
          +:+ fmt_f x +:+ ", Type: deposit, Status: pending)"))
  ∧ (let r := TransactionService.Debit ts f A x w in
     ∃ row, audit_logs (db r.2) = audit_logs (db w) ++ [row]
       ∧ al_EntityID row = new_uuid f ∧ al_UserID row = Some A
       ∧ al_Action row = (if is_nil r.1 then "DEBIT_COMPLETED" else "DEBIT_FAILED")
       ∧ (r.1 = None →
          al_Details row
          = "Transaction " +:+ new_uuid f +:+ ": Debit successful (Amount: "
            +:+ fmt_f x +:+ ", Type: withdraw, Status: pending)"))
  ∧ (let r := TransactionService.Transfer ts f A B x w in
     ∃ row, audit_logs (db r.2) = audit_logs (db w) ++ [row]
       ∧ al_EntityID row = new_uuid f ∧ al_UserID row = Some A
       ∧ al_Action row
         = (if is_nil r.1 then "TRANSFER_COMPLETED" else "TRANSFER_FAILED")
       ∧ (r.1 = None →
          al_Details row
          = "Transaction " +:+ new_uuid f +:+ ": Transfer successful (Amount: "
            +:+ fmt_f x +:+ ", Type: transfer, Status: pending)")).
Proof.
  intros Hx HAB Ha. destruct ts as [a c]. simpl in Ha. subst a.
  assert (Hx0 : (x <=? 0) = false) by lia.
  split; [|split].
  - unfold TransactionService.Credit. rewrite Hx0. cbv zeta.
    audit_cases.
  - unfold TransactionService.Debit. rewrite Hx0. cbv zeta.
    audit_cases.
  - unfold TransactionService.Transfer.
    rewrite bool_decide_eq_false_2 by done. rewrite Hx0. cbv zeta.
    audit_cases.
Qed.

Lemma primitives_leave_one_audit_row_witness :
  let r := TransactionService.Credit sample_ts sample_fresh "alice" 1000 sample_world in
  ∃ row, audit_logs (db r.2) = audit_logs (db sample_world) ++ [row]
    ∧ al_EntityID row = new_uuid sample_fresh ∧ al_UserID row = Some "alice"
    ∧ al_Action row = (if is_nil r.1 then "CREDIT_COMPLETED" else "CREDIT_FAILED")
    ∧ (r.1 = None →
       al_Details row
       = "Transaction " +:+ new_uuid sample_fresh +:+
         ": Credit successful (Amount: " +:+ fmt_f 1000 +:+
         ", Type: deposit, Status: pending)").
Proof.
  exact (proj1 (primitives_leave_one_audit_row sample_ts sample_fresh "alice"
                  "bob" 1000 sample_world ltac:(lia) ltac:(discriminate)
                  eq_refl)).
Defined.

(** ** The ledger rows and the model's validation *)



(** ** The total of the balances *)

Lemma total_insert (m : gmap string Z) k b v :
  m !! k = Some b →
  map_fold (λ _ amount total, amount + total) 0 (<[k := v]> m)
  = map_fold (λ _ amount total, amount + total) 0 m - b + v.
Proof.
  intros Hk.
  rewrite (map_fold_delete_L _ _ k b m); [|intros; lia|done].
  rewrite <- insert_delete_eq.
  rewrite map_fold_insert_L; [lia|intros; lia|apply lookup_delete_eq].
Qed.

(** X9. In a serial execution (a call runs to its end before the next one
    starts), on amounts of whole minor units and balances inside the range
    of the column: the total of all balances, what [GetTotalBalance] sums,
    is conserved by [Transfer] in every outcome; [Credit] raises it by
    exactly the amount when it returns nil and leaves it alone otherwise,
    and [Debit] lowers it by exactly the amount when it returns nil and
    leaves it alone otherwise. *)
Theorem total_balance_accounting ts f A B x w :
  GetTotalBalance (db (TransactionService.Transfer ts f A B x w).2)
  = GetTotalBalance (db w)
  ∧ GetTotalBalance (db (TransactionService.Credit ts f A x w).2)
    = GetTotalBalance (db w)
      + (if is_nil (TransactionService.Credit ts f A x w).1 then x else 0)
  ∧ GetTotalBalance (db (TransactionService.Debit ts f A x w).2)
    = GetTotalBalance (db w)
      - (if is_nil (TransactionService.Debit ts f A x w).1 then x else 0).
Proof.
  unfold GetTotalBalance. split; [|split].
  - destruct (Transfer_outcome ts f A B x w)
      as (_ & [(_ & -> & _)|(a & b & _ & HAB & _ & _ & _ & HA & HB & -> & _)]);
      [done|].
    rewrite (total_insert _ B b) by (by rewrite lookup_insert_ne).
    rewrite (total_insert _ A a) by done. lia.
  - destruct (Credit_outcome ts f A x w)
      as (_ & [([e He] & -> & _)|(b & Hn & _ & _ & HA & -> & _)]).
    + rewrite He. simpl. lia.
    + rewrite Hn. simpl. rewrite (total_insert _ A b) by done. lia.
  - destruct (Debit_outcome ts f A x w)
      as (_ & [([e He] & -> & _)|(b & Hn & _ & _ & _ & HA & -> & _)]).
    + rewrite He. simpl. lia.
    + rewrite Hn. simpl. rewrite (total_insert _ A b) by done. lia.
Qed.

(** ** Reading a balance after a mutation *)

(** X10. Read your writes: after a [Credit], [Debit] or [Transfer] that
    returned nil, [GetBalance] of a touched account returns the committed
    balance, with either repository implementation, with or without the
    cache, and whatever the cache holds, a stale entry for the account
    included. *)
Theorem GetBalance_after_commit bs ts f A B x w a :
  (BalanceService.balanceRepo bs = BalanceRepository_strict
   ∨ BalanceService.balanceRepo bs = BalanceRepository_lazy) →
  balances (db w) !! A = Some a →
  ((TransactionService.Credit ts f A x w).1 = None →
   (BalanceService.GetBalance bs A (TransactionService.Credit ts f A x w).2).1
   = inr (a + x))
  ∧ ((TransactionService.Debit ts f A x w).1 = None →
     (BalanceService.GetBalance bs A (TransactionService.Debit ts f A x w).2).1
     = inr (a - x))
  ∧ ((TransactionService.Transfer ts f A B x w).1 = None →
     (BalanceService.GetBalance bs A (TransactionService.Transfer ts f A B x w).2).1
     = inr (a - x)
     ∧ ∃ b, balances (db w) !! B = Some b
            ∧ (BalanceService.GetBalance bs B
                 (TransactionService.Transfer ts f A B x w).2).1
              = inr (b + x)).
Proof.
  intros Hrepo HA.
  assert (Hread : ∀ U v w',
             balances (db w') !! U = Some v →
             (BalanceService.GetBalance bs U w').1 = inr v).
  { intros U v w' Hv. rewrite GetBalance_falls_through.
    unfold BalanceService.GetBalance_from_repo.
    destruct Hrepo as [-> | ->]; simpl;
      destruct (BalanceService.cache bs); simpl;
      unfold First_balance; rewrite Hv; simpl;
      try destruct (BalanceService.cache bs); done. }
  split; [|split]; intros Hn.
  - destruct (Credit_outcome ts f A x w)
      as (_ & [(Hs & _)|(b & _ & _ & _ & HA' & Eb & _)]).
    { rewrite Hn in Hs. by destruct Hs. }
    apply Hread. rewrite Eb, lookup_insert_eq. congruence.
  - destruct (Debit_outcome ts f A x w)
      as (_ & [(Hs & _)|(b & _ & _ & _ & _ & HA' & Eb & _)]).
    { rewrite Hn in Hs. by destruct Hs. }
    apply Hread. rewrite Eb, lookup_insert_eq. congruence.
  - destruct (Transfer_outcome ts f A B x w)
      as (_ & [(Hs & _)|(a' & b & _ & HAB & _ & _ & _ & HA' & HB & Eb & _)]).
    { rewrite Hn in Hs. by destruct Hs. }
    split.
    + apply Hread. rewrite Eb, lookup_insert_ne by done.
      rewrite lookup_insert_eq. congruence.
    + exists b. split; [done|]. apply Hread. by rewrite Eb, lookup_insert_eq.
Qed.

Lemma GetBalance_after_commit_witness :
  (TransactionService.Credit sample_ts sample_fresh "bob" 1000 sample_world).1 = None
  ∧ (BalanceService.GetBalance sample_bs "bob"
       (TransactionService.Credit sample_ts sample_fresh "bob" 1000 sample_world).2).1
    = inr (500 + 1000).
Proof.
  split; [reflexivity|].
  apply (proj1 (GetBalance_after_commit sample_bs sample_ts sample_fresh "bob"
                  "alice" 1000 sample_world 500 (or_intror eq_refl) eq_refl)).
  reflexivity.
Defined.

(** ** The status of a transaction *)

Lemma TransitionTo_inr t s t' :
  TransitionTo t s = inr t' →
  t' = set_Status t s
  ∧ ((tx_Status t = TransactionStatusPending
      ∧ (s = TransactionStatusCompleted ∨ s = TransactionStatusFailed
         ∨ s = TransactionStatusCancelled))
     ∨ (tx_Status t = TransactionStatusCompleted ∧ s = TransactionStatusRefund)).
Proof.
  unfold TransitionTo, CanTransitionTo.
  destruct (String.eqb_spec (tx_Status t) TransactionStatusPending) as [Hp|Hp].
  - destruct (String.eqb_spec s TransactionStatusCompleted);
      destruct (String.eqb_spec s TransactionStatusFailed);
      destruct (String.eqb_spec s TransactionStatusCancelled); simpl;
      intros [= <-]; split; auto 6.
  - destruct (String.eqb_spec (tx_Status t) TransactionStatusCompleted) as [Hc|Hc];
      [|done].
    destruct (String.eqb_spec s TransactionStatusRefund); [|done].
    intros [= <-]. auto.
Qed.

Lemma TransitionTo_each_bound targets : ∀ t,
  let n := (TransitionTo_each t targets).2 in
  (n ≤ 2)%nat
  ∧ (tx_Status t = TransactionStatusCompleted → (n ≤ 1)%nat)
  ∧ (tx_Status t ≠ TransactionStatusPending →
     tx_Status t ≠ TransactionStatusCompleted →
     TransitionTo_each t targets = (t, 0%nat)).
Proof.
  induction targets as [|s rest IH]; intros t; simpl; [repeat split; lia|].
  destruct (TransitionTo t s) as [e|t'] eqn:Ht; [apply IH|].
  apply TransitionTo_inr in Ht as (-> & Hcase).
  destruct (IH (set_Status t s)) as (IH2 & IH1 & IH0).
  destruct (TransitionTo_each (set_Status t s) rest) as [t'' n] eqn:Hr.
  simpl in *.
  destruct Hcase as [(Hp & Hs)|(Hc & ->)].
  - split; [|split].
    + destruct Hs as [-> | [-> | ->]];
        [specialize (IH1 eq_refl); lia
        |specialize (IH0 ltac:(discriminate) ltac:(discriminate)); injection IH0 as _ ->; lia
        |specialize (IH0 ltac:(discriminate) ltac:(discriminate)); injection IH0 as _ ->; lia].
    + rewrite Hp. discriminate.
    + congruence.
  - specialize (IH0 ltac:(discriminate) ltac:(discriminate)).
    injection IH0 as _ ->.
    split; [lia|]. split; [lia|]. congruence.
Qed.

(** X11. The life of a transaction status.  In any series of
    [TransitionTo] calls, whatever the targets and the starting status, at
    most two calls go through (pending to completed to refund is the
    longest path); a call that goes through never gives the status pending
    nor the status the transaction already had; and every status other
    than pending and completed is terminal: failed, cancelled, refund or
    any other text, no call changes the transaction any more and the three
    [MarkAs...] helpers return their error. *)
Theorem status_changes_at_most_twice t targets :
  ((TransitionTo_each t targets).2 ≤ 2)%nat
  ∧ (∀ s, match TransitionTo t s with
          | inr t' =>
              tx_Status t' = s
              ∧ tx_Status t' ≠ TransactionStatusPending
              ∧ tx_Status t' ≠ tx_Status t
          | inl _ => True
          end)
  ∧ (tx_Status t ≠ TransactionStatusPending →
     tx_Status t ≠ TransactionStatusCompleted →
     TransitionTo_each t targets = (t, 0%nat)
     ∧ (∃ e, MarkAsCompleted t = inl e) ∧ (∃ e, MarkAsFailed t = inl e)
     ∧ (∃ e, MarkAsCancelled t = inl e)).
Proof.
  split; [apply TransitionTo_each_bound|]. split.
  - intros s. destruct (TransitionTo t s) as [e|t'] eqn:Ht; [done|].
    apply TransitionTo_inr in Ht as (-> & [(Hp & [-> | [-> | ->]])|(Hc & ->)]);
      simpl; rewrite ?Hp, ?Hc; repeat split; discriminate.
  - intros Hp Hc. split; [by apply TransitionTo_each_bound|].
    unfold MarkAsCompleted, MarkAsFailed, MarkAsCancelled, TransitionTo,
      CanTransitionTo.
    destruct (String.eqb_spec (tx_Status t) TransactionStatusPending); [done|].
    destruct (String.eqb_spec (tx_Status t) TransactionStatusCompleted); [done|].
    repeat split; eauto.
Qed.

Lemma status_changes_at_most_twice_witness :
  let t := set_Status sample_deposit TransactionStatusFailed in
  TransitionTo_each t [TransactionStatusCompleted; TransactionStatusPending]
  = (t, 0%nat)
  ∧ (∃ e, MarkAsCompleted t = inl e) ∧ (∃ e, MarkAsFailed t = inl e)
  ∧ (∃ e, MarkAsCancelled t = inl e).
Proof.
  apply (proj2 (proj2 (status_changes_at_most_twice
                          (set_Status sample_deposit TransactionStatusFailed)
                          [TransactionStatusCompleted; TransactionStatusPending])));
    discriminate.
Defined.

(** X13. [IsFinalized] does not mean final, and a refund leaves the valid
    statuses: a completed transaction is reported as finalized, yet
    [TransitionTo] to refund goes through; the refunded transaction is no
    longer finalized, [Validate] rejects it whatever its other fields, and
    it accepts no further transition. *)
Theorem refund_leaves_valid_statuses t :
  tx_Status t = TransactionStatusCompleted →
  IsFinalized t = true
  ∧ ∃ t', TransitionTo t TransactionStatusRefund = inr t'
          ∧ IsFinalized t' = false
          ∧ is_Some (Validate t')
          ∧ ∀ s, ∃ e, TransitionTo t' s = inl e.
Proof.
  intros Hc. unfold IsFinalized, TransitionTo, CanTransitionTo. rewrite Hc.
  split; [done|]. simpl. eexists. split; [done|]. split; [done|]. split.
  - unfold Validate. simpl.
    destruct (tx_Amount t <=? 0); [done|].
    destruct (max_transaction_amount <? tx_Amount t); [done|].
    destruct (negb _); done.
  - intros s. eauto.
Qed.

Lemma refund_leaves_valid_statuses_witness :
  IsFinalized sample_deposit = true
  ∧ ∃ t', TransitionTo sample_deposit TransactionStatusRefund = inr t'
          ∧ IsFinalized t' = false
          ∧ is_Some (Validate t')
          ∧ ∀ s, ∃ e, TransitionTo t' s = inl e.
Proof. apply (refund_leaves_valid_statuses sample_deposit). reflexivity. Defined.

(** ** The in-memory balance *)

(** X14. [Balance.TransferTo] is [SubtractAmount] on the source and
    [AddAmount] on the target, or nothing: it succeeds exactly when the
    owners differ and both would succeed, and then it returns what they
    return; when it fails, the owners are equal or one of the two fails.
    It computes in [float64] and does not keep the sum of the two amounts:
    from 0.30 and 0.60 a transfer of 0.20 succeeds and the two amounts then
    add up to 0.9, where they added up to 0.8999999999999999 before. *)
Theorem Balance_TransferTo_composes t1 t2 amount b targetBalance :
  match TransferTo t1 t2 amount b targetBalance with
  | inr (b', targetBalance') =>
      bal_UserID b ≠ bal_UserID targetBalance
      ∧ SubtractAmount t1 amount b = inr b'
      ∧ AddAmount t2 amount targetBalance = inr targetBalance'
  | inl _ =>
      bal_UserID b = bal_UserID targetBalance
      ∨ (∃ e, SubtractAmount t1 amount b = inl e)
      ∨ (∃ e, AddAmount t2 amount targetBalance = inl e)
  end
  ∧ (let source := mkBalance "alice" (float64_of_minor 30) 0 in
     let target := mkBalance "bob" (float64_of_minor 60) 0 in
     ∃ source' target',
       TransferTo 1 2 (float64_of_minor 20) source target
       = inr (source', target')
       ∧ float64_add (bal_Amount source) (bal_Amount target)
         ≠ float64_of_minor 90
       ∧ float64_add (bal_Amount source') (bal_Amount target')
         = float64_of_minor 90).
Proof.
  split.
  - unfold TransferTo, SubtractAmount, AddAmount.
    destruct (float64_leb amount (float64_of_Z 0)) eqn:Ha; [eauto|].
    case_bool_decide as Hid; [auto|].
    destruct (float64_ltb (bal_Amount b) amount) eqn:Hb; [eauto|].
    destruct (float64_ltb (float64_add (bal_Amount targetBalance) amount)
                (bal_Amount targetBalance)) eqn:Ht; [eauto|].
    done.
  - eexists _, _. split; [by vm_compute|]. split; by vm_compute.
Qed.

(** X15. The order in which [TransferTo] takes the two mutexes does not
    depend on the direction of the transfer: a transfer from one balance
    to another and the transfer back lock the same owner first, so two
    opposite transfers cannot wait for each other. *)
Theorem lock_order_symmetric b targetBalance :
  lock_order b targetBalance = lock_order targetBalance b.
Proof.
  unfold lock_order, String.ltb.
  rewrite (String.compare_antisym (bal_UserID targetBalance) (bal_UserID b)).
  destruct (String.compare (bal_UserID b) (bal_UserID targetBalance)) eqn:E;
    simpl; try done.
  apply String.compare_eq_iff in E. by rewrite E.
Qed.

(** ** The repository's transfer helpers *)

Lemma total_alter (m : gmap string Z) k delta :
  map_fold (λ _ amount total, amount + total) 0 (alter (λ a, a + delta) k m)
  = map_fold (λ _ amount total, amount + total) 0 m
    + (if is_nil (m !! k) then 0 else delta).
Proof.
  destruct (m !! k) as [b|] eqn:E; simpl.
  - rewrite (alter_alt_Some _ _ _ _ E), (total_insert _ _ b) by done. lia.
  - rewrite alter_id' by done. lia.
Qed.

Lemma is_nil_lookup_alter (m : gmap string Z) f i j :
  is_nil (alter f i m !! j) = is_nil (m !! j).
Proof.
  destruct (m !! j) as [b|] eqn:E.
  - destruct (alter f i m !! j) eqn:E'; [done|].
    apply lookup_alter_None in E'. congruence.
  - by rewrite (proj2 (lookup_alter_None f m i j) E).
Qed.

(** X16. On an amount of whole minor units (at most two decimals) and
    balances that stay inside the range of the column:
    [TransferBetweenUsers] returns nil exactly when the sender has a
    balance row that covers the amount, and on an error the store is
    unchanged.  It conserves the total of the balances only when the
    receiver has a balance row: with no such row the call still returns
    nil, the sender is debited, and the amount is gone from the total. *)
Theorem TransferBetweenUsers_total fromUserID toUserID amount d :
  let r := TransferBetweenUsers fromUserID toUserID amount d in
  (r.1 = None ↔ ∃ a, balances d !! fromUserID = Some a ∧ amount ≤ a)
  ∧ (is_Some r.1 → r.2 = d)
  ∧ GetTotalBalance r.2
    = GetTotalBalance d
      - (if is_nil r.1 && is_nil (balances d !! toUserID) then amount else 0).
Proof.
  unfold TransferBetweenUsers, GetTotalBalance. tx_unfold.
  destruct (balances d !! fromUserID) as [a|] eqn:Hf; simpl.
  2:{ split; [|split; [done|lia]]. split; [done|]. by intros (? & ? & _). }
  destruct (a <? amount) eqn:Ha; simpl.
  { split; [|split; [done|lia]]. split; [done|].
    intros (a' & [= <-] & Hle). lia. }
  split; [split; [eauto with lia|done]|].
  split; [by intros [? ?]|].
  rewrite !total_alter, is_nil_lookup_alter, Hf. simpl.
  destruct (is_nil (balances d !! toUserID)); lia.
Qed.

(** X17. [TransferBetweenUsers] does not test the sign of the amount and
    reads only the sender: for distinct users with balance rows and any
    amount of whole minor units the sender covers, a negative one
    included, with both new balances inside the range of the column, it
    returns nil, the sender ends at its balance minus the amount and the
    receiver at its balance plus the amount, which is below zero when the
    amount is negative enough. *)
Theorem TransferBetweenUsers_moves_unchecked fromUserID toUserID amount d a b :
  fromUserID ≠ toUserID →
  balances d !! fromUserID = Some a →
  balances d !! toUserID = Some b →
  amount ≤ a →
  let r := TransferBetweenUsers fromUserID toUserID amount d in
  r.1 = None
  ∧ balances r.2 !! fromUserID = Some (a - amount)
  ∧ balances r.2 !! toUserID = Some (b + amount).
Proof.
  intros Hne Hf Ht Hle. unfold TransferBetweenUsers. tx_unfold.
  rewrite Hf. simpl. destruct (a <? amount) eqn:Ha; [lia|]. simpl.
  split; [done|]. split.
  - by rewrite lookup_alter_ne, lookup_alter_eq, Hf.
  - by rewrite lookup_alter_eq, lookup_alter_ne, Ht.
Qed.

Lemma TransferBetweenUsers_moves_unchecked_witness :
  let r := TransferBetweenUsers "alice" "bob" (-700) sample_db in
  r.1 = None
  ∧ balances r.2 !! "alice" = Some (10000 - -700)
  ∧ balances r.2 !! "bob" = Some (500 + -700).
Proof.
  apply (TransferBetweenUsers_moves_unchecked "alice" "bob" (-700) sample_db
           10000 500); [discriminate | reflexivity | reflexivity | lia].
Defined.

(** X18. On an amount of whole minor units (at most two decimals) and a
    new balance inside the range of the column: [SubtractFromBalance]
    returns nil exactly when the user has a balance row that covers the
    amount; the row then holds the balance minus the amount, which is
    never below zero, and on an error the store is unchanged.
    [AddToBalance] returns nil: for a user with no balance row it changes
    nothing and still returns nil. *)
Theorem repository_single_account_updates userID amount d :
  (let r := SubtractFromBalance userID amount d in
   (r.1 = None ↔ ∃ b, balances d !! userID = Some b ∧ amount ≤ b)
   ∧ match r.1 with
     | None =>
         ∃ b, balances d !! userID = Some b
              ∧ balances r.2 = <[userID := b - amount]> (balances d)
              ∧ 0 ≤ b - amount
     | Some _ => r.2 = d
     end)
  ∧ (let r := AddToBalance userID amount d in
     r.1 = None
     ∧ balances r.2 !! userID = (λ b, b + amount) <$> balances d !! userID
     ∧ (balances d !! userID = None → r.2 = d)).
Proof.
  split.
  - unfold SubtractFromBalance. tx_unfold.
    destruct (balances d !! userID) as [b|] eqn:Hb; simpl.
    2:{ split; [|done]. split; [done|]. by intros (? & ? & _). }
    destruct (b <? amount) eqn:Hlt; simpl.
    { split; [|done]. split; [done|]. intros (b' & [= <-] & Hle). lia. }
    split; [split; [eauto with lia|done]|].
    exists b. split; [done|]. split; [|lia].
    by rewrite (alter_alt_Some _ _ _ _ Hb).
  - unfold AddToBalance, autocommit, Update_amount_expr. simpl.
    split; [done|]. split; [by rewrite lookup_alter_eq|].
    intros Hn. rewrite alter_id' by done. by destruct d.
Qed.

(** ** BalanceService *)

(** X19. With the repository that creates missing rows, [GetBalance] is a
    read that writes: it never fails, an account without a balance row
    reads as 0 and has a zero row afterwards, and a second read returns
    the same value and leaves the balances as the first read left them.
    With the repository that reports missing rows the same read fails with
    the wrapped not-found error and the store is unchanged. *)
Theorem GetBalance_of_missing_row a c accountID w :
  (let bs := BalanceService.mk BalanceRepository_lazy a c in
   let r := BalanceService.GetBalance bs accountID w in
   r.1 = inr (default 0 (balances (db w) !! accountID))
   ∧ balances (db r.2)
     = <[accountID := default 0 (balances (db w) !! accountID)]> (balances (db w))
   ∧ (BalanceService.GetBalance bs accountID r.2).1 = r.1
   ∧ balances (db (BalanceService.GetBalance bs accountID r.2).2)
     = balances (db r.2))
  ∧ (let bs := BalanceService.mk BalanceRepository_strict a c in
     let r := BalanceService.GetBalance bs accountID w in
     balances (db w) !! accountID = None →
     r.1 = inl (Errorf "bakiye alınamadı: record not found")
     ∧ db r.2 = db w).
Proof.
  assert (Hlazy : ∀ w',
    let bs := BalanceService.mk BalanceRepository_lazy a c in
    let r := BalanceService.GetBalance bs accountID w' in
    r.1 = inr (default 0 (balances (db w') !! accountID))
    ∧ balances (db r.2)
      = <[accountID := default 0 (balances (db w') !! accountID)]>
          (balances (db w'))).
  { intros w'. cbv zeta. rewrite GetBalance_falls_through.
    unfold BalanceService.GetBalance_from_repo. simpl.
    destruct c; simpl;
      destruct (balances (db w') !! accountID) as [b|] eqn:Hb; simpl;
      rewrite ?Hb; simpl; rewrite ?insert_id by done; done. }
  split.
  - cbv zeta. destruct (Hlazy w) as (H1 & H2).
    split; [done|]. split; [done|].
    destruct (Hlazy (BalanceService.GetBalance
                       (BalanceService.mk BalanceRepository_lazy a c)
                       accountID w).2) as (H3 & H4).
    cbv zeta in H3, H4. rewrite H3, H4, H1, H2, lookup_insert_eq. simpl.
    split; [done|]. by rewrite insert_insert_eq.
  - cbv zeta. intros Hb. rewrite GetBalance_falls_through.
    unfold BalanceService.GetBalance_from_repo. simpl.
    destruct c; simpl; unfold First_balance; simpl; rewrite Hb; done.
Qed.


(** X21. [BalanceService.UpdateBalance] refuses a negative amount and
    changes nothing.  For any other amount it returns nil with either
    repository, also for an account that has no balance row: then no
    balance is written, and the audit row that reports the update is still
    appended. *)
Theorem UpdateBalance_outcome bs f accountID amount w :
  (BalanceService.balanceRepo bs = BalanceRepository_strict
   ∨ BalanceService.balanceRepo bs = BalanceRepository_lazy) →
  let r := UpdateBalance bs f accountID amount w in
  if amount <? 0 then r = (Some (Errorf "bakiye negatif olamaz"), w)
  else
    r.1 = None
    ∧ balances (db r.2) !! accountID
      = (λ _, amount) <$> balances (db w) !! accountID
    ∧ (balances (db w) !! accountID = None →
       balances (db r.2) = balances (db w))
    ∧ ∃ rows, audit_logs (db r.2) = audit_logs (db w) ++ rows
        ∧ (al_Action <$> rows)
          = (if BalanceService.auditService bs then ["BALANCE_UPDATE"] else []).
Proof.
  intros Hrepo. cbv zeta. unfold UpdateBalance.
  destruct (amount <? 0); [done|].
  assert (repo_UpdateBalance (BalanceService.balanceRepo bs) = Update_amount)
    as -> by (by destruct Hrepo as [-> | ->]).
  unfold Update_amount. simpl.
  destruct (BalanceService.auditService bs); simpl.
  - split; [done|]. split; [by rewrite lookup_alter_eq|].
    split; [intros Hn; by rewrite alter_id'|].
    eexists. split; [reflexivity|done].
  - split; [done|]. split; [by rewrite lookup_alter_eq|].
    split; [intros Hn; by rewrite alter_id'|].
    exists []. split; [by rewrite app_nil_r|done].
Qed.

Lemma UpdateBalance_outcome_witness :
  let r := UpdateBalance sample_bs sample_fresh "dave" 700 sample_world in
  r.1 = None
  ∧ balances (db r.2) !! "dave" = (λ _, 700) <$> balances (db sample_world) !! "dave"
  ∧ (balances (db sample_world) !! "dave" = None →
     balances (db r.2) = balances (db sample_world))
  ∧ ∃ rows, audit_logs (db r.2) = audit_logs (db sample_world) ++ rows
      ∧ (al_Action <$> rows) = ["BALANCE_UPDATE"].
Proof.
  apply (UpdateBalance_outcome sample_bs sample_fresh "dave" 700 sample_world).
  right. reflexivity.
Defined.

(** ** The cached pages of a user *)

Lemma length_append (s1 s2 : string) :
  String.length (s1 +:+ s2) = (String.length s1 + String.length s2)%nat.
Proof. induction s1 as [|c s1 IH]; simpl; [done|]. by rewrite IH. Qed.

Lemma user_transactions_keys_differ (userID : string) (limit offset : Z) :
  "user_transactions:" +:+ userID
  ≠ "user_transactions:" +:+ userID +:+ ":" +:+ pretty limit +:+ ":" +:+
    pretty offset.
Proof.
  simpl. intros H. injection H as H.
  apply (f_equal String.length) in H. rewrite !length_append in H.
  simpl in H. lia.
Qed.

(** X22. A page stored with [SetUserTransactions] is never found by
    [GetUserTransactions]: the writer uses the key of the user alone, the
    reader the key of the user with limit and offset, so for every user,
    limit and offset the read after the write returns what the read
    without the write returns, and on a cache that held nothing for the
    user it is a miss. *)
Theorem stored_page_is_never_read userID json limit offset r :
  (GetUserTransactions userID limit offset
     (SetUserTransactions userID json r).2).1
  = (GetUserTransactions userID limit offset r).1
  ∧ (up r = true → keys r = ∅ →
     (SetUserTransactions userID json r).1 = None
     ∧ (GetUserTransactions userID limit offset
          (SetUserTransactions userID json r).2).1 = (None, None)).
Proof.
  pose proof (user_transactions_keys_differ userID limit offset) as Hne.
  unfold GetUserTransactions, SetUserTransactions, cache_Set, cache_Get.
  destruct (up r) eqn:Hup; simpl; rewrite ?Hup; simpl.
  - rewrite lookup_insert_ne by done.
    split.
    + destruct (keys r !! _); done.
    + intros _ ->. by rewrite lookup_empty.
  - split; [done|]. intros [=].
Qed.

(** ** The worker pool: batches, retries, error classes *)

(** X23. [SubmitBatch] is not atomic.  On a running pool whose queue has
    room for [room] more jobs, the first [room] jobs of the batch are
    enqueued, in order, and stay enqueued; the call returns nil exactly
    when the whole batch fits, and the queue never exceeds its
    capacity. *)
Theorem SubmitBatch_enqueues_a_prefix jobs : ∀ pick wp,
  WorkerPool.done wp = false →
  (length (WorkerPool.jobQueue wp) ≤ WorkerPool.maxQueueSize wp)%nat →
  let room := (WorkerPool.maxQueueSize wp - length (WorkerPool.jobQueue wp))%nat in
  let r := SubmitBatch pick jobs wp in
  WorkerPool.jobQueue r.2 = WorkerPool.jobQueue wp ++ take room jobs
  ∧ (r.1 = None ↔ (length jobs ≤ room)%nat)
  ∧ (length (WorkerPool.jobQueue r.2) ≤ WorkerPool.maxQueueSize r.2)%nat.
Proof.
  induction jobs as [|job rest IH]; intros pick wp Hd Hcap; cbv zeta.
  { simpl. rewrite take_nil, app_nil_r. repeat split; [lia|done]. }
  simpl. unfold WorkerPool.SubmitJob, WorkerPool.can_send. rewrite Hd.
  case_bool_decide as Hroom.
  - set (wp' := WorkerPool.with_counters (WorkerPool.enqueue job wp) _).
    specialize (IH (λ i, pick (S i)) wp' Hd).
    assert (Hq : WorkerPool.jobQueue wp' = WorkerPool.jobQueue wp ++ [job]) by done.
    assert (Hm : WorkerPool.maxQueueSize wp' = WorkerPool.maxQueueSize wp) by done.
    rewrite Hq, Hm, length_app in IH. simpl in IH.
    destruct (IH ltac:(lia)) as (IH1 & IH2 & IH3).
    split; [|split].
    + rewrite IH1, <- app_assoc. simpl.
      replace (WorkerPool.maxQueueSize wp - length (WorkerPool.jobQueue wp))%nat
        with (S (WorkerPool.maxQueueSize wp
                 - (length (WorkerPool.jobQueue wp) + 1)))%nat by lia.
      done.
    + rewrite IH2. lia.
    + done.
  - simpl.
    replace (WorkerPool.maxQueueSize wp - length (WorkerPool.jobQueue wp))%nat
      with 0%nat by lia.
    rewrite take_0, app_nil_r. split; [done|]. split; [|done].
    split; [done|lia].
Qed.

Lemma SubmitBatch_enqueues_a_prefix_witness :
  let wp := WorkerPool.mk [] [] 1 false TransactionCounters.NewTransactionCounters in
  let r := SubmitBatch (λ _, true) [sample_job; sample_job] wp in
  WorkerPool.jobQueue r.2 = [] ++ take (1 - 0) [sample_job; sample_job]
  ∧ (r.1 = None ↔ (2 ≤ 1 - 0)%nat)
  ∧ (length (WorkerPool.jobQueue r.2) ≤ WorkerPool.maxQueueSize r.2)%nat.
Proof.
  apply (SubmitBatch_enqueues_a_prefix [sample_job; sample_job] (λ _, true)
           (WorkerPool.mk [] [] 1 false TransactionCounters.NewTransactionCounters));
    [reflexivity | simpl; lia].
Defined.

(** X24. The backoff of a retry is quadratic in the retry number and
    capped: for a job that has been retried fewer than 96038 times, the
    delay before retry number n is min(n * n, 30) seconds, so 1 s, 4 s,
    9 s, 16 s, 25 s and 30 s from the sixth retry on; it is never below one
    second and never above thirty. *)
Theorem backoff_is_quadratic_and_capped job :
  0 ≤ WorkerPool.RetryCount job ≤ 96037 →
  (WorkerPool.handleRetry job).2
  = Z.min ((WorkerPool.RetryCount job + 1) ^ 2) 30 * WorkerPool.second
  ∧ WorkerPool.second ≤ (WorkerPool.handleRetry job).2 ≤ 30 * WorkerPool.second
  ∧ WorkerPool.RetryCount (WorkerPool.handleRetry job).1
    = WorkerPool.RetryCount job + 1.
Proof.
  intros H. unfold WorkerPool.handleRetry, WorkerPool.second. simpl.
  set (n := WorkerPool.RetryCount job) in *.
  assert (wrap64 (n + 1) = n + 1) as ->
    by (apply wrap64_small; unfold max_int64; lia).
  assert (wrap64 ((n + 1) * (n + 1)) = (n + 1) * (n + 1)) as ->
    by (apply wrap64_small; unfold max_int64; nia).
  assert (wrap64 ((n + 1) * (n + 1) * 1000000000)
          = (n + 1) * (n + 1) * 1000000000) as ->
    by (apply wrap64_small; unfold max_int64; nia).
  destruct (30 * 1000000000 <? _) eqn:E; nia.
Qed.

Lemma backoff_is_quadratic_and_capped_witness :
  (WorkerPool.handleRetry sample_job).2
  = Z.min ((WorkerPool.RetryCount sample_job + 1) ^ 2) 30 * WorkerPool.second
  ∧ WorkerPool.second ≤ (WorkerPool.handleRetry sample_job).2
    ≤ 30 * WorkerPool.second
  ∧ WorkerPool.RetryCount (WorkerPool.handleRetry sample_job).1
    = WorkerPool.RetryCount sample_job + 1.
Proof. apply (backoff_is_quadratic_and_capped sample_job). simpl. lia. Defined.

Lemma dispatch_error_text ts f fa job w err :
  (processJob_dispatch ts f fa job w).1 = Some err →
  String.eqb (Error err) "yetersiz bakiye" = false
  ∧ String.eqb (Error err) "işlem doğrulama hatası" = false.
Proof.
  unfold processJob_dispatch, processCredit, processDebit, processTransfer.
  repeat match goal with
         | |- context [if String.eqb ?a ?b then _ else _] =>
             destruct (String.eqb a b)
         end;
  repeat match goal with
         | |- context [let '(_, _) := ?c in _] => destruct c as [[?|] ?]
         end; simpl; intros [= <-]; done.
Qed.

Ltac cells :=
  repeat first
    [ rewrite StoreInt64_same
    | rewrite StoreInt64_other by first [assumption | discriminate]
    | rewrite AddInt64_same
    | rewrite AddInt64_other by first [assumption | discriminate] ].

Lemma RecordProcessingTime_cell fuel d tc tc' c :
  c ≠ averageProcessingTime → c ≠ fastestTransaction → c ≠ slowestTransaction →
  RecordProcessingTime fuel d tc = Some tc' → tc' c = tc c.
Proof.
  intros H4 H5 H6. unfold RecordProcessingTime.
  destruct (loop fuel (average_body d) tc) as [s1|] eqn:E1; simpl; [|done].
  destruct (loop fuel (lower_body fastestTransaction d) s1) as [s2|] eqn:E2;
    simpl; [|done].
  intros E3.
  apply (loop_keeps c) in E3;
    [|intros ?? Hb; exact (raise_body_keeps _ _ _ _ _ H6 Hb)].
  apply (loop_keeps c) in E2;
    [|intros ?? Hb; exact (lower_body_keeps _ _ _ _ _ H5 Hb)].
  apply (loop_keeps c) in E1;
    [|intros ?? Hb; exact (average_body_keeps _ _ _ _ H4 Hb)].
  congruence.
Qed.

Lemma AddAmountProcessed_cell fuel a tc tc' c :
  c ≠ totalAmountProcessed → c ≠ largestTransaction → c ≠ smallestTransaction →
  AddAmountProcessed fuel a tc = Some tc' → tc' c = tc c.
Proof.
  intros H1 H2 H3. unfold AddAmountProcessed.
  destruct (loop fuel (raise_body largestTransaction _) _) as [s|] eqn:E1;
    simpl; [|done].
  intros E2.
  apply (loop_keeps c) in E2;
    [|intros ?? Hb; exact (lower_body_keeps _ _ _ _ _ H3 Hb)].
  apply (loop_keeps c) in E1;
    [|intros ?? Hb; exact (raise_body_keeps _ _ _ _ _ H2 Hb)].
  rewrite E2, E1. by apply AddInt64_other.
Qed.

Lemma IncrementTransactionType_cell ty tc c :
  c ≠ transferCount → c ≠ depositCount → c ≠ withdrawCount →
  IncrementTransactionType ty tc c = tc c.
Proof.
  intros. unfold IncrementTransactionType.
  repeat match goal with
         | |- context [if String.eqb ?a ?b then _ else _] =>
             destruct (String.eqb a b)
         end; by cells.
Qed.

(** The cells [RecordTransaction] has not touched when the amount is
    recorded. *)
Lemma recorded_amount_cell fuel ty a tc s1 c :
  c ≠ totalTransactions → c ≠ transferCount → c ≠ depositCount →
  c ≠ withdrawCount → c ≠ totalAmountProcessed → c ≠ largestTransaction →
  c ≠ smallestTransaction →
  AddAmountProcessed fuel a
    (IncrementTransactionType ty (IncrementTotalTransactions tc)) = Some s1 →
  s1 c = tc c.
Proof.
  intros ??????? E1.
  rewrite (AddAmountProcessed_cell _ _ _ _ c) by eassumption.
  rewrite IncrementTransactionType_cell by assumption.
  unfold IncrementTotalTransactions. by cells.
Qed.

Ltac untouched c E :=
  rewrite (recorded_amount_cell _ _ _ _ _ c
             ltac:(discriminate) ltac:(discriminate) ltac:(discriminate)
             ltac:(discriminate) ltac:(discriminate) ltac:(discriminate)
             ltac:(discriminate) E).

Ltac untimed c E :=
  rewrite (RecordProcessingTime_cell _ _ _ _ c
             ltac:(discriminate) ltac:(discriminate) ltac:(discriminate) E).

(** X25. No failure of a worker is ever counted as an insufficient-balance
    or a validation error: the error a worker puts into a result always
    carries the prefix of the job type, so it equals neither of the two
    texts [RecordTransaction] compares it with, and a recorded failure
    with that error raises the system-error counter and leaves the other
    two error counters alone. *)
Theorem worker_errors_count_as_system ts f fa job w err fuel tx d tc :
  (processJob_dispatch ts f fa job w).1 = Some err →
  match RecordTransaction fuel (Some tx) false d (Some err) tc with
  | Returns tc' =>
      tc' insufficientBalanceErrors = tc insufficientBalanceErrors
      ∧ tc' validationErrors = tc validationErrors
      ∧ tc' systemErrors = wrap64 (tc systemErrors + 1)
  | Panics _ _ => False
  | OutOfFuel => True
  end.
Proof.
  intros Hd. apply dispatch_error_text in Hd as [H1 H2].
  unfold RecordTransaction. rewrite H1, H2.
  destruct (AddAmountProcessed fuel _ _) as [s1|] eqn:E1; simpl; [|done].
  destruct (RecordProcessingTime fuel d s1) as [s2|] eqn:E2; simpl; [|done].
  destruct (IncrementErrorType_cases
              (DecrementPendingTransactions (IncrementFailedTransactions s2)))
    as (_ & _ & ->).
  unfold DecrementPendingTransactions, IncrementFailedTransactions.
  cells.
  untimed insufficientBalanceErrors E2. untimed validationErrors E2.
  untimed systemErrors E2.
  untouched insufficientBalanceErrors E1. untouched validationErrors E1.
  untouched systemErrors E1.
  done.
Qed.

Lemma worker_errors_count_as_system_witness :
  match RecordTransaction 1 (Some sample_deposit) false 5
          (Some (Errorw "debit işlemi başarısız"
                   (Errorf ("insufficient balance: current=" +:+ fmt_f 500 +:+
                            ", required=" +:+ fmt_f 1000))))
          NewTransactionCounters with
  | Returns tc' =>
      tc' insufficientBalanceErrors = NewTransactionCounters insufficientBalanceErrors
      ∧ tc' validationErrors = NewTransactionCounters validationErrors
      ∧ tc' systemErrors = wrap64 (NewTransactionCounters systemErrors + 1)
  | Panics _ _ => False
  | OutOfFuel => True
  end.
Proof.
  apply (worker_errors_count_as_system sample_ts sample_fresh sample_fresh2
           (WorkerPool.mkJob "job-2" "debit" "bob" uuid_Nil 1000 0 3 1000)
           sample_world).
  vm_compute. reflexivity.
Defined.

(** ** The counters: extremes and the rolling average *)

(** X26. [AddAmountProcessed] records an amount as [int64(amount * 100)]
    converts it: the [float64] product, truncated.  For an amount of at
    most two decimals (the [float64] nearest to it), run with no other
    writer of the counters, it returns after one round of each loop, and
    with [c] the converted amount: the largest transaction becomes the
    maximum of its old value and [c], the smallest transaction the minimum
    of its old value and [c], the total grows by [c] (modulo 2^64), and
    every other counter is unchanged.  Since the product is truncated, [c]
    can be one below the minor units of the amount: 0.29 is recorded as
    28, while 10.00 is recorded as 1000. *)
Theorem AddAmountProcessed_tracks_extremes fuel amount tc :
  (∃ tc', AddAmountProcessed (S fuel) amount tc = Some tc'
     ∧ tc' largestTransaction
       = Z.max (tc largestTransaction) (amountInCents amount)
     ∧ tc' smallestTransaction
       = Z.min (tc smallestTransaction) (amountInCents amount)
     ∧ tc' totalAmountProcessed
       = wrap64 (tc totalAmountProcessed + amountInCents amount)
     ∧ ∀ c, c ≠ largestTransaction → c ≠ smallestTransaction →
            c ≠ totalAmountProcessed → tc' c = tc c)
  ∧ amountInCents 29 = 28 ∧ amountInCents 1000 = 1000.
Proof.
  split; [|by vm_compute].
  unfold AddAmountProcessed. generalize (amountInCents amount). intros a.
  simpl.
  unfold raise_body at 1, LoadInt64, CompareAndSwapInt64.
  rewrite AddInt64_other by discriminate.
  destruct (a <=? tc largestTransaction) eqn:Hl; simpl.
  - unfold lower_body at 1, LoadInt64, CompareAndSwapInt64.
    rewrite AddInt64_other by discriminate.
    destruct (tc smallestTransaction <=? a) eqn:Hs; simpl.
    + eexists. split; [done|]. cells. repeat split; try lia.
      intros c ???. by cells.
    + rewrite Z.eqb_refl. eexists. split; [done|]. cells.
      repeat split; try lia. intros c ???. by cells.
  - rewrite Z.eqb_refl. simpl.
    unfold lower_body at 1, LoadInt64, CompareAndSwapInt64.
    rewrite StoreInt64_other, AddInt64_other by discriminate.
    destruct (tc smallestTransaction <=? a) eqn:Hs; simpl.
    + eexists. split; [done|]. cells. repeat split; try lia.
      intros c ???. by cells.
    + rewrite Z.eqb_refl. eexists. split; [done|]. cells.
      repeat split; try lia. intros c ???. by cells.
Qed.

Lemma RecordProcessingTime_first fuel d tc tc' :
  tc successfulTransactions = 0 → tc averageProcessingTime = 0 →
  RecordProcessingTime fuel d tc = Some tc' → tc' averageProcessingTime = d.
Proof.
  intros Hs Ha. unfold RecordProcessingTime.
  destruct (loop fuel (average_body d) tc) as [s1|] eqn:E1; simpl; [|done].
  destruct (loop fuel (lower_body fastestTransaction d) s1) as [s2|] eqn:E2;
    simpl; [|done].
  intros E3.
  apply (loop_keeps averageProcessingTime) in E3;
    [|intros ?? Hb; refine (raise_body_keeps _ _ _ _ _ _ Hb); discriminate].
  apply (loop_keeps averageProcessingTime) in E2;
    [|intros ?? Hb; refine (lower_body_keeps _ _ _ _ _ _ Hb); discriminate].
  rewrite E3, E2. clear E2 E3.
  destruct fuel as [|fuel]; [done|].
  change (match average_body d tc with
          | inr tc' => Some tc'
          | inl tc' => loop fuel (average_body d) tc'
          end = Some s1) in E1.
  unfold average_body, LoadInt64, CompareAndSwapInt64 in E1.
  rewrite Hs, Ha in E1. simpl in E1. injection E1 as <-.
  apply StoreInt64_same.
Qed.

Lemma RecordTransaction_stalled fuel tx success d err tc :
  tc successfulTransactions = 0 → tc averageProcessingTime ≠ 0 →
  RecordTransaction fuel (Some tx) success d err tc = OutOfFuel.
Proof.
  intros Hz Hnz. unfold RecordTransaction.
  destruct (AddAmountProcessed fuel _ _) as [s|] eqn:E; simpl; [|done].
  rewrite RecordProcessingTime_spins; [done| |].
  - by untouched successfulTransactions E.
  - by untouched averageProcessingTime E.
Qed.

(** X27. One failed transaction recorded before any successful one stalls
    the counters for good.  On counters that are new or reset, when
    [RecordTransaction] records a failure with a processing time other
    than zero and returns, the average is set while the success count is
    still zero; from then on no call of [RecordTransaction] returns,
    whatever it records and however many rounds its loops are granted. *)
Theorem failed_first_transaction_stalls_counters fuel tx d err tc :
  tc successfulTransactions = 0 → tc averageProcessingTime = 0 → d ≠ 0 →
  match RecordTransaction fuel (Some tx) false d err tc with
  | Returns tc1 =>
      ∀ fuel' tx' success' d' err',
        RecordTransaction fuel' (Some tx') success' d' err' tc1 = OutOfFuel
  | Panics _ _ => False
  | OutOfFuel => True
  end.
Proof.
  intros Hs Ha Hd. unfold RecordTransaction at 1.
  destruct (AddAmountProcessed fuel _ _) as [s1|] eqn:E1; simpl; [|done].
  destruct (RecordProcessingTime fuel d s1) as [s2|] eqn:E2; simpl; [|done].
  assert (Hs1 : s1 successfulTransactions = 0)
    by (by untouched successfulTransactions E1).
  assert (Ha1 : s1 averageProcessingTime = 0)
    by (by untouched averageProcessingTime E1).
  assert (Hs2 : s2 successfulTransactions = 0)
    by (by untimed successfulTransactions E2).
  pose proof (RecordProcessingTime_first _ _ _ _ Hs1 Ha1 E2) as Ha2.
  destruct err as [err|].
  - intros. apply RecordTransaction_stalled.
    + unfold IncrementErrorType.
      repeat match goal with
             | |- context [if String.eqb ?a ?b then _ else _] =>
                 destruct (String.eqb a b)
             end;
        unfold DecrementPendingTransactions, IncrementFailedTransactions;
        by cells.
    + unfold IncrementErrorType.
      repeat match goal with
             | |- context [if String.eqb ?a ?b then _ else _] =>
                 destruct (String.eqb a b)
             end;
        unfold DecrementPendingTransactions, IncrementFailedTransactions;
        cells; congruence.
  - intros. apply RecordTransaction_stalled;
      unfold DecrementPendingTransactions, IncrementFailedTransactions; cells;
      congruence.
Qed.

Lemma failed_first_transaction_stalls_counters_witness :
  match RecordTransaction 1 (Some sample_deposit) false 7
          (Some (Errorf "yetersiz bakiye")) NewTransactionCounters with
  | Returns tc1 =>
      ∀ fuel' tx' success' d' err',
        RecordTransaction fuel' (Some tx') success' d' err' tc1 = OutOfFuel
  | Panics _ _ => False
  | OutOfFuel => True
  end.
Proof.
  apply (failed_first_transaction_stalls_counters 1 sample_deposit 7
           (Some (Errorf "yetersiz bakiye")) NewTransactionCounters);
    [reflexivity | reflexivity | discriminate].
Defined.

(** ** The handlers: pages, access, accepted requests *)

Lemma length_omap_le {A B} (f : A → option B) (l : list A) :
  (length (omap f l) ≤ length l)%nat.
Proof.
  induction l as [|x l IH]; simpl; [done|].
  destruct (f x); simpl; [apply le_n_S|apply le_S]; exact IH.
Qed.

Lemma GetBalanceHistory_length bs accountID w :
  (length (BalanceService.GetBalanceHistory bs accountID w) ≤ 100)%nat.
Proof.
  unfold BalanceService.GetBalanceHistory.
  destruct (BalanceService.auditService bs); simpl; [|lia].
  etrans; [apply length_omap_le|].
  unfold GetAuditLogsByEntityID. rewrite length_take. lia.
Qed.

Lemma pagination_bounds q :
  1 ≤ Handlers.GetTransactionHistory_limit q ≤ 100
  ∧ 0 ≤ Handlers.GetTransactionHistory_offset q.
Proof.
  unfold Handlers.GetTransactionHistory_limit, Handlers.GetTransactionHistory_offset.
  split.
  - destruct (Handlers.Atoi _) as [n|]; [|lia].
    destruct (n <=? 0) eqn:E1; simpl; [lia|].
    destruct (100 <? n) eqn:E2; lia.
  - destruct (Handlers.Atoi _) as [n|]; [|lia].
    destruct (n <? 0) eqn:E1; lia.
Qed.

Lemma GetHistoricalBalance_page_small {A} (l : list A) limit offset :
  1 ≤ limit ≤ 100 → 0 ≤ offset → (length l ≤ 100)%nat →
  GetHistoricalBalance_page l limit offset
  = Some (take (Z.to_nat limit) (drop (Z.to_nat offset) l)).
Proof.
  intros Hl Ho Hlen. unfold GetHistoricalBalance_page.
  destruct (Z.of_nat (length l) <=? offset) eqn:E1.
  { rewrite drop_ge by lia. by rewrite take_nil. }
  rewrite wrap64_small by (unfold max_int64; lia).
  unfold slice.
  destruct (Z.of_nat (length l) <? offset + limit) eqn:E2.
  - replace ((0 <=? offset) && (offset <=? Z.of_nat (length l))
             && (Z.of_nat (length l) <=? Z.of_nat (length l))) with true
      by (symmetry; rewrite !andb_true_iff; lia).
    f_equal. rewrite !take_ge; [done| |]; rewrite length_drop; lia.
  - replace ((0 <=? offset) && (offset <=? offset + limit)
             && (offset + limit <=? Z.of_nat (length l))) with true
      by (symmetry; rewrite !andb_true_iff; lia).
    do 3 f_equal. lia.
Qed.

(** X28. The page of [GetHistoricalBalance] over the history the balance
    service returns: for every query string and date range the slicing
    stays within bounds (no slice expression panics, also for an offset
    near the largest integer), the page is the first [limit] rows after
    skipping [offset] rows of the date-filtered history, it holds at most
    [limit] rows and never more than 100, and its rows are rows of the
    history in their order. *)
Theorem GetHistoricalBalance_page_is_safe q startDate endDate bs userID w :
  let history := BalanceService.GetBalanceHistory bs userID w in
  let limit := Handlers.GetTransactionHistory_limit q in
  let offset := Handlers.GetTransactionHistory_offset q in
  ∃ page,
    GetHistoricalBalance q startDate endDate history = Some page
    ∧ page = take (Z.to_nat limit)
               (drop (Z.to_nat offset)
                  (GetHistoricalBalance_filter startDate endDate history))
    ∧ Z.of_nat (length page) ≤ limit ≤ 100
    ∧ page `sublist_of` history.
Proof.
  cbv zeta. destruct (pagination_bounds q) as [Hl Ho].
  pose proof (GetBalanceHistory_length bs userID w) as Hlen.
  eexists. split; [|split; [reflexivity|]].
  - change (GetHistoricalBalance q startDate endDate ?h)
      with (GetHistoricalBalance_page
              (GetHistoricalBalance_filter startDate endDate h)
              (Handlers.GetTransactionHistory_limit q)
              (Handlers.GetTransactionHistory_offset q)).
    apply GetHistoricalBalance_page_small; [done|done|].
    unfold GetHistoricalBalance_filter.
    etrans; [apply length_filter|done].
  - split.
    + rewrite length_take. lia.
    + etrans; [apply sublist_take|]. etrans; [apply sublist_drop|].
      apply sublist_filter.
Qed.

(** X29. Who may read a committed ledger row through [GetTransaction].
    The access test denies a request only when the row has both a sender
    and a receiver and the caller is neither.  So the deposit row written
    by [Credit] and the withdrawal row written by [Debit] are shown to
    every authenticated caller, whoever owns the account, while the row
    written by [Transfer] is shown to its sender and its receiver and
    refused with 403 to everyone else. *)
Theorem committed_rows_access ts f A B x w userID :
  ((TransactionService.Credit ts f A x w).1 = None →
   (GetTransaction
      (GetTransactionByID (db (TransactionService.Credit ts f A x w).2))
      (Principal userID) (Some (new_uuid f))).1 = StatusOK)
  ∧ ((TransactionService.Debit ts f A x w).1 = None →
     (GetTransaction
        (GetTransactionByID (db (TransactionService.Debit ts f A x w).2))
        (Principal userID) (Some (new_uuid f))).1 = StatusOK)
  ∧ ((TransactionService.Transfer ts f A B x w).1 = None →
     (GetTransaction
        (GetTransactionByID (db (TransactionService.Transfer ts f A B x w).2))
        (Principal userID) (Some (new_uuid f))).1
     = if bool_decide (userID = A ∨ userID = B) then StatusOK
       else StatusForbidden).
Proof.
  split; [|split]; intros Hn.
  - destruct (Credit_outcome ts f A x w)
      as (_ & [(Hs & _)|(b & _ & _ & _ & _ & _ & Et)]).
    { rewrite Hn in Hs. by destruct Hs. }
    unfold GetTransaction, GetTransactionByID.
    by rewrite Et, lookup_insert_eq.
  - destruct (Debit_outcome ts f A x w)
      as (_ & [(Hs & _)|(b & _ & _ & _ & _ & _ & _ & Et)]).
    { rewrite Hn in Hs. by destruct Hs. }
    unfold GetTransaction, GetTransactionByID.
    rewrite Et, lookup_insert_eq. unfold GetTransaction_denied. simpl.
    by rewrite andb_false_r.
  - destruct (Transfer_outcome ts f A B x w)
      as (_ & [(Hs & _)|(a & b & _ & _ & _ & _ & _ & _ & _ & _ & Et)]).
    { rewrite Hn in Hs. by destruct Hs. }
    unfold GetTransaction, GetTransactionByID.
    rewrite Et, lookup_insert_eq. unfold GetTransaction_denied. simpl.
    destruct (String.eqb_spec A userID) as [->|HA]; simpl.
    { rewrite bool_decide_eq_true_2; auto. }
    destruct (String.eqb_spec B userID) as [->|HB]; simpl.
    { rewrite bool_decide_eq_true_2; auto. }
    rewrite bool_decide_eq_false_2; [done|]. intros [->| ->]; done.
Qed.

Lemma committed_rows_access_witness :
  (GetTransaction
     (GetTransactionByID
        (db (TransactionService.Credit sample_ts sample_fresh "bob" 1000
               sample_world).2))
     (Principal "carol") (Some (new_uuid sample_fresh))).1 = StatusOK.
Proof.
  apply (proj1 (committed_rows_access sample_ts sample_fresh "bob" "alice" 1000
                  sample_world "carol")).
  reflexivity.
Defined.

Ltac status_cases :=
  simpl; try done;
  try (rewrite bool_decide_eq_false_2 by discriminate; done);
  try rewrite bool_decide_eq_true_2 by reflexivity.

(** X12. What a status of the three submitting handlers means for the
    queue.  [CreditTransaction], [DebitTransaction] and
    [TransferTransaction] answer 202 Accepted only for an authenticated
    caller with a well-formed identifier and a positive amount (for a
    debit and a transfer also a balance read that covers the amount, for a
    transfer also a receiver other than the caller), and then exactly one
    job of the right type, with retry count 0 and at most 3 retries, is
    appended to the job queue; with any other status the pool is exactly
    as it was. *)
Theorem accepted_means_queued balanceRepo p reqC reqD reqT jobID createdAt
    pick d wp :
  (let r := CreditTransaction p reqC jobID createdAt pick wp in
   if bool_decide (r.1 = StatusAccepted) then
     ∃ userID amount,
       p = Principal userID ∧ reqC = Some amount ∧ 0 < amount
       ∧ WorkerPool.jobQueue r.2
         = WorkerPool.jobQueue wp
           ++ [WorkerPool.mkJob jobID "credit" uuid_Nil userID amount 0 3 createdAt]
   else r.2 = wp)
  ∧ (let r := DebitTransaction balanceRepo p reqD jobID createdAt pick d wp in
     if bool_decide (r.1.1 = StatusAccepted) then
       ∃ userID amount balance,
         p = Principal userID ∧ reqD = Some amount ∧ 0 < amount
         ∧ (repo_GetBalance balanceRepo userID d).1 = inr balance
         ∧ amount ≤ balance
         ∧ WorkerPool.jobQueue r.2
           = WorkerPool.jobQueue wp
             ++ [WorkerPool.mkJob jobID "debit" userID uuid_Nil amount 0 3 createdAt]
     else r.2 = wp)
  ∧ (let r := TransferTransaction balanceRepo p reqT jobID createdAt pick d wp in
     if bool_decide (r.1.1 = StatusAccepted) then
       ∃ fromUserID toUserID amount balance,
         p = Principal fromUserID ∧ reqT = Some (toUserID, amount)
         ∧ 0 < amount ∧ fromUserID ≠ toUserID
         ∧ (repo_GetBalance balanceRepo fromUserID d).1 = inr balance
         ∧ amount ≤ balance
         ∧ WorkerPool.jobQueue r.2
           = WorkerPool.jobQueue wp
             ++ [WorkerPool.mkJob jobID "transfer" fromUserID toUserID amount
                   0 3 createdAt]
     else r.2 = wp).
Proof.
  split; [|split]; cbv zeta.
  - unfold CreditTransaction.
    destruct p as [| |userID]; destruct reqC as [amount|]; simpl;
      try destruct (amount <=? 0) eqn:Ha; status_cases.
    unfold WorkerPool.SubmitJob.
    destruct (WorkerPool.can_send wp), (WorkerPool.done wp), pick;
      status_cases; exists userID, amount; repeat split; first [done | lia].
  - unfold DebitTransaction.
    destruct p as [| |userID]; destruct reqD as [amount|]; simpl;
      try destruct (amount <=? 0) eqn:Ha; status_cases.
    unfold CanPerformTransaction.
    destruct (repo_GetBalance balanceRepo userID d) as [[e|balance] d'] eqn:Hg;
      status_cases.
    destruct (amount <=? balance) eqn:Hb; status_cases.
    unfold WorkerPool.SubmitJob.
    destruct (WorkerPool.can_send wp), (WorkerPool.done wp), pick;
      status_cases; exists userID, amount, balance; rewrite Hg;
      repeat split; first [done | lia].
  - unfold TransferTransaction.
    destruct p as [| |userID]; destruct reqT as [[toUserID amount]|]; simpl;
      try destruct (amount <=? 0) eqn:Ha; status_cases.
    destruct (decide (userID = toUserID)) as [Heq|Hne];
      [rewrite (bool_decide_eq_true_2 (userID = toUserID)) by done
      |rewrite (bool_decide_eq_false_2 (userID = toUserID)) by done];
      status_cases.
    unfold CanPerformTransaction.
    destruct (repo_GetBalance balanceRepo userID d) as [[e|balance] d'] eqn:Hg;
      status_cases.
    destruct (amount <=? balance) eqn:Hb; status_cases.
    unfold WorkerPool.SubmitJob.
    destruct (WorkerPool.can_send wp), (WorkerPool.done wp), pick;
      status_cases; exists userID, toUserID, amount, balance; rewrite Hg;
      repeat split; first [done | lia].
Qed.

(** X30. An accepted debit can still fail.  The balance test of
    [DebitTransaction] reserves nothing: when an account holds enough for
    one withdrawal of the amount but not for two (the amount a whole
    number of minor units, at most two decimals), two requests for that
    amount are both answered 202 Accepted and both jobs are queued, the
    store being untouched.  When a worker then runs the two jobs one after
    the other, with no other call in between, the first is booked and
    published as a success with no retry; the second fails, is published as a failure and is handed to the retry timer with
    retry count 1 and a backoff of one second; the account ends at its
    balance minus one amount. *)
Theorem accepted_debit_can_fail ts f1 fa1 f2 fa2 id1 id2 t1 t2 pick1 pick2
    at1 pt1 at2 pt2 userID amount b d r wp :
  0 < amount → amount ≤ b → b < 2 * amount →
  balances d !! userID = Some b →
  transactions d !! new_uuid f1 = None →
  WorkerPool.done wp = false →
  (length (WorkerPool.jobQueue wp) + 2 ≤ WorkerPool.maxQueueSize wp)%nat →
  (length (WorkerPool.results wp) + 2 ≤ WorkerPool.maxQueueSize wp)%nat →
  let job1 := WorkerPool.mkJob id1 "debit" userID uuid_Nil amount 0 3 t1 in
  let job2 := WorkerPool.mkJob id2 "debit" userID uuid_Nil amount 0 3 t2 in
  let h1 := DebitTransaction BalanceRepository_strict (Principal userID)
              (Some amount) id1 t1 pick1 d wp in
  let h2 := DebitTransaction BalanceRepository_strict (Principal userID)
              (Some amount) id2 t2 pick2 h1.1.2 h1.2 in
  let p1 := processJob ts f1 fa1 at1 pt1 job1 (mkWorld h2.1.2 r) h2.2 in
  let p2 := processJob ts f2 fa2 at2 pt2 job2 p1.1.1 p1.1.2 in
  h1.1.1 = StatusAccepted ∧ h2.1.1 = StatusAccepted
  ∧ h2.1.2 = d
  ∧ WorkerPool.jobQueue h2.2 = WorkerPool.jobQueue wp ++ [job1; job2]
  ∧ p1.2 = None
  ∧ p2.2 = Some (WorkerPool.mkJob id2 "debit" userID uuid_Nil amount 1 3 t2,
                 WorkerPool.second)
  ∧ (WorkerPool.Success <$> WorkerPool.results p2.1.2)
    = (WorkerPool.Success <$> WorkerPool.results wp) ++ [true; false]
  ∧ balances (db p2.1.1) !! userID = Some (b - amount).
Proof.
  intros Hx Hle Hlt Hb Hid Hd Hroom Hres. cbv zeta.
  assert (Hh : ∀ id t pick wp',
            WorkerPool.done wp' = false →
            (length (WorkerPool.jobQueue wp') < WorkerPool.maxQueueSize wp')%nat →
            let h := DebitTransaction BalanceRepository_strict (Principal userID)
                       (Some amount) id t pick d wp' in
            h.1.1 = StatusAccepted ∧ h.1.2 = d
            ∧ WorkerPool.jobQueue h.2
              = WorkerPool.jobQueue wp'
                ++ [WorkerPool.mkJob id "debit" userID uuid_Nil amount 0 3 t]
            ∧ WorkerPool.done h.2 = false
            ∧ WorkerPool.maxQueueSize h.2 = WorkerPool.maxQueueSize wp'
            ∧ WorkerPool.results h.2 = WorkerPool.results wp').
  { intros id t pick wp' Hd' Hr'. cbv zeta.
    unfold DebitTransaction, CanPerformTransaction. simpl.
    destruct (amount <=? 0) eqn:E0; [lia|].
    unfold First_balance. rewrite Hb.
    destruct (amount <=? b) eqn:E1; [|lia].
    unfold WorkerPool.SubmitJob, WorkerPool.can_send.
    rewrite Hd', bool_decide_eq_true_2 by done. done. }
  destruct (Hh id1 t1 pick1 wp Hd ltac:(lia)) as (S1 & D1 & Q1 & Dn1 & M1 & R1).
  set (h1 := DebitTransaction BalanceRepository_strict (Principal userID)
               (Some amount) id1 t1 pick1 d wp) in *.
  rewrite D1.
  destruct (Hh id2 t2 pick2 h1.2 Dn1
              ltac:(rewrite Q1, M1, length_app; simpl; lia))
    as (S2 & D2 & Q2 & _ & M2 & R2).
  set (h2 := DebitTransaction BalanceRepository_strict (Principal userID)
               (Some amount) id2 t2 pick2 d h1.2) in *.
  rewrite D2. split; [done|]. split; [done|]. split; [done|].
  split; [by rewrite Q2, Q1, <- app_assoc|].
  unfold processJob, processJob_dispatch. simpl. unfold processDebit. simpl.
  pose proof (Debit_succeeds ts f1 userID amount (mkWorld d r) b Hx Hid Hb Hle)
    as [Hn1 Hb1].
  destruct (TransactionService.Debit ts f1 userID amount (mkWorld d r))
    as [e1 w1] eqn:E1. simpl in Hn1, Hb1. subst e1. simpl.
  split; [done|].
  set (w1' := with_db w1 _).
  assert (Hb1' : balances (db w1') !! userID = Some (b - amount)) by done.
  destruct (Debit_outcome ts f2 userID amount w1')
    as (_ & [(Hs & Eb & _)|(b' & _ & _ & Hle' & _ & Hb' & _)]).
  2:{ rewrite Hb1' in Hb'. injection Hb' as <-. lia. }
  destruct (TransactionService.Debit ts f2 userID amount w1') as [e2 w2] eqn:E2.
  simpl in Hs, Eb. destruct Hs as [e ->]. simpl.
  split; [done|]. split; [|by rewrite Eb].
  unfold publish. simpl.
  rewrite (bool_decide_eq_true_2 (length (WorkerPool.results h2.2)
                                  < WorkerPool.maxQueueSize h2.2)%nat)
    by (rewrite R2, R1, M2, M1; lia).
  simpl.
  rewrite bool_decide_eq_true_2
    by (rewrite length_app, R2, R1, M2, M1; simpl; lia).
  simpl. rewrite R2, R1, !fmap_app, <- app_assoc. done.
Qed.

Lemma accepted_debit_can_fail_witness :
  let wp := WorkerPool.mk [] [] 5 false TransactionCounters.NewTransactionCounters in
  let job1 := WorkerPool.mkJob "job-1" "debit" "bob" uuid_Nil 300 0 3 1000 in
  let job2 := WorkerPool.mkJob "job-2" "debit" "bob" uuid_Nil 300 0 3 2000 in
  let h1 := DebitTransaction BalanceRepository_strict (Principal "bob")
              (Some 300) "job-1" 1000 true sample_db wp in
  let h2 := DebitTransaction BalanceRepository_strict (Principal "bob")
              (Some 300) "job-2" 2000 true h1.1.2 h1.2 in
  let p1 := processJob sample_ts sample_fresh sample_fresh 1100 10 job1
              (mkWorld h2.1.2 sample_redis) h2.2 in
  let p2 := processJob sample_ts sample_fresh2 sample_fresh2 2100 10 job2
              p1.1.1 p1.1.2 in
  h1.1.1 = StatusAccepted ∧ h2.1.1 = StatusAccepted
  ∧ h2.1.2 = sample_db
  ∧ WorkerPool.jobQueue h2.2 = WorkerPool.jobQueue wp ++ [job1; job2]
  ∧ p1.2 = None
  ∧ p2.2 = Some (WorkerPool.mkJob "job-2" "debit" "bob" uuid_Nil 300 1 3 2000,
                 WorkerPool.second)
  ∧ (WorkerPool.Success <$> WorkerPool.results p2.1.2)
    = (WorkerPool.Success <$> WorkerPool.results wp) ++ [true; false]
  ∧ balances (db p2.1.1) !! "bob" = Some (500 - 300).
Proof.
  apply (accepted_debit_can_fail sample_ts sample_fresh sample_fresh
           sample_fresh2 sample_fresh2 "job-1" "job-2" 1000 2000 true true
           1100 10 2100 10 "bob" 300 500 sample_db sample_redis
           (WorkerPool.mk [] [] 5 false TransactionCounters.NewTransactionCounters));
    [lia | lia | lia | reflexivity | reflexivity | reflexivity | simpl; lia
    | simpl; lia].
Defined.
